(** * aiflows.flow_verse.loading: dependency synchronisation

    A shallow embedding of [aiflows/flow_verse/loading.py]: the manifest
    ([flow.mod]) codec, the dependency validator, the modification detector,
    the reconciliation of one dependency against its previous descriptor and
    the synchronisation driver.

    Conventions of the embedding.
    - A Python [str] is a [string]; a character is a code point below 256
      (Latin-1), which is where the character classes [\w], [\d] and the
      whitespace of [str.strip] are written out.
    - A function that may raise returns a [result]; code that also acts on
      the outside world lives in the monad [M] over a [World].
    - Collaborators that are not part of this file (the Hugging Face hub,
      the interactive prompt, pip) are fields of an [Env]. *)

From Stdlib Require Import String Ascii List Bool Arith Lia.
Import ListNotations.
Local Open Scope list_scope.
Local Open Scope string_scope.

Set Implicit Arguments.
Set Warnings "-register-all".

(* ===================================================================== *)
(** * Characters and strings as Python sees them *)
(* ===================================================================== *)

Module PyStr.

Definition code (c : ascii) : nat := nat_of_ascii c.

Definition in_range (lo hi : nat) (c : ascii) : bool :=
  ((lo <=? code c)%nat && (code c <=? hi)%nat).

(** [\d] on a [str] pattern: the decimal digits. Below 256 these are [0-9]. *)
Definition is_digit (c : ascii) : bool := in_range 48 57 c.

(** [\w] on a [str] pattern: alphanumeric code points and the underscore.
    Below 256: [a-zA-Z0-9_], the letters of Latin-1 and its numeric signs. *)
Definition is_word (c : ascii) : bool :=
  in_range 48 57 c || in_range 65 90 c || in_range 97 122 c
  || (code c =? 95)%nat
  || (code c =? 170)%nat || (code c =? 181)%nat || (code c =? 186)%nat
  || in_range 178 179 c || (code c =? 185)%nat || in_range 188 190 c
  || in_range 192 214 c || in_range 216 246 c || in_range 248 255 c.

(** Whitespace removed by [str.strip()]. *)
Definition is_space (c : ascii) : bool :=
  in_range 9 13 c || in_range 28 32 c || (code c =? 133)%nat || (code c =? 160)%nat.

Definition newline : ascii := ascii_of_nat 10.
Definition is_newline (c : ascii) : bool := (code c =? 10)%nat.

(** [.] in a pattern compiled without flags: anything but a newline. *)
Definition is_dot (c : ascii) : bool := negb (is_newline c).

Definition nl : string := String newline "".

Fixpoint forallb_str (p : ascii -> bool) (s : string) : bool :=
  match s with
  | EmptyString => true
  | String c s' => p c && forallb_str p s'
  end.

Fixpoint existsb_str (p : ascii -> bool) (s : string) : bool :=
  match s with
  | EmptyString => false
  | String c s' => p c || existsb_str p s'
  end.

Fixpoint rev_acc (s acc : string) : string :=
  match s with
  | EmptyString => acc
  | String c s' => rev_acc s' (String c acc)
  end.

Definition rev (s : string) : string := rev_acc s "".

(** [s.lstrip()], [s.rstrip()], [s.strip()]. *)
Fixpoint lstrip (s : string) : string :=
  match s with
  | EmptyString => ""
  | String c s' => if is_space c then lstrip s' else s
  end.

Definition rstrip (s : string) : string := rev (lstrip (rev s)).

Definition strip (s : string) : string := rstrip (lstrip s).

(** [s.startswith(p)], returning what follows the prefix. *)
Fixpoint strip_prefix (p s : string) : option string :=
  match p with
  | EmptyString => Some s
  | String a p' =>
      match s with
      | EmptyString => None
      | String b s' => if Ascii.eqb a b then strip_prefix p' s' else None
      end
  end.

Definition startswith (s p : string) : bool :=
  match strip_prefix p s with Some _ => true | None => false end.

(** [sub in s]. *)
Fixpoint contains (sub s : string) : bool :=
  startswith s sub ||
  match s with
  | EmptyString => false
  | String _ s' => contains sub s'
  end.

(** [s.split(sep)] for a one-character separator. *)
Fixpoint split_on (sep : ascii) (s : string) : list string :=
  match s with
  | EmptyString => [""]
  | String c s' =>
      if Ascii.eqb c sep then "" :: split_on sep s'
      else match split_on sep s' with
           | [] => [String c ""]
           | w :: ws => String c w :: ws
           end
  end.

(** [sep.join(parts)]. *)
Fixpoint join_with (sep : string) (parts : list string) : string :=
  match parts with
  | [] => ""
  | [p] => p
  | p :: ps => p ++ sep ++ join_with sep ps
  end.

(** The lines of a text file as successive [readline()] calls return them:
    each keeps its terminating newline; the last one may lack it. *)
Fixpoint readlines (s : string) : list string :=
  match s with
  | EmptyString => []
  | String c s' =>
      if is_newline c then String c "" :: readlines s'
      else match readlines s' with
           | [] => [String c ""]
           | l :: ls => String c l :: ls
           end
  end.

End PyStr.

(* ===================================================================== *)
(** * The regular expressions of the module

    Every pattern the module compiles is a sequence of literals and of
    greedy [+] repetitions of a character class, anchored by [^] and [$].
    [re.search] on such a pattern tries the repetitions longest first, left
    to right, which is what [greedy] does. *)
(* ===================================================================== *)

Module Re.
Import PyStr.

Inductive item : Type :=
| Lit (s : string)                  (* literal text *)
| Plus (cls : ascii -> bool)        (* cls+ *)
| Group (cls : ascii -> bool).      (* (cls+), captured *)

(** [$] without [re.MULTILINE]: at the end, or before a final newline. *)
Definition at_end (s : string) : bool :=
  match s with
  | EmptyString => true
  | String c EmptyString => is_newline c
  | _ => false
  end.

(** All non-empty prefixes of [s] made of [cls], longest first; [acc] is the
    prefix consumed so far, reversed. *)
Fixpoint greedy (R : Type) (cls : ascii -> bool)
         (k : string -> string -> option R) (acc s : string) : option R :=
  match s with
  | EmptyString => None
  | String c s' =>
      if cls c then
        match greedy cls k (String c acc) s' with
        | Some r => Some r
        | None => k (rev_acc (String c acc) "") s'
        end
      else None
  end.

Fixpoint match_items (items : list item) (s : string) : option (list string) :=
  match items with
  | [] => if at_end s then Some [] else None
  | Lit l :: rest =>
      match strip_prefix l s with
      | Some s' => match_items rest s'
      | None => None
      end
  | Plus cls :: rest =>
      greedy cls (fun _ s' => match_items rest s') "" s
  | Group cls :: rest =>
      greedy cls (fun g s' => option_map (cons g) (match_items rest s')) "" s
  end.

(** [re.search(r"^...$", s)] and its [groups()]. *)
Definition search_anchored (items : list item) (s : string) : option (list string) :=
  match_items items s.

(** [re.search(r"\W", s)]: the first character outside [\w], if any. *)
Fixpoint search_nonword (s : string) : option ascii :=
  match s with
  | EmptyString => None
  | String c s' => if is_word c then search_nonword s' else Some c
  end.

End Re.

(* ===================================================================== *)
(** * [os.path] (posixpath) *)
(* ===================================================================== *)

Module PyPath.
Import PyStr.

Definition sep : ascii := "/"%char.

Definition endswith_sep (s : string) : bool :=
  match rev s with
  | String c _ => Ascii.eqb c sep
  | EmptyString => false
  end.

(** [os.path.join(a, b)]. *)
Definition join (a b : string) : string :=
  if startswith b "/" then b
  else if (String.eqb a "" || endswith_sep a)%bool then a ++ b
  else a ++ "/" ++ b.

(** Splitting the reversed path at its first separator: [p.rfind('/')]. *)
Fixpoint rsplit_rev (r : string) : string * string :=
  match r with
  | EmptyString => ("", "")
  | String c r' =>
      if Ascii.eqb c sep then ("", r)
      else let (t, h) := rsplit_rev r' in (String c t, h)
  end.

(** [(p[:i], p[i:])] for [i = p.rfind('/') + 1]. *)
Definition rsplit_sep (p : string) : string * string :=
  let (t, h) := rsplit_rev (rev p) in (rev h, rev t).

(** [os.path.basename]. *)
Definition basename (p : string) : string := snd (rsplit_sep p).

Fixpoint rstrip_sep_rev (r : string) : string :=
  match r with
  | String c r' => if Ascii.eqb c sep then rstrip_sep_rev r' else r
  | EmptyString => ""
  end.

(** [os.path.dirname]. *)
Definition dirname (p : string) : string :=
  let head := fst (rsplit_sep p) in
  if forallb_str (Ascii.eqb sep) head then head
  else rev (rstrip_sep_rev (rev head)).

(** The loop of [normpath] over the components, [new_comps] kept reversed. *)
Fixpoint norm_comps (absolute : bool) (comps acc : list string) : list string :=
  match comps with
  | [] => List.rev acc
  | comp :: rest =>
      if (String.eqb comp "" || String.eqb comp ".")%bool then
        norm_comps absolute rest acc
      else if (negb (String.eqb comp "..")
               || (negb absolute && match acc with [] => true | _ => false end)
               || match acc with
                  | last :: _ => String.eqb last ".."
                  | [] => false
                  end)%bool
      then norm_comps absolute rest (comp :: acc)
      else match acc with
           | _ :: acc' => norm_comps absolute rest acc'
           | [] => norm_comps absolute rest acc
           end
  end.

(** [os.path.normpath]. *)
Definition normpath (path : string) : string :=
  if String.eqb path "" then "."
  else
    let initial_slashes : string :=
      if startswith path "/" then
        if (startswith path "//" && negb (startswith path "///"))%bool
        then "//" else "/"
      else "" in
    let comps :=
      norm_comps (negb (String.eqb initial_slashes "")) (split_on sep path) [] in
    let path' := initial_slashes ++ join_with "/" comps in
    if String.eqb path' "" then "." else path'.

(** [os.path.abspath], for the current directory [cwd]. *)
Definition abspath (cwd path : string) : string :=
  if startswith path "/" then normpath path else normpath (join cwd path).

Fixpoint common_prefix_len (a b : list string) : nat :=
  match a, b with
  | x :: a', y :: b' => if String.eqb x y then S (common_prefix_len a' b') else 0
  | _, _ => 0
  end.

Definition nonempty_comps (p : string) : list string :=
  filter (fun x => negb (String.eqb x "")) (split_on sep p).

(** [os.path.relpath(path, start)]; [None] is the [ValueError] raised for an
    empty [path]. *)
Definition relpath (cwd path start : string) : option string :=
  if String.eqb path "" then None
  else
    let start_list := nonempty_comps (abspath cwd start) in
    let path_list := nonempty_comps (abspath cwd path) in
    let i := common_prefix_len start_list path_list in
    let rel_list :=
      (repeat ".." (length start_list - i) ++ skipn i path_list)%list in
    match rel_list with
    | [] => Some "."
    | first :: others => Some (fold_left join others first)
    end.

End PyPath.

(* ===================================================================== *)
(** * Results and exceptions *)
(* ===================================================================== *)

(** The [raise] sites of the module, and the exceptions of its callees. *)
Inductive exn : Type :=
| ValueError (msg : string)
| AssertionError
| OSError (msg : string)          (* FileNotFoundError, NotADirectoryError *)
| AttributeError (msg : string)
| HubError (msg : string).        (* raised inside huggingface_hub *)

Inductive result (A : Type) : Type :=
| Ok (a : A)
| Raise (e : exn).
Arguments Ok {A} a.
Arguments Raise {A} e.

Definition rbind {A B} (r : result A) (f : A -> result B) : result B :=
  match r with
  | Ok a => f a
  | Raise e => Raise e
  end.

Definition is_ok {A} (r : result A) : bool :=
  match r with Ok _ => true | Raise _ => false end.

(* ===================================================================== *)
(** * Directory trees *)
(* ===================================================================== *)

(** What [os.scandir] and [os.stat] can see at a path: a regular file with
    its content, a directory with its entries in directory order, or
    something that is neither (a device, a socket). *)
Inductive node : Type :=
| File (content : string)
| Dir (entries : list (string * node))
| Special.

Fixpoint lookup_entry (name : string) (es : list (string * node)) : option node :=
  match es with
  | [] => None
  | (n, x) :: rest => if String.eqb n name then Some x else lookup_entry name rest
  end.

(** The node at [os.path.join(dir, name)]. *)
Definition child (dir : option node) (name : string) : option node :=
  match dir with
  | Some (Dir es) => lookup_entry name es
  | _ => None
  end.

(* ===================================================================== *)
(** * The collaborators *)
(* ===================================================================== *)

(** What the module calls and does not define. *)
Record Env : Type := {
  (** [os.getcwd()] *)
  cwd : string;
  (** [os.path.exists] and [os.path.isdir] on the string given as a
      revision; the module neither creates nor removes what a revision
      names (it refuses revisions under [flow_modules]) *)
  path_exists : string -> bool;
  path_isdir : string -> bool;
  (** [aiflows.flow_verse.utils.build_hf_cache_path(repo_id, commit_hash, cache_root)] *)
  build_hf_cache_path : string -> string -> string -> string;
  (** [aiflows.flow_verse.utils.yes_no_question]: the answer to the n-th
      question asked *)
  yes_no_question : nat -> bool;
  (** [HfApi().repo_info(repo_id, revision).sha] *)
  hub_repo_sha : string -> string -> result string;
  (** [huggingface_hub.snapshot_download(repo_id, cache_dir, revision)]: the
      snapshot directory in the cache and its content *)
  hub_snapshot : string -> string -> string -> result (string * node);
  (** [get_unsatisfied_pip_requirements] on the content of a requirements
      file: what the installed packages ([pkg_resources]) do not satisfy *)
  unsatisfied_requirements : string -> result (list string)
}.

(* ===================================================================== *)
(** * Module descriptors and the manifest *)
(* ===================================================================== *)

Definition DEFAULT_FLOW_MODULE_FOLDER : string := "flow_modules".
Definition FLOW_MODULE_SUMMARY_FILE_NAME : string := "flow.mod".
Definition DEFAULT_REMOTE_REVISION : string := "main".
Definition NO_COMMIT_HASH : string := "NO_COMMIT_HASH".

Definition REVISION_FILE_HEADER_LINES : list string :=
  [ "########################################";
    "# auto-generated by aiflows, DO NOT EDIT #";
    "########################################" ].

Definition REVISION_FILE_HEADER : string :=
  PyStr.join_with PyStr.nl REVISION_FILE_HEADER_LINES.

Record FlowModuleSpec : Type := {
  repo_id : string;
  revision : string;
  commit_hash : string;
  cache_dir : string;
  sync_dir : string
}.

Definition build_mod_id (repo_id revision : string) : string :=
  repo_id ++ ":" ++ revision.

Definition mod_id (m : FlowModuleSpec) : string :=
  build_mod_id (repo_id m) (revision m).

(** A Python [dict] with [str] keys: insertion-ordered, assignment to a
    present key replaces the value where the key stands. *)
Module Dict.
Section Dict.
Variable V : Type.

Definition t : Type := list (string * V).

Fixpoint get (d : t) (k : string) : option V :=
  match d with
  | [] => None
  | (k', v) :: rest => if String.eqb k' k then Some v else get rest k
  end.

Fixpoint set (d : t) (k : string) (v : V) : t :=
  match d with
  | [] => [(k, v)]
  | (k', v') :: rest =>
      if String.eqb k' k then (k, v) :: rest else (k', v') :: set rest k v
  end.

Definition keys (d : t) : list string := map fst d.
Definition values (d : t) : list V := map snd d.

End Dict.
End Dict.

Record FlowModuleSpecSummary : Type := {
  _sync_root : string;
  _cache_root : string;
  _mods : Dict.t FlowModuleSpec
}.

(** [FlowModuleSpecSummary.__init__]: [{mod.repo_id: mod for mod in mods}]. *)
Definition new_summary (sync_root cache_root : string) (mods : list FlowModuleSpec)
  : FlowModuleSpecSummary :=
  {| _sync_root := sync_root;
     _cache_root := cache_root;
     _mods := fold_left (fun d m => Dict.set d (repo_id m) m) mods [] |}.

Definition get_mods (s : FlowModuleSpecSummary) : list FlowModuleSpec :=
  Dict.values (_mods s).

Definition add_mod (s : FlowModuleSpecSummary) (m : FlowModuleSpec)
  : FlowModuleSpecSummary :=
  {| _sync_root := _sync_root s;
     _cache_root := _cache_root s;
     _mods := Dict.set (_mods s) (repo_id m) m |}.

Definition get_mod (s : FlowModuleSpecSummary) (repo : string) : option FlowModuleSpec :=
  Dict.get (_mods s) repo.

(* ===================================================================== *)
(** * The manifest codec *)
(* ===================================================================== *)

Section Codec.
Variable env : Env.

(** [is_local_revision]: [os.path.exists(legal_revision)]. *)
Definition is_local_revision (legal_revision : string) : bool :=
  path_exists env legal_revision.

(** [^sync_root: (.+)$], [^cache_root: (.+)$] and
    [^(.+)/(.+) (.+) (.+) -> _/(.+)$]. *)
Definition sync_root_pattern : list Re.item :=
  [Re.Lit "sync_root: "; Re.Group PyStr.is_dot].

Definition cache_root_pattern : list Re.item :=
  [Re.Lit "cache_root: "; Re.Group PyStr.is_dot].

Definition flow_mod_spec_pattern : list Re.item :=
  [Re.Group PyStr.is_dot; Re.Lit "/"; Re.Group PyStr.is_dot; Re.Lit " ";
   Re.Group PyStr.is_dot; Re.Lit " "; Re.Group PyStr.is_dot; Re.Lit " -> _/";
   Re.Group PyStr.is_dot].

(** [f.readline()] on the lines still to be read: [""] at the end of file. *)
Definition readline (f : list string) : string * list string :=
  match f with
  | [] => ("", [])
  | l :: f' => (l, f')
  end.

(** The header loop of [from_flow_mod_file]. *)
Fixpoint read_header (header_lines : list string) (f : list string)
  : result (list string) :=
  match header_lines with
  | [] => Ok f
  | header_line :: more =>
      let (l, f') := readline f in
      if String.eqb (PyStr.strip header_line) (PyStr.strip l)
      then read_header more f'
      else Raise (ValueError "header is corrupted")
  end.

(** The [while mod_line:] loop of [from_flow_mod_file]; [f] starts at the
    line just read into [mod_line]. *)
Fixpoint read_mods (sync_root cache_root : string) (f : list string)
         (mods : list FlowModuleSpec) : result (list FlowModuleSpec) :=
  match f with
  | [] => Ok mods
  | l :: f' =>
      let mod_line := PyStr.strip l in
      if String.eqb mod_line "" then Ok mods
      else
        match Re.search_anchored flow_mod_spec_pattern mod_line with
        | Some [username; repo_name; revision; commit_hash; relative_sync_dir] =>
            let repo_id := username ++ "/" ++ repo_name in
            let sync_dir := PyPath.join sync_root relative_sync_dir in
            let cache_dir :=
              if negb (is_local_revision revision)
              then build_hf_cache_path env repo_id commit_hash cache_root
              else sync_dir in
            read_mods sync_root cache_root f'
              (mods ++ [ {| repo_id := repo_id; revision := revision;
                            commit_hash := commit_hash; cache_dir := cache_dir;
                            sync_dir := sync_dir |} ])%list
        | _ => Raise (ValueError "not a valid flow module spec")
        end
  end.

(** [FlowModuleSpecSummary.from_flow_mod_file], on the content of the file
    at [file_path] ([None] when that path does not exist). *)
Definition from_flow_mod_file (file : option string)
  : result (option FlowModuleSpecSummary) :=
  match file with
  | None => Ok None
  | Some text =>
      let f := PyStr.readlines text in
      rbind (read_header (PyStr.split_on PyStr.newline REVISION_FILE_HEADER) f)
        (fun f =>
      let (l, f) := readline f in
      let sync_root_line := PyStr.strip l in
      match Re.search_anchored sync_root_pattern sync_root_line with
      | Some [sync_root] =>
          let (l, f) := readline f in
          let cache_root_line := PyStr.strip l in
          match Re.search_anchored cache_root_pattern cache_root_line with
          | Some [cache_root] =>
              rbind (read_mods sync_root cache_root f [])
                (fun mods => Ok (Some (new_summary sync_root cache_root mods)))
          | _ => Raise (ValueError "the second line must be `cache_root: xxxx`")
          end
      | _ => Raise (ValueError "the first line must be `sync_root: xxxx`")
      end)
  end.

(** The lines that [serialize] appends for the modules; [os.path.relpath]
    raises on an empty path. *)
Fixpoint mod_lines (sync_root : string) (mods : list FlowModuleSpec)
  : result (list string) :=
  match mods with
  | [] => Ok []
  | m :: rest =>
      match PyPath.relpath (cwd env) (sync_dir m) sync_root with
      | None => Raise (ValueError "no path specified")
      | Some rel =>
          rbind (mod_lines sync_root rest) (fun ls =>
          Ok ((repo_id m ++ " " ++ revision m ++ " " ++ commit_hash m
               ++ " -> _/" ++ rel) :: ls))
      end
  end.

(** [FlowModuleSpecSummary.serialize]. *)
Definition serialize (s : FlowModuleSpecSummary) : result string :=
  rbind (mod_lines (_sync_root s) (get_mods s)) (fun ls =>
  Ok (PyStr.join_with PyStr.nl
        (("sync_root: " ++ _sync_root s) :: ("cache_root: " ++ _cache_root s) :: ls))).

(** What [write_flow_mod_summary] leaves in the file: it is opened for
    writing, the header and a newline are written, and then [serialize] runs. *)
Definition flow_mod_summary_text (s : FlowModuleSpecSummary) : result string * string :=
  match serialize s with
  | Ok body =>
      (Ok (REVISION_FILE_HEADER ++ PyStr.nl ++ body ++ PyStr.nl),
       REVISION_FILE_HEADER ++ PyStr.nl ++ body ++ PyStr.nl)
  | Raise e => (Raise e, REVISION_FILE_HEADER ++ PyStr.nl)
  end.

End Codec.

(* ===================================================================== *)
(** * The modification detector *)
(* ===================================================================== *)

(** [filecmp.cmp(f1, f2, shallow=False)]: both are [os.stat]ed; anything but
    two regular files compares unequal; two regular files are compared byte
    for byte. *)
Definition filecmp_cmp (f1 f2 : option node) : result bool :=
  match f1, f2 with
  | None, _ => Raise (OSError "FileNotFoundError")
  | _, None => Raise (OSError "FileNotFoundError")
  | Some (File a), Some (File b) => Ok (String.eqb a b)
  | Some _, Some _ => Ok false
  end.

(** The entries that the scan skips. *)
Definition skipped (name : string) : bool :=
  PyStr.startswith name "." || String.eqb name "__pycache__".

(** [is_sync_dir_modified(sync_dir, cache_dir)], on what stands at the two
    paths. The loop runs over the entries of the cache directory; the sync
    side is only ever looked up by name. *)
Fixpoint is_sync_dir_modified (sync : option node) (cache : node) {struct cache}
  : result bool :=
  match cache with
  | Dir it =>
      (fix loop (it : list (string * node)) : result bool :=
         match it with
         | [] => Ok false
         | (name, entry) :: it' =>
             if skipped name then loop it'
             else
               match entry with
               | File _ =>
                   match filecmp_cmp (Some entry) (child sync name) with
                   | Ok same => if negb same then Ok true else loop it'
                   | Raise e => Raise e
                   end
               | Dir _ =>
                   match is_sync_dir_modified (child sync name) entry with
                   | Ok dir_same => if negb dir_same then Ok true else loop it'
                   | Raise e => Raise e
                   end
               | Special => Raise (ValueError "it is not file or dir or valid symlink")
               end
         end) it
  | _ => Raise (OSError "NotADirectoryError")
  end.

(* ===================================================================== *)
(** * The world and the monad of effects *)
(* ===================================================================== *)

(** What the module does to its surroundings, in the order it does it. *)
Inductive event : Type :=
| LogInfo (msg : string)
| LogWarn (msg : string)
| AskUser (question : string) (answer : bool)
| HubRepoInfo (repo rev : string)
| HubSnapshotDownload (repo rev cache_root : string) (local_dir : option string)
| ScanDir (path : string)
| RemoveLink (path : string)
| RemoveTree (path : string)
| Symlink (src dst : string)
| WriteFile (path : string)
| PipInstall (requirements_file : string).

(** A directory of interest is known by its absolute path: a tree, or a
    symbolic link to another path. *)
Inductive dentry : Type :=
| Tree (n : node)
| Link (target : string).

Module Store.
Section Store.
Variable V : Type.

Fixpoint remove (d : Dict.t V) (k : string) : Dict.t V :=
  match d with
  | [] => []
  | (k', v) :: rest =>
      if String.eqb k' k then remove rest k else (k', v) :: remove rest k
  end.

End Store.
End Store.

(** The file system as far as the module touches it, and the log. Paths are
    the strings that the module computes; a directory of interest stands
    under its path as a whole tree, and what is inside it is reached by
    name ([child]). *)
Record World : Type := {
  (** plain files the module reads and writes, by path *)
  files : Dict.t string;
  (** directories and links at the sync and cache locations, by path *)
  dirs : Dict.t dentry;
  (** how many questions the user has been asked *)
  asked : nat;
  trace : list event
}.

Definition M (A : Type) : Type := World -> result A * World.

Definition ret {A} (a : A) : M A := fun w => (Ok a, w).

Definition bind {A B} (m : M A) (f : A -> M B) : M B :=
  fun w =>
    match m w with
    | (Ok a, w') => f a w'
    | (Raise e, w') => (Raise e, w')
    end.

Definition raise {A} (e : exn) : M A := fun w => (Raise e, w).

Definition lift {A} (r : result A) : M A := fun w => (r, w).

Declare Scope m_scope.
Delimit Scope m_scope with M.
Notation "x <- c ;; k" := (bind c (fun x => k))
  (at level 61, c at next level, right associativity) : m_scope.
Notation "c ;; k" := (bind c (fun _ => k))
  (at level 61, right associativity) : m_scope.
Local Open Scope m_scope.

Definition emit (e : event) : M unit :=
  fun w => (Ok tt, {| files := files w; dirs := dirs w; asked := asked w;
                      trace := (trace w ++ [e])%list |}).

Definition set_file (path content : string) : M unit :=
  fun w => (Ok tt, {| files := Dict.set (files w) path content; dirs := dirs w;
                      asked := asked w;
                      trace := (trace w ++ [WriteFile path])%list |}).

Definition set_dir (path : string) (d : dentry) : M unit :=
  fun w => (Ok tt, {| files := files w; dirs := Dict.set (dirs w) path d;
                      asked := asked w; trace := trace w |}).

Definition del_dir (path : string) : M unit :=
  fun w => (Ok tt, {| files := files w; dirs := Store.remove (dirs w) path;
                      asked := asked w; trace := trace w |}).

(** What stands at a path, following one link. *)
Definition resolve (w : World) (path : string) : option node :=
  match Dict.get (dirs w) path with
  | Some (Tree n) => Some n
  | Some (Link target) =>
      match Dict.get (dirs w) target with
      | Some (Tree n) => Some n
      | _ => None
      end
  | None =>
      match Dict.get (files w) path with
      | Some content => Some (File content)
      | None => None
      end
  end.

Definition os_path_exists (path : string) : M bool :=
  fun w => (Ok (match resolve w path with Some _ => true | None => false end), w).

Definition os_path_isdir (path : string) : M bool :=
  fun w => (Ok (match resolve w path with Some (Dir _) => true | _ => false end), w).

Definition os_path_islink (path : string) : M bool :=
  fun w => (Ok (match Dict.get (dirs w) path with Some (Link _) => true | _ => false end), w).

Definition read_file (path : string) : M (option string) :=
  fun w => (Ok (Dict.get (files w) path), w).

Section Loading.
Variable env : Env.

(** Modelled from the spec: [utils.yes_no_question] is the confirmation
    hook, "Confirm(prompt, onYesMessage, onNoMessage) -> bool, synchronous";
    the answer is the user's. *)
Definition yes_no (question_message : string) : M bool :=
  fun w =>
    let answer := yes_no_question env (asked w) in
    (Ok answer, {| files := files w; dirs := dirs w; asked := S (asked w);
                   trace := (trace w ++ [AskUser question_message answer])%list |}).

(* --------------------------------------------------------------------- *)
(** ** The validator *)
(* --------------------------------------------------------------------- *)

(** A dependency is a [dict] with the keys ["url"], ["revision"],
    ["overwrite"] and, once validated, ["mod_name"]. *)
Record Dependency : Type := {
  dep_url : option string;
  dep_revision : option string;
  dep_overwrite : option bool;
  dep_mod_name : option string
}.

(** [^(\w+)/(\w+)$] and [^\d+\w+$]. *)
Definition url_pattern : list Re.item :=
  [Re.Group PyStr.is_word; Re.Lit "/"; Re.Group PyStr.is_word].

Definition number_prefixed_pattern : list Re.item :=
  [Re.Plus PyStr.is_digit; Re.Plus PyStr.is_word].

Definition number_prefixed (name : string) : bool :=
  match Re.search_anchored number_prefixed_pattern name with
  | Some _ => true
  | None => false
  end.

(** [validate_and_augment_dependency]: whether the dependency is local, and
    the dictionary as it leaves it. *)
Definition validate_and_augment_dependency
           (dependency : Dependency) (caller_module_name : string)
  : M (bool * Dependency) :=
  match dep_url dependency with
  | None => raise (ValueError "dependency must have a `url` field")
  | Some url =>
      match Re.search_anchored url_pattern url with
      | Some [username; repo_name] =>
          if number_prefixed repo_name then
            raise (ValueError ("url's repo name `" ++ repo_name
                               ++ "` is prefixed with a number, which is illegal in Flows, please adjust your repo name"))
          else
            username <-
              (if number_prefixed username then
                 emit (LogWarn ("[" ++ caller_module_name ++ "] url's username `"
                                ++ username ++ "` is prefixed with a number")) ;;
                 ret ("user_" ++ username)
               else ret username) ;;
            let mod_name := username ++ "/" ++ repo_name in
            let revision :=
              match dep_revision dependency with
              | Some r => r
              | None => DEFAULT_REMOTE_REVISION
              end in
            let augmented (revision : string) :=
              {| dep_url := dep_url dependency; dep_revision := Some revision;
                 dep_overwrite := dep_overwrite dependency;
                 dep_mod_name := Some mod_name |} in
            if negb (path_exists env revision) then
              match Re.search_nonword revision with
              | Some _ =>
                  raise (ValueError (revision ++ " is identified as remote, as it does not exist locally. But it not a valid remote revision, it contains illegal characters"))
              | None => ret (false, augmented revision)
              end
            else if negb (path_isdir env revision) then
              raise (ValueError ("local revision " ++ revision ++ " is not a valid directory"))
            else if PyStr.contains DEFAULT_FLOW_MODULE_FOLDER revision then
              raise (ValueError ("syncing a local revision from " ++ DEFAULT_FLOW_MODULE_FOLDER ++ " is not recommended"))
            else
              ret (true, augmented (PyPath.abspath (cwd env) revision))
      | _ =>
          raise (ValueError "dependency url must be in the format of `username/repo_name`(huggingface repo)")
      end
  end.

(* --------------------------------------------------------------------- *)
(** ** Files of the destination root *)
(* --------------------------------------------------------------------- *)

(** [write_or_append_gitignore]. *)
Definition write_or_append_gitignore (sync_dir mode content : string) : M unit :=
  let gitignore_path := PyPath.join sync_dir ".gitignore" in
  let lines :=
    PyStr.nl ++ PyStr.nl ++ PyStr.nl
    ++ "# auto-generated by aiflows, all synced modules will be ignored by default"
    ++ PyStr.nl ++ content ++ PyStr.nl in
  old <- read_file gitignore_path ;;
  match old with
  | Some text =>
      if PyStr.contains content text then ret tt
      else set_file gitignore_path
             (if String.eqb mode "w" then lines else text ++ lines)
  | None => set_file gitignore_path lines
  end.

(** [create_init_py]. *)
Definition create_init_py (base_dir : string) : M unit :=
  let init_py_path := PyPath.join base_dir "__init__.py" in
  there <- os_path_exists init_py_path ;;
  if negb there then set_file init_py_path "" else ret tt.

(** [remove_dir_or_link]. *)
Definition remove_dir_or_link (sync_dir : string) : M unit :=
  link <- os_path_islink sync_dir ;;
  if link then emit (RemoveLink sync_dir) ;; del_dir sync_dir
  else
    dir <- os_path_isdir sync_dir ;;
    if dir then emit (RemoveTree sync_dir) ;; del_dir sync_dir
    else raise (ValueError ("Invalid sync_dir: " ++ sync_dir
                            ++ ", it is not a valid directory nor a valid link")).

(** [is_local_sync_dir_valid]. *)
Definition is_local_sync_dir_valid (sync_dir : string) : M bool :=
  dir <- os_path_isdir sync_dir ;;
  link <- os_path_islink sync_dir ;;
  ret (dir || link).

(** [os.makedirs(path, exist_ok=True)]. *)
Definition os_makedirs (path : string) : M unit :=
  there <- os_path_exists path ;;
  if negb there then set_dir path (Tree (Dir []))
  else
    dir <- os_path_isdir path ;;
    if dir then ret tt else raise (OSError "FileExistsError").

(* --------------------------------------------------------------------- *)
(** ** The requirements hook *)
(* --------------------------------------------------------------------- *)

(** [display_and_confirm_requirements]. *)
Definition display_and_confirm_requirements (flow_name : string)
           (requirements : list string) : M bool :=
  match requirements with
  | [] => ret false
  | _ =>
      yes_no (flow_name ++ " is requesting to install the following pip requirements:"
              ++ PyStr.join_with PyStr.nl (map (fun req => "  - " ++ req) requirements))
  end.

(** [install_requirements]. *)
Definition install_requirements (synced_flow_mod_spec : FlowModuleSpec) : M unit :=
  let repo := repo_id synced_flow_mod_spec in
  let requirements_file :=
    PyPath.join (sync_dir synced_flow_mod_spec) "pip_requirements.txt" in
  fun w =>
    match child (resolve w (sync_dir synced_flow_mod_spec)) "pip_requirements.txt" with
    | None =>
        (Raise (ValueError ("Every flow module must have a pip_requirements.txt file, but "
                            ++ requirements_file ++ " does not exist for " ++ repo)), w)
    | Some (File content) =>
        (unsatisfied <- lift (unsatisfied_requirements env content) ;;
         user_wants_to_install_requirements <-
           display_and_confirm_requirements repo unsatisfied ;;
         if user_wants_to_install_requirements
         then emit (PipInstall requirements_file)
         else ret tt) w
    | Some _ => (Raise (OSError "IsADirectoryError"), w)
    end.

(* --------------------------------------------------------------------- *)
(** ** The fetchers *)
(* --------------------------------------------------------------------- *)

(** [huggingface_hub.snapshot_download(repo_id, cache_dir=cache_root,
    revision=revision)], with [local_dir] when given: the snapshot is put in
    the cache, or copied to [local_dir]; the path of the result is returned. *)
Definition snapshot_download (repo cache_root rev : string) (local_dir : option string)
  : M string :=
  emit (HubSnapshotDownload repo rev cache_root local_dir) ;;
  snapshot <- lift (hub_snapshot env repo rev cache_root) ;;
  let (cache_mod_dir, content) := snapshot : string * node in
  match local_dir with
  | None => set_dir cache_mod_dir (Tree content) ;; ret cache_mod_dir
  | Some dir => set_dir dir (Tree content) ;; ret dir
  end.

(** [extract_commit_hash_from_cache_mod_dir]. *)
Definition extract_commit_hash_from_cache_mod_dir (cache_mod_dir : string) : string :=
  PyPath.basename cache_mod_dir.

(** [fetch_remote]. *)
Definition fetch_remote (repo revision sync_dir cache_root : string)
  : M FlowModuleSpec :=
  let sync_dir := PyPath.abspath (cwd env) sync_dir in
  valid <- is_local_sync_dir_valid sync_dir ;;
  (if valid then remove_dir_or_link sync_dir else ret tt) ;;
  os_makedirs (PyPath.dirname sync_dir) ;;
  create_init_py (PyPath.dirname sync_dir) ;;
  cache_mod_dir <- snapshot_download repo cache_root revision None ;;
  snapshot_download repo cache_root revision (Some sync_dir) ;;
  let commit_hash := extract_commit_hash_from_cache_mod_dir cache_mod_dir in
  ret {| repo_id := repo; revision := revision; commit_hash := commit_hash;
         cache_dir := cache_mod_dir; sync_dir := sync_dir |}.

(** [os.symlink(src, dst)]. *)
Definition os_symlink (src dst : string) : M unit :=
  there <- os_path_exists dst ;;
  if there then raise (OSError "FileExistsError")
  else emit (Symlink src dst) ;; set_dir dst (Link src).

(** [fetch_local]. *)
Definition fetch_local (repo file_path sync_dir : string) : M FlowModuleSpec :=
  let sync_dir := PyPath.abspath (cwd env) sync_dir in
  valid <- is_local_sync_dir_valid sync_dir ;;
  (if valid then remove_dir_or_link sync_dir else ret tt) ;;
  os_makedirs (PyPath.dirname sync_dir) ;;
  os_symlink file_path sync_dir ;;
  ret {| repo_id := repo; revision := file_path; commit_hash := NO_COMMIT_HASH;
         cache_dir := file_path; sync_dir := sync_dir |}.

(** [retrive_commit_hash_from_remote]. *)
Definition retrive_commit_hash_from_remote (repo revision : string) : M string :=
  emit (HubRepoInfo repo revision) ;;
  lift (hub_repo_sha env repo revision).

(** [is_sync_dir_modified] called on two paths: [os.scandir(cache_dir)]
    opens the cache directory. *)
Definition is_sync_dir_modified_at (sync_dir cache_dir : string) : M bool :=
  emit (ScanDir cache_dir) ;;
  fun w =>
    match resolve w cache_dir with
    | None => (Raise (OSError "FileNotFoundError"), w)
    | Some cache => (is_sync_dir_modified (resolve w sync_dir) cache, w)
    end.

(* --------------------------------------------------------------------- *)
(** ** Reconciliation *)
(* --------------------------------------------------------------------- *)

(** [assert a == b]. *)
Definition assert_eq (a b : string) : M unit :=
  if String.eqb a b then ret tt else raise AssertionError.

Definition remote_changed_warning (caller_module_name : string)
           (previous : FlowModuleSpec) (remote_commit_hash tail : string) : string :=
  "[" ++ caller_module_name ++ "] " ++ mod_id previous
  ++ "'s commit hash has changed from " ++ commit_hash previous ++ " to "
  ++ remote_commit_hash ++ tail.

(** [sync_remote_dep]. *)
Definition sync_remote_dep
           (previous_synced_flow_mod_spec : option FlowModuleSpec)
           (repo mod_name revision caller_module_name sync_root cache_root : string)
           (overwrite : bool) : M FlowModuleSpec :=
  let flow_mod_id := build_mod_id repo revision in
  match previous_synced_flow_mod_spec with
  | None =>
      let sync_dir := PyPath.abspath (cwd env) (PyPath.join sync_root mod_name) in
      emit (LogInfo (flow_mod_id ++ " will be fetched from remote")) ;;
      fetch_remote repo revision sync_dir cache_root
  | Some previous =>
      let previous_sync_dir := sync_dir previous in
      let sync_dir := PyPath.abspath (cwd env) (PyPath.join sync_root mod_name) in
      assert_eq sync_dir previous_sync_dir ;;
      remote_commit_hash <- retrive_commit_hash_from_remote repo revision ;;
      let remote_revision_commit_hash_changed :=
        negb (String.eqb remote_commit_hash (commit_hash previous)) in
      sync_dir_modified <- is_sync_dir_modified_at sync_dir (cache_dir previous) ;;
      if overwrite then
        overwrite <- yes_no ("[" ++ caller_module_name ++ "] " ++ flow_mod_id
                             ++ " will be overwritten, are you sure?") ;;
        if negb overwrite then ret previous
        else fetch_remote repo revision sync_dir cache_root
      else if negb (String.eqb (mod_id previous) flow_mod_id) then
        fetch_from_remote <-
          yes_no "{previous_synced_flow_mod_spec.mod_id} already synced, it will be overwritten by new revision {flow_mod_id}, are you sure? " ;;
        if negb fetch_from_remote then ret previous
        else fetch_remote repo revision sync_dir cache_root
      else if negb remote_revision_commit_hash_changed then
        emit (LogInfo (flow_mod_id ++ " already synced, skip")) ;;
        ret previous
      else if negb sync_dir_modified then
        emit (LogWarn (remote_changed_warning caller_module_name previous
                         remote_commit_hash
                         (", as synced module is not modified, the newest commit regarding "
                          ++ mod_id previous ++ " will be fetched"))) ;;
        fetch_remote repo revision sync_dir cache_root
      else
        emit (LogWarn (remote_changed_warning caller_module_name previous
                         remote_commit_hash
                         (", but synced module is already modified, the newest commit regarding "
                          ++ mod_id previous ++ " will NOT be fetched"))) ;;
        ret previous
  end.

(** [sync_local_dep]. *)
Definition sync_local_dep
           (previous_synced_flow_mod_spec : option FlowModuleSpec)
           (repo mod_name revision caller_module_name sync_root : string)
           (overwrite : bool) : M FlowModuleSpec :=
  let flow_mod_id := build_mod_id repo revision in
  let module_synced_from_dir := revision in
  if negb (path_isdir env module_synced_from_dir) then
    raise (ValueError ("local dependency " ++ flow_mod_id ++ "'s revision "
                       ++ module_synced_from_dir ++ " is not a valid local directory"))
  else
    match previous_synced_flow_mod_spec with
    | None =>
        let sync_dir := PyPath.abspath (cwd env) (PyPath.join sync_root mod_name) in
        emit (LogInfo (flow_mod_id ++ " will be fetched from local")) ;;
        fetch_local repo revision sync_dir
    | Some previous =>
        let previous_sync_dir := sync_dir previous in
        let sync_dir := PyPath.abspath (cwd env) (PyPath.join sync_root mod_name) in
        assert_eq sync_dir previous_sync_dir ;;
        if overwrite then
          overwrite <- yes_no ("[" ++ caller_module_name ++ "] " ++ flow_mod_id
                               ++ " will be overwritten, are you sure?") ;;
          if negb overwrite then ret previous
          else fetch_local repo module_synced_from_dir sync_dir
        else if negb (String.eqb (mod_id previous) flow_mod_id) then
          fetch_from_local <-
            yes_no ("[" ++ caller_module_name ++ "] " ++ mod_id previous
                    ++ " already synced, it will be overwritten by " ++ flow_mod_id
                    ++ ", are you sure?") ;;
          if negb fetch_from_local then ret previous
          else fetch_local repo module_synced_from_dir sync_dir
        else
          emit (LogInfo (flow_mod_id ++ " already synced, skip")) ;;
          ret previous
    end.

(* --------------------------------------------------------------------- *)
(** ** The driver *)
(* --------------------------------------------------------------------- *)

(** [create_empty_flow_mod_file], with [overwrite] at its default. *)
Definition create_empty_flow_mod_file (sync_root cache_root : string) : M string :=
  let flow_mod_summary_path := PyPath.join sync_root FLOW_MODULE_SUMMARY_FILE_NAME in
  there <- os_path_exists flow_mod_summary_path ;;
  if there then ret flow_mod_summary_path
  else
    set_file flow_mod_summary_path
      (PyStr.join_with PyStr.nl
         [REVISION_FILE_HEADER; "sync_root: " ++ sync_root; "cache_root: " ++ cache_root]
       ++ PyStr.nl) ;;
    write_or_append_gitignore sync_root "w" "*" ;;
    ret flow_mod_summary_path.

(** [write_flow_mod_summary]. *)
Definition write_flow_mod_summary (flow_mod_summary_path : string)
           (flow_mod_summary : FlowModuleSpecSummary) : M unit :=
  let (r, text) := flow_mod_summary_text env flow_mod_summary in
  set_file flow_mod_summary_path text ;;
  lift r ;;
  ret tt.

(** One turn of the [for dep in dependencies] loop of [_sync_dependencies]. *)
Definition sync_dependency (all_overwrite : bool)
           (sync_root cache_root caller_module_name : string)
           (flow_mod_summary : FlowModuleSpecSummary) (dep : Dependency)
  : M FlowModuleSpecSummary :=
  validated <- validate_and_augment_dependency dep caller_module_name ;;
  let (dep_is_local, dep) := validated : bool * Dependency in
  let dep_overwrite :=
    match dep_overwrite dep with Some b => b | None => false end in
  match dep_url dep, dep_revision dep, dep_mod_name dep with
  | Some url, Some revision, Some mod_name =>
      let previous_synced_flow_mod_spec := get_mod flow_mod_summary url in
      synced_flow_mod_spec <-
        (if dep_is_local then
           sync_local_dep previous_synced_flow_mod_spec url mod_name revision
             caller_module_name sync_root (all_overwrite || dep_overwrite)
         else
           sync_remote_dep previous_synced_flow_mod_spec url mod_name revision
             caller_module_name sync_root cache_root (all_overwrite || dep_overwrite)) ;;
      let flow_mod_summary := add_mod flow_mod_summary synced_flow_mod_spec in
      install_requirements synced_flow_mod_spec ;;
      ret flow_mod_summary
  | _, _, _ => raise (AttributeError "KeyError")
  end.

Fixpoint sync_loop (all_overwrite : bool)
         (sync_root cache_root caller_module_name : string)
         (dependencies : list Dependency) (flow_mod_summary : FlowModuleSpecSummary)
  : M FlowModuleSpecSummary :=
  match dependencies with
  | [] => ret flow_mod_summary
  | dep :: rest =>
      flow_mod_summary <-
        sync_dependency all_overwrite sync_root cache_root caller_module_name
          flow_mod_summary dep ;;
      sync_loop all_overwrite sync_root cache_root caller_module_name rest
        flow_mod_summary
  end.

(** [_sync_dependencies]. The lock and [sys.path] are not part of the
    world: a call runs alone, and nothing here reads [sys.path]. *)
Definition _sync_dependencies (dependencies : list Dependency) (all_overwrite : bool)
           (flow_modules_base_dir cache_root caller_module_name : string)
  : M FlowModuleSpecSummary :=
  let sync_root :=
    PyPath.abspath (cwd env)
      (PyPath.join flow_modules_base_dir DEFAULT_FLOW_MODULE_FOLDER) in
  emit (LogInfo ("[" ++ caller_module_name
                 ++ "] started to sync flow module dependencies to " ++ sync_root ++ "...")) ;;
  there <- os_path_exists sync_root ;;
  dir <- os_path_isdir sync_root ;;
  (if negb there then
     set_dir sync_root (Tree (Dir [])) ;; create_init_py sync_root
   else if negb dir then
     raise (ValueError ("flow module folder " ++ sync_root ++ " is not a directory"))
   else ret tt) ;;
  flow_mod_summary_path <- create_empty_flow_mod_file sync_root cache_root ;;
  content <- read_file flow_mod_summary_path ;;
  loaded <- lift (from_flow_mod_file env content) ;;
  match loaded with
  | None => raise (AttributeError "'NoneType' object has no attribute 'get_mod'")
  | Some flow_mod_summary =>
      flow_mod_summary <-
        sync_loop all_overwrite sync_root cache_root caller_module_name
          dependencies flow_mod_summary ;;
      write_flow_mod_summary flow_mod_summary_path flow_mod_summary ;;
      emit (LogInfo ("[" ++ caller_module_name ++ "] finished syncing")) ;;
      ret flow_mod_summary
  end.

(** [sync_dependencies], for the caller's module name. *)
Definition sync_dependencies (caller_module_name : string)
           (dependencies : list Dependency) (all_overwrite : bool)
           (default_cache_path : string) : M (list string) :=
  flow_mod_summary <-
    _sync_dependencies dependencies all_overwrite "." default_cache_path
      caller_module_name ;;
  ret (map sync_dir (get_mods flow_mod_summary)).

End Loading.

(* ===================================================================== *)
(** * Vocabulary of the statements *)
(* ===================================================================== *)

(** The world after some more events, everything else as it was. *)
Definition add_events (w : World) (evs : list event) : World :=
  {| files := files w; dirs := dirs w; asked := asked w;
     trace := (trace w ++ evs)%list |}.

Definition is_question (e : event) : bool :=
  match e with AskUser _ _ => true | _ => false end.

(** A fetch shows as a download from the hub or as a new symbolic link. *)
Definition is_fetch (e : event) : bool :=
  match e with
  | HubSnapshotDownload _ _ _ _ => true
  | Symlink _ _ => true
  | _ => false
  end.

Definition is_warning (e : event) : bool :=
  match e with LogWarn _ => true | _ => false end.

(** The sync location that [sync_remote_dep] and [sync_local_dep] derive. *)
Definition derived_sync_dir (env : Env) (sync_root mod_name : string) : string :=
  PyPath.abspath (cwd env) (PyPath.join sync_root mod_name).


(** [w'] is [w] after events that all satisfy [P]. *)
Definition only_events (P : event -> bool) (w w' : World) : Prop :=
  exists evs, trace w' = (trace w ++ evs)%list /\ forallb P evs = true.

(** A computation that keeps a relation between the world before and the
    world after, whether it returns or raises. *)
Definition stable (I : World -> World -> Prop) {A} (m : M A) : Prop :=
  forall w, I w (snd (m w)).

(** Nothing was asked. *)
Definition silent (w w' : World) : Prop :=
  asked w' = asked w /\ only_events (fun e => negb (is_question e)) w w'.

(** The remote fingerprint lookup and the scan of the cache directory. *)
Definition is_lookup (e : event) : bool :=
  match e with HubRepoInfo _ _ => true | _ => false end.

Definition is_scan (e : event) : bool :=
  match e with ScanDir _ => true | _ => false end.

Definition any_event (e : event) : bool := true.

(** At most one descriptor per origin id: no two descriptors of the
    manifest share their [repo_id], and a descriptor is found under its own. *)
Definition one_per_origin (s : FlowModuleSpecSummary) : Prop :=
  NoDup (map repo_id (get_mods s))
  /\ forall id m, get_mod s id = Some m -> repo_id m = id.

(** The same, on the dictionary. *)
Definition keyed (d : Dict.t FlowModuleSpec) : Prop :=
  NoDup (Dict.keys d) /\ Forall (fun kv => fst kv = repo_id (snd kv)) d.

(** Every value a computation returns satisfies [Q]. *)
Definition returns {A} (Q : A -> Prop) (m : M A) : Prop :=
  forall w a w', m w = (Ok a, w') -> Q a.

(** The sync root and the manifest path of a call of [_sync_dependencies]. *)
Definition sync_root_of (env : Env) (flow_modules_base_dir : string) : string :=
  PyPath.abspath (cwd env)
    (PyPath.join flow_modules_base_dir DEFAULT_FLOW_MODULE_FOLDER).

Definition manifest_path (env : Env) (flow_modules_base_dir : string) : string :=
  PyPath.join (sync_root_of env flow_modules_base_dir) FLOW_MODULE_SUMMARY_FILE_NAME.

(** [_sync_dependencies] up to its loop: the destination root is ensured,
    the manifest file is created when absent, and it is loaded. *)
Definition open_manifest (env : Env) (flow_modules_base_dir cache_root
                                      caller_module_name : string)
  : M (string * FlowModuleSpecSummary) :=
  (let sync_root := sync_root_of env flow_modules_base_dir in
   emit (LogInfo ("[" ++ caller_module_name
                  ++ "] started to sync flow module dependencies to " ++ sync_root ++ "...")) ;;
   there <- os_path_exists sync_root ;;
   dir <- os_path_isdir sync_root ;;
   (if negb there then
      set_dir sync_root (Tree (Dir [])) ;; create_init_py sync_root
    else if negb dir then
      raise (ValueError ("flow module folder " ++ sync_root ++ " is not a directory"))
    else ret tt) ;;
   flow_mod_summary_path <- create_empty_flow_mod_file sync_root cache_root ;;
   content <- read_file flow_mod_summary_path ;;
   loaded <- lift (from_flow_mod_file env content) ;;
   match loaded with
   | None => raise (AttributeError "'NoneType' object has no attribute 'get_mod'")
   | Some flow_mod_summary => ret (flow_mod_summary_path, flow_mod_summary)
   end)%M.

(** [_sync_dependencies] from its loop on. *)
Definition sync_and_write (env : Env) (dependencies : list Dependency)
           (all_overwrite : bool) (sync_root cache_root caller_module_name : string)
           (opened : string * FlowModuleSpecSummary) : M FlowModuleSpecSummary :=
  (let (flow_mod_summary_path, flow_mod_summary) := opened in
   flow_mod_summary <-
     sync_loop env all_overwrite sync_root cache_root caller_module_name
       dependencies flow_mod_summary ;;
   write_flow_mod_summary env flow_mod_summary_path flow_mod_summary ;;
   emit (LogInfo ("[" ++ caller_module_name ++ "] finished syncing")) ;;
   ret flow_mod_summary)%M.



Fixpoint last_char (s : string) : option ascii :=
  match s with
  | EmptyString => None
  | String c EmptyString => Some c
  | String _ s' => last_char s'
  end.

(** Two computations that do the same in every world. *)
Definition meq {A} (m1 m2 : M A) : Prop := forall w, m1 w = m2 w.



(* ===================================================================== *)
(** * What the patterns mean *)
(* ===================================================================== *)

(** [matches items s groups]: [s] is, item by item, a literal or a non-empty
    run of the item's class, up to the end ([$]); [groups] are the runs of
    the capturing items. *)
Inductive matches : list Re.item -> string -> list string -> Prop :=
| matches_end s :
    Re.at_end s = true -> matches [] s []
| matches_lit l rest s groups :
    matches rest s groups -> matches (Re.Lit l :: rest) (l ++ s) groups
| matches_plus cls rest p s groups :
    p <> "" -> PyStr.forallb_str cls p = true -> matches rest s groups ->
    matches (Re.Plus cls :: rest) (p ++ s) groups
| matches_group cls rest p s groups :
    p <> "" -> PyStr.forallb_str cls p = true -> matches rest s groups ->
    matches (Re.Group cls :: rest) (p ++ s) (p :: groups).








(* ===================================================================== *)
(** * Manifests that the codec writes and reads back *)
(* ===================================================================== *)

Fixpoint count_char (c : ascii) (s : string) : nat :=
  match s with
  | EmptyString => 0
  | String a s' => (if Ascii.eqb a c then 1 else 0) + count_char c s'
  end.











(** The module line of a descriptor, for the relative path [rel]. *)
Definition mod_line (m : FlowModuleSpec) (rel : string) : string :=
  repo_id m ++ " " ++ revision m ++ " " ++ commit_hash m ++ " -> _/" ++ rel.


(* ===================================================================== *)
(** * Dependencies that are in sync *)
(* ===================================================================== *)



(** An entry of the cache directory that the scan looks at and finds
    changed in the working copy. *)
Definition differs (sync : option node) (entry : string * node) : bool :=
  negb (skipped (fst entry))
  && match snd entry, child sync (fst entry) with
     | File a, Some (File b) => negb (String.eqb a b)
     | _, _ => true
     end.

(** A cache directory without visible subdirectories, whose visible files
    all exist in the working copy. *)
Definition flat_and_present (sync : option node) (entries : list (string * node)) : Prop :=
  Forall (fun entry =>
            skipped (fst entry) = false ->
            (exists a, snd entry = File a) /\ child sync (fst entry) <> None)
         entries.

(* ===================================================================== *)
(** * A scenario *)
(* ===================================================================== *)

(** Concrete surroundings for the examples: a project in [/home/me], a hub
    that serves every repository at commit [abc123] with a requirements
    file, a local module directory, a user who says yes. *)
Module Scenario.

Definition snapshot_tree : node :=
  Dir [("pip_requirements.txt", File ""); ("flow.py", File "x = 1")].

Definition hf_path (repo commit cache_root : string) : string :=
  cache_root ++ "/models--" ++ repo ++ "/snapshots/" ++ commit.

Definition hub (sha : string) : Env :=
  {| cwd := "/home/me";
     path_exists := fun p => String.eqb p "/home/me/src/widgets";
     path_isdir := fun p => String.eqb p "/home/me/src/widgets";
     build_hf_cache_path := hf_path;
     yes_no_question := fun _ => true;
     hub_repo_sha := fun _ _ => Ok sha;
     hub_snapshot := fun repo _ cache_root => Ok (hf_path repo sha cache_root, snapshot_tree);
     unsatisfied_requirements := fun _ => Ok [] |}.

Definition env : Env := hub "abc123".

Definition empty_world : World :=
  {| files := []; dirs := []; asked := 0; trace := [] |}.

(** A world in which the local module directory is known. *)
Definition local_world : World :=
  {| files := []; dirs := [("/home/me/src/widgets", Tree snapshot_tree)];
     asked := 0; trace := [] |}.

Definition dep (url : string) : Dependency :=
  {| dep_url := Some url; dep_revision := None; dep_overwrite := None;
     dep_mod_name := None |}.

Definition dep_at (url revision : string) : Dependency :=
  {| dep_url := Some url; dep_revision := Some revision; dep_overwrite := None;
     dep_mod_name := None |}.


Definition cache_root : string := "/home/me/.cache".
Definition sync_root : string := "/home/me/flow_modules".

(** The descriptor of [acme/widgets] as a first fetch leaves it. *)
Definition widgets : FlowModuleSpec :=
  {| repo_id := "acme/widgets"; revision := "main"; commit_hash := "abc123";
     cache_dir := hf_path "acme/widgets" "abc123" cache_root;
     sync_dir := "/home/me/flow_modules/acme/widgets" |}.

(** The descriptor of a local module as [fetch_local] returns it. *)
Definition local_widgets : FlowModuleSpec :=
  {| repo_id := "acme/local"; revision := "/home/me/src/widgets";
     commit_hash := NO_COMMIT_HASH; cache_dir := "/home/me/src/widgets";
     sync_dir := "/home/me/flow_modules/acme/local" |}.

(** The world after [acme/widgets] was synchronised once. *)
Definition synced_world : World :=
  snd (_sync_dependencies env [dep "acme/widgets"] false "." cache_root "__main__"
         empty_world).

(** The same world after the user edited [flow.py] in the working copy. *)
Definition edited_world : World :=
  {| files := files synced_world;
     dirs := Dict.set (dirs synced_world) "/home/me/flow_modules/acme/widgets"
               (Tree (Dir [("pip_requirements.txt", File ""); ("flow.py", File "x = 2")]));
     asked := asked synced_world; trace := [] |}.

(** The hub after upstream moved to another commit. *)
Definition advanced : Env := hub "def456".

(** The synchronised and the edited world, with the log cleared. *)
Definition clean_world : World :=
  {| files := files synced_world; dirs := dirs synced_world;
     asked := 0; trace := [] |}.

(** A call in which the second dependency is not a repository id. *)
Definition bad_dep : Dependency := dep "not a repository id".

Definition opened_world : World :=
  snd (open_manifest env "." cache_root "__main__" empty_world).

Definition half_synced_world : World :=
  snd (sync_loop env false sync_root cache_root "__main__" [dep "acme/widgets"]
         (new_summary sync_root cache_root []) opened_world).

Definition url_format_error : exn :=
  ValueError "dependency url must be in the format of `username/repo_name`(huggingface repo)".

(** The manifest of an empty project. *)
Definition empty_manifest_text : string :=
  REVISION_FILE_HEADER ++ PyStr.nl ++ "sync_root: /home/me/flow_modules" ++ PyStr.nl
  ++ "cache_root: /home/me/.cache" ++ PyStr.nl.


(** A manifest whose [cache_root] line is missing. *)
Definition manifest_without_cache_root : string :=
  REVISION_FILE_HEADER ++ PyStr.nl ++ "sync_root: /home/me/flow_modules" ++ PyStr.nl
  ++ "acme/widgets main abc123 -> _/acme/widgets" ++ PyStr.nl.

(** A manifest with a remote and a local descriptor, each as its fetcher
    returns it. *)
Definition manifest : FlowModuleSpecSummary :=
  new_summary sync_root cache_root [widgets; local_widgets].



Definition manifest_text : string :=
  snd (flow_mod_summary_text env manifest).


(** A snapshot with a file in a subdirectory, synchronised at commit
    [abc123]: the working copy as fetched, and with one byte of [sub/f.py]
    altered. *)
Definition nested_tree : node :=
  Dir [("pip_requirements.txt", File ""); ("sub", Dir [("f.py", File "a")])].

Definition nested_edited_tree : node :=
  Dir [("pip_requirements.txt", File ""); ("sub", Dir [("f.py", File "b")])].

Definition nested_world : World :=
  {| files := [];
     dirs := [(sync_dir widgets, Tree nested_tree);
              (cache_dir widgets, Tree nested_tree)];
     asked := 0; trace := [] |}.

Definition nested_edited_world : World :=
  {| files := [];
     dirs := [(sync_dir widgets, Tree nested_edited_tree);
              (cache_dir widgets, Tree nested_tree)];
     asked := 0; trace := [] |}.

End Scenario.

Unset Implicit Arguments.

(* ===================================================================== *)
(** * More of the module *)
(* ===================================================================== *)

(** ** Names of Python modules *)

(** [cls*] before the rest [k] of a pattern: the longest run first, then the
    shorter ones, then none. *)
Definition star {R : Type} (cls : ascii -> bool) (k : string -> option R)
           (s : string) : option R :=
  match Re.greedy cls (fun _ s' => k s') "" s with
  | Some r => Some r
  | None => k s
  end.

(** [[a-zA-Z_]] and [[a-zA-Z0-9_]]. *)
Definition is_name_start (c : ascii) : bool :=
  PyStr.in_range 97 122 c || PyStr.in_range 65 90 c || (PyStr.code c =? 95)%nat.

Definition is_name_char (c : ascii) : bool :=
  PyStr.in_range 97 122 c || PyStr.in_range 65 90 c || PyStr.in_range 48 57 c
  || (PyStr.code c =? 95)%nat.

(** [_is_valid_python_module_name]:
    [re.match(r"^[a-zA-Z_][a-zA-Z0-9_]*$", name) is not None]. *)
Definition _is_valid_python_module_name (name : string) : bool :=
  match name with
  | EmptyString => false
  | String c rest =>
      is_name_start c
      && match star is_name_char (fun s => if Re.at_end s then Some tt else None) rest with
         | Some _ => true
         | None => false
         end
  end.

(** ** The module search path *)

(** [add_to_sys_path], as a function of [sys.path]: the list afterwards. *)
Definition add_to_sys_path (env : Env) (path : string) (sys_path : list string)
  : list string :=
  let absolute_path := PyPath.abspath (cwd env) path in
  if negb (existsb (String.eqb absolute_path) sys_path)
  then (sys_path ++ [absolute_path])%list
  else sys_path.

(** The two calls with which [_sync_dependencies] begins. *)
Definition sync_sys_path (env : Env) (flow_modules_base_dir : string)
           (sys_path : list string) : list string :=
  add_to_sys_path env (PyPath.join flow_modules_base_dir DEFAULT_FLOW_MODULE_FOLDER)
    (add_to_sys_path env flow_modules_base_dir sys_path).

(** ** The requirements of a module *)

Section Requirements.

(** [pkg_resources]: [Requirement.parse(req)], which raises on a malformed
    requirement, and whether an installed distribution of the project it
    names is in it. *)
Variable requirement_satisfied : string -> result bool.

(** The [for line in requirements] loop of
    [get_unsatisfied_pip_requirements]. *)
Fixpoint unsatisfied_loop (requirements : list string)
         (unsatisfied_requirements : list string) : result (list string) :=
  match requirements with
  | [] => Ok unsatisfied_requirements
  | line :: rest =>
      let req := PyStr.strip (hd "" (PyStr.split_on "#" line)) in
      if String.eqb req "" then unsatisfied_loop rest unsatisfied_requirements
      else
        match requirement_satisfied req with
        | Raise e => Raise e
        | Ok satisfied =>
            if negb satisfied
            then unsatisfied_loop rest (unsatisfied_requirements ++ [req])%list
            else unsatisfied_loop rest unsatisfied_requirements
        end
  end.

(** [get_unsatisfied_pip_requirements], on the text of the requirements
    file as [open(requirements_file, 'r')] delivers it. *)
Definition get_unsatisfied_pip_requirements (content : string) : result (list string) :=
  let requirements := map PyStr.strip (PyStr.readlines content) in
  unsatisfied_loop requirements [].

End Requirements.

(* ===================================================================== *)
(** * More vocabulary *)
(* ===================================================================== *)

(** A Python identifier in ASCII: a letter or an underscore, then letters,
    digits and underscores. *)
Definition identifier (s : string) : bool :=
  match s with
  | EmptyString => false
  | String c rest => is_name_start c && PyStr.forallb_str is_name_char rest
  end.

(** A line of a requirements file that names no requirement: blank, or a
    comment. *)
Definition no_requirement (line : string) : bool :=
  String.eqb (PyStr.strip (hd "" (PyStr.split_on "#" (PyStr.strip line)))) "".

(** A requirement as [get_unsatisfied_pip_requirements] reports it: not
    empty, without a comment sign, and found unsatisfied. *)
Definition reported (requirement_satisfied : string -> result bool) (req : string)
  : Prop :=
  req <> "" /\ count_char "#" req = 0 /\ requirement_satisfied req = Ok false.

(** ** The modification detector *)

(** The cache tree without what the scan skips, at every depth. *)
Fixpoint prune (cache : node) : node :=
  match cache with
  | Dir entries =>
      Dir ((fix visible (entries : list (string * node)) : list (string * node) :=
              match entries with
              | [] => []
              | (name, entry) :: rest =>
                  if skipped name then visible rest
                  else (name, prune entry) :: visible rest
              end) entries)
  | _ => cache
  end.

Definition entries_of (n : node) : list (string * node) :=
  match n with
  | Dir entries => entries
  | _ => []
  end.


(** ** The validator *)

(** A namespace or a name of a repository id: a non-empty run of word
    characters. *)
Definition word_name (s : string) : Prop :=
  s <> "" /\ PyStr.forallb_str PyStr.is_word s = true.

(** The revision that a dependency asks for. *)
Definition requested_revision (dep : Dependency) : string :=
  match dep_revision dep with
  | Some revision => revision
  | None => DEFAULT_REMOTE_REVISION
  end.

(** The destination name that the validator gives a repository id. *)
Definition destination_name (username repo_name : string) : string :=
  (if number_prefixed username then "user_" ++ username else username)
  ++ "/" ++ repo_name.

(** ** Effects *)

(** Every successful run of [m] relates its result and the world it leaves
    as [Q] says. *)
Definition ensures {A} (Q : A -> World -> Prop) (m : M A) : Prop :=
  forall w a w', m w = (Ok a, w') -> Q a w'.

(** [p] is [dir] or a path beneath it. *)
Definition within (dir p : string) : bool :=
  String.eqb p dir || PyStr.startswith p (dir ++ "/").

(** What a run may do that works on the destination [destination] only: a
    directory or a link that stood at a path outside the destination (the
    parent of the destination aside) still stands there as it was, and the
    events all satisfy [P]. *)
Definition only_destination (destination : string) (P : event -> bool)
           (w w' : World) : Prop :=
  (forall p entry,
      within destination p = false -> p <> PyPath.dirname destination ->
      Dict.get (dirs w) p = Some entry -> Dict.get (dirs w') p = Some entry)
  /\ only_events P w w'.

(** The events of placing a link to [src] at [destination]. *)
Definition links (src destination : string) (e : event) : bool :=
  match e with
  | RemoveLink p => String.eqb p destination
  | RemoveTree p => String.eqb p destination
  | Symlink s d => String.eqb s src && String.eqb d destination
  | _ => false
  end.

(** What synchronising a local dependency may log and do. *)
Definition is_local_event (e : event) : bool :=
  match e with
  | LogInfo _ => true
  | AskUser _ _ => true
  | RemoveLink _ => true
  | RemoveTree _ => true
  | Symlink _ _ => true
  | _ => false
  end.

(** The scenario with a hub that cannot deliver snapshots. *)
Module Outage.

Definition env : Env :=
  {| cwd := cwd Scenario.env;
     path_exists := path_exists Scenario.env;
     path_isdir := path_isdir Scenario.env;
     build_hf_cache_path := build_hf_cache_path Scenario.env;
     yes_no_question := yes_no_question Scenario.env;
     hub_repo_sha := hub_repo_sha Scenario.env;
     hub_snapshot := fun _ _ _ => Raise (HubError "connection refused");
     unsatisfied_requirements := unsatisfied_requirements Scenario.env |}.

End Outage.

(** The world after a question was asked and answered. *)
Definition after_question (w : World) (before : list event) (question : string)
           (answer : bool) : World :=
  {| files := files w; dirs := dirs w; asked := S (asked w);
     trace := (trace w ++ before ++ [AskUser question answer])%list |}.

(** The scenario with a user who says no. *)
Module Cautious.

Definition env : Env :=
  {| cwd := cwd Scenario.env;
     path_exists := path_exists Scenario.env;
     path_isdir := path_isdir Scenario.env;
     build_hf_cache_path := build_hf_cache_path Scenario.env;
     yes_no_question := fun _ => false;
     hub_repo_sha := hub_repo_sha Scenario.env;
     hub_snapshot := hub_snapshot Scenario.env;
     unsatisfied_requirements := unsatisfied_requirements Scenario.env |}.

End Cautious.

(** The scenario with a requirement that is not installed. *)
Module Needy.

Definition env : Env :=
  {| cwd := cwd Scenario.env;
     path_exists := path_exists Scenario.env;
     path_isdir := path_isdir Scenario.env;
     build_hf_cache_path := build_hf_cache_path Scenario.env;
     yes_no_question := yes_no_question Scenario.env;
     hub_repo_sha := hub_repo_sha Scenario.env;
     hub_snapshot := hub_snapshot Scenario.env;
     unsatisfied_requirements := fun _ => Ok ["torch>=2.0"] |}.

End Needy.

(** The synchronised world of the scenario after [flow.py] was deleted from
    the working copy. *)
Definition pruned_world : World :=
  {| files := files Scenario.synced_world;
     dirs := Dict.set (dirs Scenario.synced_world) "/home/me/flow_modules/acme/widgets"
               (Tree (Dir [("pip_requirements.txt", File "")]));
     asked := 0; trace := [] |}.

(** The text of a manifest file without modules. *)
Definition empty_manifest (sync_root cache_root : string) : string :=
  PyStr.join_with PyStr.nl
    [REVISION_FILE_HEADER; "sync_root: " ++ sync_root; "cache_root: " ++ cache_root]
  ++ PyStr.nl.
Unset Implicit Arguments.

(* ===================================================================== *)
(** * The modification detector *)
(* ===================================================================== *)

(** On a directory whose only visible entry is a subdirectory, the verdict
    is the opposite of the verdict on the subdirectory: the recursive call
    returns "modified" and the caller reads it as "same". *)
Lemma is_sync_dir_modified_subdir (name : string) (sync : option node)
      (entries : list (string * node)) :
  skipped name = false ->
  is_sync_dir_modified sync (Dir [(name, Dir entries)]) =
  match is_sync_dir_modified (child sync name) (Dir entries) with
  | Ok modified => Ok (negb modified)
  | Raise e => Raise e
  end.
Proof.
  intros Hskip.
  change (is_sync_dir_modified sync (Dir [(name, Dir entries)]))
    with (if skipped name then Ok false
          else match is_sync_dir_modified (child sync name) (Dir entries) with
               | Ok dir_same => if negb dir_same then Ok true else Ok false
               | Raise e => Raise e
               end).
  rewrite Hskip.
  destruct (is_sync_dir_modified (child sync name) (Dir entries)) as [[|]|e];
    reflexivity.
Qed.

(** On a cache directory without visible subdirectories the verdict is
    right: "modified" exactly when a visible file of the cache differs from
    the file of that name in the working copy. Entries that only the working
    copy has play no part. *)
Lemma is_sync_dir_modified_flat (sync : option node) (entries : list (string * node)) :
  flat_and_present sync entries ->
  is_sync_dir_modified sync (Dir entries) = Ok (existsb (differs sync) entries).
Proof.
  induction 1 as [|[name entry] entries Hhd _ IH]; [reflexivity|].
  change (is_sync_dir_modified sync (Dir ((name, entry) :: entries)))
    with (if skipped name then is_sync_dir_modified sync (Dir entries)
          else match entry with
               | File _ =>
                   match filecmp_cmp (Some entry) (child sync name) with
                   | Ok same =>
                       if negb same then Ok true
                       else is_sync_dir_modified sync (Dir entries)
                   | Raise e => Raise e
                   end
               | Dir _ =>
                   match is_sync_dir_modified (child sync name) entry with
                   | Ok dir_same =>
                       if negb dir_same then Ok true
                       else is_sync_dir_modified sync (Dir entries)
                   | Raise e => Raise e
                   end
               | Special => Raise (ValueError "it is not file or dir or valid symlink")
               end).
  cbn [existsb]. unfold differs at 1. cbn [fst snd] in *. rewrite IH.
  destruct (skipped name) eqn:Hskip; [reflexivity|].
  destruct (Hhd eq_refl) as [[a Ha] Hchild]. subst entry.
  destruct (child sync name) as [[b| |]|]; [| | |contradiction]; cbn;
    try reflexivity.
  now destruct (String.eqb a b).
Qed.

(** C1 (the code departs from the claim). Below the top level the verdict is
    inverted: on a cache directory whose only visible entry is a
    subdirectory, the answer is the opposite of the answer for the
    subdirectory. So for a pristine snapshot with one file in a
    subdirectory, the working copy with one byte of that file altered is
    reported unmodified, and the untouched working copy is reported
    modified. At the top level the detector answers as claimed: an altered
    file is seen, the restored one is not, and a file that only the working
    copy has is ignored. *)
Theorem is_sync_dir_modified_inverts_below_top :
  (forall name sync entries,
      skipped name = false ->
      is_sync_dir_modified sync (Dir [(name, Dir entries)]) =
      match is_sync_dir_modified (child sync name) (Dir entries) with
      | Ok modified => Ok (negb modified)
      | Raise e => Raise e
      end)
  /\ (let pristine := Dir [("sub", Dir [("f.py", File "a")])] in
      let altered := Dir [("sub", Dir [("f.py", File "b")])] in
      is_sync_dir_modified (Some altered) pristine = Ok false
      /\ is_sync_dir_modified (Some pristine) pristine = Ok true)
  /\ (forall sync entries,
         flat_and_present sync entries ->
         is_sync_dir_modified sync (Dir entries) = Ok (existsb (differs sync) entries))
  /\ is_sync_dir_modified (Some (Dir [("f.py", File "b")])) (Dir [("f.py", File "a")])
     = Ok true
  /\ is_sync_dir_modified (Some (Dir [("f.py", File "a")])) (Dir [("f.py", File "a")])
     = Ok false
  /\ is_sync_dir_modified (Some (Dir [("f.py", File "a"); ("new.py", File "n")]))
       (Dir [("f.py", File "a")]) = Ok false.
Proof.
  split; [exact is_sync_dir_modified_subdir|].
  split; [split; reflexivity|].
  split; [exact is_sync_dir_modified_flat|].
  repeat split; reflexivity.
Qed.

Lemma is_sync_dir_modified_inverts_below_top_witness :
  is_sync_dir_modified (Some (Dir [("sub", Dir [("f.py", File "b")])]))
    (Dir [("sub", Dir [("f.py", File "a")])])
  = match is_sync_dir_modified (Some (Dir [("f.py", File "b")]))
            (Dir [("f.py", File "a")]) with
    | Ok modified => Ok (negb modified)
    | Raise e => Raise e
    end.
Proof.
  destruct is_sync_dir_modified_inverts_below_top as [Hinv _].
  apply (Hinv "sub" (Some (Dir [("sub", Dir [("f.py", File "b")])]))
           [("f.py", File "a")]).
  reflexivity.
Defined.


(* ===================================================================== *)
(** * Reasoning in the monad *)
(* ===================================================================== *)

Section Stable.
Variable I : World -> World -> Prop.
Hypothesis I_refl : forall w, I w w.
Hypothesis I_trans : forall a b c, I a b -> I b c -> I a c.

Lemma stable_ret A (a : A) : stable I (ret a).
Proof. intro w. apply I_refl. Qed.

Lemma stable_raise A (e : exn) : stable I (@raise A e).
Proof. intro w. apply I_refl. Qed.

Lemma stable_lift A (r : result A) : stable I (lift r).
Proof. intro w. apply I_refl. Qed.

Lemma stable_bind A B (m : M A) (f : A -> M B) :
  stable I m -> (forall a, stable I (f a)) -> stable I (bind m f).
Proof.
  intros Hm Hf w. unfold bind. specialize (Hm w).
  destruct (m w) as [[a|e] w1]; cbn in *.
  - eapply I_trans; [exact Hm | apply Hf].
  - exact Hm.
Qed.

Lemma stable_if A (b : bool) (m1 m2 : M A) :
  stable I m1 -> stable I m2 -> stable I (if b then m1 else m2).
Proof. destruct b; auto. Qed.

Lemma stable_reader A (f : World -> result A) : stable I (fun w => (f w, w)).
Proof. intro w. apply I_refl. Qed.

End Stable.

Lemma bind_ok A B (m : M A) (f : A -> M B) w a w1 :
  m w = (Ok a, w1) -> bind m f w = f a w1.
Proof. intros H. unfold bind. now rewrite H. Qed.

Lemma bind_raise A B (m : M A) (f : A -> M B) w e w1 :
  m w = (Raise e, w1) -> bind m f w = (Raise e, w1).
Proof. intros H. unfold bind. now rewrite H. Qed.

Lemma add_events_app w a b :
  add_events (add_events w a) b = add_events w (a ++ b)%list.
Proof. unfold add_events. cbn. now rewrite app_assoc. Qed.

Lemma emit_run e w : emit e w = (Ok tt, add_events w [e]).
Proof. reflexivity. Qed.

Lemma retrive_commit_hash_from_remote_run env repo rev w :
  retrive_commit_hash_from_remote env repo rev w
  = (hub_repo_sha env repo rev, add_events w [HubRepoInfo repo rev]).
Proof. reflexivity. Qed.

Lemma resolve_add_events w evs p : resolve (add_events w evs) p = resolve w p.
Proof. reflexivity. Qed.

Lemma is_sync_dir_modified_at_run sync_dir cache_dir w :
  is_sync_dir_modified_at sync_dir cache_dir w
  = (match resolve w cache_dir with
     | None => Raise (OSError "FileNotFoundError")
     | Some cache => is_sync_dir_modified (resolve w sync_dir) cache
     end, add_events w [ScanDir cache_dir]).
Proof.
  unfold is_sync_dir_modified_at. rewrite (@bind_ok _ _ _ _ _ _ _ (emit_run _ w)).
  rewrite !resolve_add_events. now destruct (resolve w cache_dir).
Qed.

Lemma only_events_refl P w : only_events P w w.
Proof. exists []. split; [now rewrite app_nil_r | reflexivity]. Qed.

Lemma only_events_trans P a b c :
  only_events P a b -> only_events P b c -> only_events P a c.
Proof.
  intros [e1 [H1 F1]] [e2 [H2 F2]]. exists (e1 ++ e2)%list. split.
  - rewrite H2, H1, app_assoc. reflexivity.
  - rewrite forallb_app, F1, F2. reflexivity.
Qed.

Lemma silent_refl w : silent w w.
Proof. split; [reflexivity | apply only_events_refl]. Qed.

Lemma silent_trans a b c : silent a b -> silent b c -> silent a c.
Proof.
  intros [A1 E1] [A2 E2]. split; [congruence | eapply only_events_trans; eauto].
Qed.

Lemma silent_emit e : is_question e = false -> stable silent (emit e).
Proof.
  intros He w. split; [reflexivity|]. exists [e]. cbn. now rewrite He.
Qed.

Lemma silent_set_file p c : stable silent (set_file p c).
Proof. intro w. split; [reflexivity|]. exists [WriteFile p]. now cbn. Qed.

Lemma silent_set_dir p d : stable silent (set_dir p d).
Proof. intro w. split; [reflexivity|]. exists []. cbn. now rewrite app_nil_r. Qed.

Lemma silent_del_dir p : stable silent (del_dir p).
Proof. intro w. split; [reflexivity|]. exists []. cbn. now rewrite app_nil_r. Qed.

Ltac stable_step refl trans :=
  first
    [ apply (@stable_bind _ trans); [| intro]
    | apply (@stable_ret _ refl)
    | apply (@stable_raise _ refl)
    | apply (@stable_lift _ refl)
    | apply (@stable_reader _ refl)
    | apply stable_if
    | match goal with
      | |- stable _ (match ?x with _ => _ end) => destruct x
      end ].

Ltac silent_tac :=
  repeat first
    [ apply silent_set_file | apply silent_set_dir | apply silent_del_dir
    | apply silent_emit; reflexivity
    | stable_step silent_refl silent_trans ].

Lemma silent_fetch_remote env repo revision sync_dir cache_root :
  stable silent (fetch_remote env repo revision sync_dir cache_root).
Proof.
  unfold fetch_remote, is_local_sync_dir_valid, remove_dir_or_link, os_makedirs,
    create_init_py, snapshot_download, os_path_isdir, os_path_islink, os_path_exists.
  silent_tac.
Qed.

(* ===================================================================== *)
(** * Reconciliation of one dependency *)
(* ===================================================================== *)

Lemma assert_eq_differs a b w : a <> b -> assert_eq a b w = (Raise AssertionError, w).
Proof.
  intros H. unfold assert_eq. destruct (String.eqb_spec a b); [contradiction | reflexivity].
Qed.

Lemma assert_eq_same a w : assert_eq a a w = (Ok tt, w).
Proof. unfold assert_eq. now rewrite String.eqb_refl. Qed.

(** C10. With a previous descriptor whose sync location is not the one
    derived from the sync root and the requested destination name, both
    [sync_remote_dep] and [sync_local_dep] (for a revision that is a
    directory) raise [AssertionError], before anything is looked up, asked,
    logged or fetched: the world is left as it was. *)
Theorem changed_destination_fails_assertion
        (env : Env) (previous : FlowModuleSpec)
        (repo mod_name rev caller sync_root cache_root : string)
        (overwrite : bool) (w : World) :
  derived_sync_dir env sync_root mod_name <> sync_dir previous ->
  sync_remote_dep env (Some previous) repo mod_name rev caller sync_root cache_root
    overwrite w = (Raise AssertionError, w)
  /\ (path_isdir env rev = true ->
      sync_local_dep env (Some previous) repo mod_name rev caller sync_root
        overwrite w = (Raise AssertionError, w)).
Proof.
  intros Hne. unfold derived_sync_dir in Hne. split.
  - unfold sync_remote_dep, bind. now rewrite (assert_eq_differs _ _ w Hne).
  - intros Hdir. unfold sync_local_dep, bind. rewrite Hdir. cbn [negb].
    now rewrite (assert_eq_differs _ _ w Hne).
Qed.

Lemma changed_destination_fails_assertion_witness :
  sync_remote_dep Scenario.env (Some Scenario.widgets) "acme/widgets" "acme/gadgets"
    "main" "__main__" Scenario.sync_root Scenario.cache_root false Scenario.synced_world
  = (Raise AssertionError, Scenario.synced_world)
  /\ sync_local_dep Scenario.env (Some Scenario.local_widgets) "acme/local" "acme/moved"
       "/home/me/src/widgets" "__main__" Scenario.sync_root false Scenario.local_world
     = (Raise AssertionError, Scenario.local_world).
Proof.
  split.
  - apply (changed_destination_fails_assertion Scenario.env Scenario.widgets
             "acme/widgets" "acme/gadgets" "main" "__main__" Scenario.sync_root
             Scenario.cache_root false Scenario.synced_world).
    vm_compute. discriminate.
  - apply (changed_destination_fails_assertion Scenario.env Scenario.local_widgets
             "acme/local" "acme/moved" "/home/me/src/widgets" "__main__"
             Scenario.sync_root Scenario.cache_root false Scenario.local_world).
    + vm_compute. discriminate.
    + reflexivity.
Defined.

(** A remote dependency with a previous descriptor at the derived sync
    location, no overwrite, the same module id, and a remote commit hash
    that differs from the recorded one. When the scan of the working copy
    against the cache answers "not modified", [sync_remote_dep] logs a
    warning and is [fetch_remote]; when it answers "modified", it logs a
    warning and returns the previous descriptor, with no change to files and
    directories and no fetch. In both cases nothing is asked. *)
Lemma upstream_advanced_reconciliation
        (env : Env) (previous : FlowModuleSpec)
        (repo mod_name rev caller sync_root cache_root : string)
        (w : World) (remote_commit_hash : string) (cache : node) (modified : bool) :
  let sync_dir' := derived_sync_dir env sync_root mod_name in
  let run :=
    sync_remote_dep env (Some previous) repo mod_name rev caller sync_root
      cache_root false w in
  sync_dir' = sync_dir previous ->
  mod_id previous = build_mod_id repo rev ->
  hub_repo_sha env repo rev = Ok remote_commit_hash ->
  remote_commit_hash <> commit_hash previous ->
  resolve w (cache_dir previous) = Some cache ->
  is_sync_dir_modified (resolve w sync_dir') cache = Ok modified ->
  exists warning,
    let w' := add_events w [HubRepoInfo repo rev; ScanDir (cache_dir previous);
                            LogWarn warning] in
    run = (if modified then (Ok previous, w')
           else fetch_remote env repo rev sync_dir' cache_root w')
    /\ silent w (snd run).
Proof.
  intros sd run Hsd Hid Hsha Hne Hcache Hmod.
  assert (Hrun : exists warning,
             run = (if modified
                    then (Ok previous,
                          add_events w [HubRepoInfo repo rev; ScanDir (cache_dir previous);
                                        LogWarn warning])
                    else fetch_remote env repo rev sd cache_root
                           (add_events w [HubRepoInfo repo rev;
                                          ScanDir (cache_dir previous);
                                          LogWarn warning]))).
  { subst run. unfold sync_remote_dep, bind.
    fold (derived_sync_dir env sync_root mod_name). fold sd.
    rewrite Hsd, assert_eq_same.
    unfold retrive_commit_hash_from_remote, is_sync_dir_modified_at, bind, emit, lift.
    cbn [fst snd]. rewrite Hsha. cbn [trace files dirs asked].
    unfold resolve in *. cbn [dirs files]. rewrite Hcache.
    rewrite <- Hsd. fold sd. unfold resolve in Hmod. fold sd in Hmod. rewrite Hmod.
    rewrite Hid, String.eqb_refl. cbn [negb].
    destruct (String.eqb_spec remote_commit_hash (commit_hash previous)) as [E|_];
      [contradiction|]. cbn [negb].
    destruct modified; cbn [negb]; eexists; unfold add_events;
      cbn [files dirs asked trace]; rewrite <- !app_assoc; cbn [app]; reflexivity. }
  destruct Hrun as [warning Hrun]. exists warning. cbn zeta. split; [exact Hrun|].
  rewrite Hrun.
  assert (Hw : silent w (add_events w [HubRepoInfo repo rev; ScanDir (cache_dir previous);
                                       LogWarn warning])).
  { split; [reflexivity|]. eexists. split; reflexivity. }
  destruct modified; cbn [snd]; [exact Hw|].
  eapply silent_trans; [exact Hw | apply silent_fetch_remote].
Qed.

(** C3 (the code departs from the claim). With a previous descriptor, no
    overwrite, the same module id and a changed remote commit hash,
    [sync_remote_dep] follows the verdict of the scan: on "not modified" it
    logs a warning and is [fetch_remote]; on "modified" it logs a warning and
    returns the previous descriptor with files and directories untouched; it
    asks nothing. The verdict is that of [is_sync_dir_modified], which is
    inverted below the top level: for a snapshot with a subdirectory, the
    untouched working copy is kept and not refreshed, and the working copy
    with an edit in the subdirectory is fetched over. *)
Theorem upstream_advanced_follows_the_scan :
  (forall env previous repo mod_name rev caller sync_root cache_root w
          remote_commit_hash cache modified,
      let sync_dir' := derived_sync_dir env sync_root mod_name in
      let run :=
        sync_remote_dep env (Some previous) repo mod_name rev caller sync_root
          cache_root false w in
      sync_dir' = sync_dir previous ->
      mod_id previous = build_mod_id repo rev ->
      hub_repo_sha env repo rev = Ok remote_commit_hash ->
      remote_commit_hash <> commit_hash previous ->
      resolve w (cache_dir previous) = Some cache ->
      is_sync_dir_modified (resolve w sync_dir') cache = Ok modified ->
      exists warning,
        let w' := add_events w [HubRepoInfo repo rev; ScanDir (cache_dir previous);
                                LogWarn warning] in
        run = (if modified then (Ok previous, w')
               else fetch_remote env repo rev sync_dir' cache_root w')
        /\ silent w (snd run))
  /\ (let run :=
        sync_remote_dep Scenario.advanced (Some Scenario.widgets) "acme/widgets"
          "acme/widgets" "main" "__main__" Scenario.sync_root Scenario.cache_root
          false Scenario.nested_world in
      resolve Scenario.nested_world (sync_dir Scenario.widgets)
      = resolve Scenario.nested_world (cache_dir Scenario.widgets)
      /\ fst run = Ok Scenario.widgets
      /\ existsb is_fetch (trace (snd run)) = false
      /\ existsb is_warning (trace (snd run)) = true
      /\ dirs (snd run) = dirs Scenario.nested_world)
  /\ (let run :=
        sync_remote_dep Scenario.advanced (Some Scenario.widgets) "acme/widgets"
          "acme/widgets" "main" "__main__" Scenario.sync_root Scenario.cache_root
          false Scenario.nested_edited_world in
      resolve Scenario.nested_edited_world (sync_dir Scenario.widgets)
      = Some Scenario.nested_edited_tree
      /\ is_ok (fst run) = true
      /\ existsb is_fetch (trace (snd run)) = true
      /\ existsb is_question (trace (snd run)) = false
      /\ resolve (snd run) (sync_dir Scenario.widgets) = Some Scenario.snapshot_tree).
Proof.
  split; [exact upstream_advanced_reconciliation|].
  split; repeat split; vm_compute; reflexivity.
Qed.

Lemma upstream_advanced_follows_the_scan_witness :
  exists warning,
    sync_remote_dep Scenario.advanced (Some Scenario.widgets) "acme/widgets"
      "acme/widgets" "main" "__main__" Scenario.sync_root Scenario.cache_root false
      Scenario.nested_world
    = (Ok Scenario.widgets,
       add_events Scenario.nested_world
         [HubRepoInfo "acme/widgets" "main";
          ScanDir (cache_dir Scenario.widgets); LogWarn warning]).
Proof.
  destruct upstream_advanced_follows_the_scan as [Hscan _].
  destruct (Hscan Scenario.advanced Scenario.widgets
              "acme/widgets" "acme/widgets" "main" "__main__" Scenario.sync_root
              Scenario.cache_root Scenario.nested_world "def456"
              Scenario.nested_tree true)
    as [warning [H _]];
    [ reflexivity | reflexivity | reflexivity | discriminate
    | reflexivity | reflexivity | ].
  exists warning. exact H.
Defined.

(** ** What is evaluated before the decision *)

Lemma grows_emit e : stable (only_events any_event) (emit e).
Proof. intro w. exists [e]. now cbn. Qed.

Lemma grows_set_file p c : stable (only_events any_event) (set_file p c).
Proof. intro w. exists [WriteFile p]. now cbn. Qed.

Lemma grows_set_dir p d : stable (only_events any_event) (set_dir p d).
Proof. intro w. exists []. cbn. now rewrite app_nil_r. Qed.

Lemma grows_del_dir p : stable (only_events any_event) (del_dir p).
Proof. intro w. exists []. cbn. now rewrite app_nil_r. Qed.

Lemma grows_yes_no env q : stable (only_events any_event) (yes_no env q).
Proof. intro w. eexists [_]. now cbn. Qed.

Ltac grows_tac :=
  repeat first
    [ apply grows_set_file | apply grows_set_dir | apply grows_del_dir
    | apply grows_emit | apply grows_yes_no
    | stable_step (only_events_refl any_event) (@only_events_trans any_event) ].

Lemma grows_fetch_remote env repo revision sync_dir cache_root :
  stable (only_events any_event) (fetch_remote env repo revision sync_dir cache_root).
Proof.
  unfold fetch_remote, is_local_sync_dir_valid, remove_dir_or_link, os_makedirs,
    create_init_py, snapshot_download, os_path_isdir, os_path_islink, os_path_exists.
  grows_tac.
Qed.

(** C4, as the code has it. With a previous descriptor at the derived sync
    location, [sync_remote_dep] asks the hub for the commit hash first, and
    when that returns it scans the cache directory next, whatever the
    overwrite flag and the module id are; a failure of the lookup is the
    failure of the call. The decision is taken after both. *)
Theorem lookup_and_scan_precede_decision
        (env : Env) (previous : FlowModuleSpec)
        (repo mod_name rev caller sync_root cache_root : string)
        (overwrite : bool) (w : World) :
  let run :=
    sync_remote_dep env (Some previous) repo mod_name rev caller sync_root
      cache_root overwrite w in
  derived_sync_dir env sync_root mod_name = sync_dir previous ->
  match hub_repo_sha env repo rev with
  | Raise e => run = (Raise e, add_events w [HubRepoInfo repo rev])
  | Ok _ =>
      exists evs,
        trace (snd run)
        = (trace w ++ HubRepoInfo repo rev :: ScanDir (cache_dir previous) :: evs)%list
  end.
Proof.
  intros run Hsd. subst run. unfold derived_sync_dir in Hsd.
  unfold sync_remote_dep. rewrite Hsd.
  rewrite (@bind_ok _ _ _ _ _ _ _ (assert_eq_same _ w)).
  pose proof (retrive_commit_hash_from_remote_run env repo rev w) as Hsha.
  destruct (hub_repo_sha env repo rev) as [h|e].
  2:{ now rewrite (@bind_raise _ _ _ _ _ _ _ Hsha). }
  rewrite (@bind_ok _ _ _ _ _ _ _ Hsha).
  set (w1 := add_events w [HubRepoInfo repo rev]).
  pose proof (is_sync_dir_modified_at_run (sync_dir previous) (cache_dir previous) w1)
    as Hscan.
  assert (Hw2 : trace (add_events w1 [ScanDir (cache_dir previous)])
                = (trace w ++ [HubRepoInfo repo rev; ScanDir (cache_dir previous)])%list).
  { subst w1. rewrite add_events_app. reflexivity. }
  destruct (match resolve w1 (cache_dir previous) with
            | None => Raise (OSError "FileNotFoundError")
            | Some cache => is_sync_dir_modified (resolve w1 (sync_dir previous)) cache
            end) as [modified|e].
  2:{ rewrite (@bind_raise _ _ _ _ _ _ _ Hscan). cbn [snd]. exists []. exact Hw2. }
  rewrite (@bind_ok _ _ _ _ _ _ _ Hscan).
  match goal with
  | |- exists evs, trace (snd (?m ?w2)) = _ =>
      assert (Hm : stable (only_events any_event) m)
  end.
  { repeat first
      [ apply grows_fetch_remote | apply grows_emit | apply grows_yes_no
      | stable_step (only_events_refl any_event) (@only_events_trans any_event) ]. }
  match goal with
  | |- exists evs, trace (snd (?m ?w2)) = _ => destruct (Hm w2) as [evs [Hevs _]]
  end.
  exists evs. rewrite Hevs, Hw2, <- app_assoc. reflexivity.
Qed.

Lemma lookup_and_scan_precede_decision_witness :
  exists evs,
    trace (snd (sync_remote_dep Scenario.env (Some Scenario.widgets) "acme/widgets"
                  "acme/widgets" "main" "__main__" Scenario.sync_root
                  Scenario.cache_root true Scenario.clean_world))
    = HubRepoInfo "acme/widgets" "main" :: ScanDir (cache_dir Scenario.widgets) :: evs.
Proof.
  apply (lookup_and_scan_precede_decision Scenario.env Scenario.widgets
           "acme/widgets" "acme/widgets" "main" "__main__" Scenario.sync_root
           Scenario.cache_root true Scenario.clean_world).
  reflexivity.
Defined.

(** C4 as the specification states it fails: with the overwrite flag set,
    and likewise with a changed module id, the hub is asked for the commit
    hash and the cache directory is scanned. *)
Lemma lookup_and_scan_skipped_counterexample :
  let overwriting :=
    sync_remote_dep Scenario.env (Some Scenario.widgets) "acme/widgets" "acme/widgets"
      "main" "__main__" Scenario.sync_root Scenario.cache_root true
      Scenario.clean_world in
  let other_revision :=
    sync_remote_dep Scenario.env (Some Scenario.widgets) "acme/widgets" "acme/widgets"
      "dev" "__main__" Scenario.sync_root Scenario.cache_root false
      Scenario.clean_world in
  existsb is_lookup (trace (snd overwriting)) = true
  /\ existsb is_scan (trace (snd overwriting)) = true
  /\ existsb is_lookup (trace (snd other_revision)) = true
  /\ existsb is_scan (trace (snd other_revision)) = true.
Proof. repeat split; vm_compute; reflexivity. Qed.

(* ===================================================================== *)
(** * The manifest as a dictionary *)
(* ===================================================================== *)

Section DictFacts.
Variable V : Type.
Implicit Types (d : Dict.t V) (k : string) (v : V).

Lemma get_set_same d k v : Dict.get (Dict.set d k v) k = Some v.
Proof.
  induction d as [|[k' v'] d IH]; cbn.
  - now rewrite String.eqb_refl.
  - destruct (String.eqb_spec k' k) as [->|Hne]; cbn.
    + now rewrite String.eqb_refl.
    + destruct (String.eqb_spec k' k); [contradiction | exact IH].
Qed.

Lemma get_set_other d k v k' :
  k' <> k -> Dict.get (Dict.set d k v) k' = Dict.get d k'.
Proof.
  intros Hne. induction d as [|[k0 v0] d IH]; cbn.
  - destruct (String.eqb_spec k k'); [congruence | reflexivity].
  - destruct (String.eqb_spec k0 k) as [->|H0]; cbn.
    + destruct (String.eqb_spec k k'); [congruence | reflexivity].
    + destruct (String.eqb_spec k0 k'); [reflexivity | exact IH].
Qed.

Lemma get_in_keys d k : Dict.get d k <> None <-> In k (Dict.keys d).
Proof.
  induction d as [|[k' v'] d IH]; cbn.
  - split; [congruence | tauto].
  - destruct (String.eqb_spec k' k) as [->|Hne].
    + split; [auto | congruence].
    + rewrite IH. split; [auto | intros [H|H]; [contradiction | exact H]].
Qed.

Lemma keys_set_present d k v :
  In k (Dict.keys d) -> Dict.keys (Dict.set d k v) = Dict.keys d.
Proof.
  induction d as [|[k' v'] d IH]; cbn; [tauto|].
  intros Hin. destruct (String.eqb_spec k' k) as [->|Hne]; cbn; [reflexivity|].
  f_equal. apply IH. destruct Hin; [contradiction | assumption].
Qed.

Lemma keys_set_absent d k v :
  ~ In k (Dict.keys d) -> Dict.keys (Dict.set d k v) = (Dict.keys d ++ [k])%list.
Proof.
  induction d as [|[k' v'] d IH]; cbn; [reflexivity|].
  intros Hin. destruct (String.eqb_spec k' k) as [->|Hne]; [tauto|].
  cbn. f_equal. apply IH. tauto.
Qed.

Lemma nodup_keys_set d k v : NoDup (Dict.keys d) -> NoDup (Dict.keys (Dict.set d k v)).
Proof.
  intros Hd. destruct (in_dec string_dec k (Dict.keys d)) as [Hin|Hout].
  - now rewrite keys_set_present.
  - rewrite keys_set_absent by assumption.
    apply NoDup_app; [assumption | repeat constructor; tauto |].
    intros x Hx [<-|[]]. contradiction.
Qed.

Lemma in_set d k v kv : In kv (Dict.set d k v) -> kv = (k, v) \/ In kv d.
Proof.
  induction d as [|[k' v'] d IH]; cbn.
  - intros [<-|[]]. now left.
  - destruct (String.eqb_spec k' k) as [->|Hne]; cbn.
    + intros [<-|H]; [now left | right; now right].
    + intros [<-|H]; [right; now left |].
      destruct (IH H); [now left | right; now right].
Qed.

Lemma length_set_present d k v :
  In k (Dict.keys d) -> length (Dict.set d k v) = length d.
Proof.
  intros Hin. rewrite <- (length_map fst (Dict.set d k v)), <- (length_map fst d).
  change (length (Dict.keys (Dict.set d k v)) = length (Dict.keys d)).
  now rewrite keys_set_present.
Qed.


End DictFacts.

Lemma keyed_nil : keyed [].
Proof. split; constructor. Qed.

Lemma keyed_set d m : keyed d -> keyed (Dict.set d (repo_id m) m).
Proof.
  intros [Hn Hk]. split; [now apply nodup_keys_set|].
  apply Forall_forall. intros kv Hin.
  destruct (in_set _ _ _ _ _ Hin) as [->|Hold]; [reflexivity|].
  exact (proj1 (Forall_forall _ _) Hk kv Hold).
Qed.

Lemma keyed_fold mods d :
  keyed d -> keyed (fold_left (fun d m => Dict.set d (repo_id m) m) mods d).
Proof.
  revert d. induction mods as [|m mods IH]; intros d Hd; cbn; [exact Hd|].
  apply IH. now apply keyed_set.
Qed.

Lemma keyed_get d id m : keyed d -> Dict.get d id = Some m -> repo_id m = id.
Proof.
  intros [_ Hk]. induction d as [|[k v] d IH]; cbn; [discriminate|].
  inversion Hk as [|? ? Hhd Htl]; subst. cbn in Hhd.
  destruct (String.eqb_spec k id) as [->|Hne].
  - intros [= ->]. now symmetry.
  - now apply IH.
Qed.

Lemma keyed_one_per_origin s : keyed (_mods s) -> one_per_origin s.
Proof.
  intros Hk. split.
  - destruct Hk as [Hn Hk]. unfold get_mods, Dict.values, Dict.keys in *.
    replace (map repo_id (map snd (_mods s))) with (map fst (_mods s)); [exact Hn|].
    rewrite map_map. apply map_ext_in. intros kv Hin.
    exact (proj1 (Forall_forall _ _) Hk kv Hin).
  - intros id m. apply keyed_get. exact Hk.
Qed.

Lemma returns_bind A B (Q : B -> Prop) (m : M A) (f : A -> M B) :
  (forall a, returns Q (f a)) -> returns Q (bind m f).
Proof.
  intros Hf w b w' H. unfold bind in H.
  destruct (m w) as [[a|e] w1]; [|discriminate]. exact (Hf a w1 b w' H).
Qed.

Lemma returns_ret A (Q : A -> Prop) (a : A) : Q a -> returns Q (ret a).
Proof. intros H w a' w' [= <- _]. exact H. Qed.

Lemma returns_raise A (Q : A -> Prop) e : returns Q (@raise A e).
Proof. intros w a w' H. discriminate. Qed.

Lemma sync_dependency_adds env all_overwrite sync_root cache_root caller s dep :
  returns (fun s' => exists m, s' = add_mod s m)
          (sync_dependency env all_overwrite sync_root cache_root caller s dep).
Proof.
  unfold sync_dependency. apply returns_bind. intros [is_local dep'].
  destruct (dep_url dep'), (dep_revision dep'), (dep_mod_name dep');
    try apply returns_raise.
  apply returns_bind. intros m. apply returns_bind. intros _.
  apply returns_ret. now exists m.
Qed.

Lemma sync_loop_keyed env all_overwrite sync_root cache_root caller deps :
  forall s, keyed (_mods s) ->
  returns (fun s' => keyed (_mods s'))
          (sync_loop env all_overwrite sync_root cache_root caller deps s).
Proof.
  induction deps as [|dep deps IH]; intros s Hs; cbn [sync_loop].
  - now apply returns_ret.
  - intros w s' w' H. unfold bind in H.
    destruct (sync_dependency env all_overwrite sync_root cache_root caller s dep w)
      as [[s1|e] w1] eqn:E; [|discriminate].
    destruct (sync_dependency_adds _ _ _ _ _ _ _ _ _ _ E) as [m ->].
    apply (IH (add_mod s m)) in H; [exact H|].
    cbn. now apply keyed_set.
Qed.

Lemma from_flow_mod_file_keyed env file s :
  from_flow_mod_file env file = Ok (Some s) -> keyed (_mods s).
Proof.
  destruct file as [text|]; cbn [from_flow_mod_file]; [|discriminate].
  unfold rbind. destruct (read_header _ _) as [f|]; [|discriminate].
  destruct (readline f) as [l f1].
  destruct (Re.search_anchored sync_root_pattern _) as [[|sr [|? ?]]|]; try discriminate.
  destruct (readline f1) as [l2 f2].
  destruct (Re.search_anchored cache_root_pattern _) as [[|cr [|? ?]]|]; try discriminate.
  destruct (read_mods env sr cr f2 []) as [mods|]; [|discriminate].
  intros [= <-]. cbn. apply keyed_fold, keyed_nil.
Qed.

Lemma returns_bind_run A B (Q : B -> Prop) (m : M A) (f : A -> M B) :
  (forall a w w1, m w = (Ok a, w1) -> returns Q (f a)) -> returns Q (bind m f).
Proof.
  intros Hf w b w' H. unfold bind in H.
  destruct (m w) as [[a|e] w1] eqn:E; [|discriminate]. exact (Hf a w w1 E w1 b w' H).
Qed.

Lemma _sync_dependencies_keyed env deps all_overwrite base cache_root caller :
  returns (fun s => keyed (_mods s))
          (_sync_dependencies env deps all_overwrite base cache_root caller).
Proof.
  unfold _sync_dependencies.
  do 6 (apply returns_bind; intro).
  apply returns_bind_run. intros loaded w w1 Hload. unfold lift in Hload.
  destruct loaded as [s0|]; [|apply returns_raise].
  assert (Hs0 : keyed (_mods s0)).
  { eapply from_flow_mod_file_keyed. injection Hload as Hload _. exact Hload. }
  apply returns_bind_run. intros s1 w2 w3 Hloop.
  apply (sync_loop_keyed _ _ _ _ _ _ _ Hs0) in Hloop.
  apply returns_bind. intros _. apply returns_bind. intros _.
  now apply returns_ret.
Qed.

Lemma mod_lines_length env sync_root mods ls :
  mod_lines env sync_root mods = Ok ls -> length ls = length mods.
Proof.
  revert ls. induction mods as [|m mods IH]; intros ls; cbn.
  - now intros [= <-].
  - destruct (PyPath.relpath _ _ _); [|discriminate].
    destruct (mod_lines env sync_root mods) as [ls'|]; cbn; [|discriminate].
    intros [= <-]. cbn. f_equal. now apply IH.
Qed.

(** C9. A manifest holds at most one descriptor per origin id: as built by
    the constructor, after [add_mod] (which replaces the entry of an origin
    id that is present and leaves every other entry alone), as read from a
    manifest file, as returned by one turn of the loop and by
    [_sync_dependencies]; and [serialize] writes one line per descriptor. *)
Theorem one_descriptor_per_origin_id :
  (forall sync_root cache_root mods,
      keyed (_mods (new_summary sync_root cache_root mods)))
  /\ (forall s, keyed (_mods s) -> one_per_origin s)
  /\ (forall s m,
         keyed (_mods s) ->
         keyed (_mods (add_mod s m))
         /\ get_mod (add_mod s m) (repo_id m) = Some m
         /\ (forall id, id <> repo_id m -> get_mod (add_mod s m) id = get_mod s id)
         /\ (get_mod s (repo_id m) <> None ->
             length (get_mods (add_mod s m)) = length (get_mods s)))
  /\ (forall env file s, from_flow_mod_file env file = Ok (Some s) -> keyed (_mods s))
  /\ (forall env s sync_root ls,
         mod_lines env sync_root (get_mods s) = Ok ls ->
         length ls = length (get_mods s))
  /\ (forall env all_overwrite sync_root cache_root caller s dep w s' w',
         keyed (_mods s) ->
         sync_dependency env all_overwrite sync_root cache_root caller s dep w
         = (Ok s', w') ->
         keyed (_mods s'))
  /\ (forall env deps all_overwrite base cache_root caller w s w',
         _sync_dependencies env deps all_overwrite base cache_root caller w
         = (Ok s, w') ->
         one_per_origin s).
Proof.
  split; [|split; [|split; [|split; [|split; [|split]]]]].
  - intros. cbn. apply keyed_fold, keyed_nil.
  - exact keyed_one_per_origin.
  - intros s m Hs. split; [|split; [|split]].
    + cbn. now apply keyed_set.
    + apply get_set_same.
    + intros id Hid. now apply get_set_other.
    + intros Hin. unfold get_mods, Dict.values. rewrite !length_map.
      apply length_set_present. now apply get_in_keys.
  - exact from_flow_mod_file_keyed.
  - intros env s sync_root ls. apply mod_lines_length.
  - intros env ov sr cr caller s dep w s' w' Hs H.
    destruct (sync_dependency_adds _ _ _ _ _ _ _ _ _ _ H) as [m ->]. cbn. now apply keyed_set.
  - intros env deps ov base cr caller w s w' H.
    apply keyed_one_per_origin. exact (_sync_dependencies_keyed _ _ _ _ _ _ _ _ _ H).
Qed.

Lemma one_descriptor_per_origin_id_witness :
  one_per_origin
    (add_mod (new_summary Scenario.sync_root Scenario.cache_root
                [Scenario.widgets; Scenario.local_widgets; Scenario.widgets])
       Scenario.local_widgets)
  /\ one_per_origin
       (new_summary Scenario.sync_root Scenario.cache_root [Scenario.widgets]).
Proof.
  destruct one_descriptor_per_origin_id
    as [Hnew [Hone [Hadd [_ [_ [_ Hsync]]]]]].
  split.
  - apply Hone. apply Hadd. apply Hnew.
  - apply (Hsync Scenario.env [Scenario.dep "acme/widgets"] false "."
             Scenario.cache_root "__main__" Scenario.empty_world
             (new_summary Scenario.sync_root Scenario.cache_root [Scenario.widgets])
             Scenario.synced_world).
    vm_compute. reflexivity.
Defined.

(* ===================================================================== *)
(** * The driver *)
(* ===================================================================== *)

Lemma meq_refl A (m : M A) : meq m m.
Proof. intro w. reflexivity. Qed.

Lemma meq_sym A (m1 m2 : M A) : meq m1 m2 -> meq m2 m1.
Proof. intros H w. symmetry. apply H. Qed.

Lemma meq_trans A (m1 m2 m3 : M A) : meq m1 m2 -> meq m2 m3 -> meq m1 m3.
Proof. intros H1 H2 w. now rewrite H1. Qed.

Lemma bind_assoc A B C (m : M A) (f : A -> M B) (g : B -> M C) :
  meq (bind (bind m f) g) (bind m (fun a => bind (f a) g)).
Proof. intro w. unfold bind. now destruct (m w) as [[a|e] w1]. Qed.

Lemma bind_cong A B (m : M A) (f g : A -> M B) :
  (forall a, meq (f a) (g a)) -> meq (bind m f) (bind m g).
Proof. intros H w. unfold bind. destruct (m w) as [[a|e] w1]; [apply H | reflexivity]. Qed.

Lemma ret_bind A B (a : A) (f : A -> M B) : meq (bind (ret a) f) (f a).
Proof. intro w. reflexivity. Qed.

Lemma raise_bind A B (e : exn) (f : A -> M B) : meq (bind (raise e) f) (raise e).
Proof. intro w. reflexivity. Qed.

Lemma _sync_dependencies_split env deps all_overwrite base cache_root caller :
  meq (_sync_dependencies env deps all_overwrite base cache_root caller)
      (bind (open_manifest env base cache_root caller)
            (sync_and_write env deps all_overwrite (sync_root_of env base)
               cache_root caller)).
Proof.
  apply meq_sym.
  unfold _sync_dependencies, open_manifest. fold (sync_root_of env base).
  do 7 (eapply meq_trans; [apply bind_assoc|]; apply bind_cong; intro).
  match goal with
  | |- meq (bind (match ?x with _ => _ end) _) _ => destruct x
  end.
  - apply ret_bind.
  - apply raise_bind.
Qed.

(** ** The manifest file during the loop *)

Lemma last_char_app a b : b <> "" -> last_char (a ++ b) = last_char b.
Proof.
  intros Hb. induction a as [|c a IH]; [reflexivity|].
  cbn [append last_char]. rewrite IH.
  destruct (a ++ b) eqn:E; [|reflexivity].
  destruct a; cbn in E; [contradiction | discriminate].
Qed.























(* ===================================================================== *)
(** * The matcher against the meaning of the patterns *)
(* ===================================================================== *)

Lemma strip_prefix_some l s s' : PyStr.strip_prefix l s = Some s' <-> s = l ++ s'.
Proof.
  revert s. induction l as [|a l IH]; intros s; cbn.
  - split; [now intros [= ->] | now intros ->].
  - destruct s as [|b s]; [split; discriminate|].
    destruct (Ascii.eqb_spec a b) as [->|Hne].
    + rewrite IH. split; [now intros -> | now intros [= ->]].
    + split; [discriminate | intros [= E _]; now symmetry in E].
Qed.

Lemma append_assoc a b c : (a ++ b) ++ c = a ++ (b ++ c).
Proof. induction a; cbn; congruence. Qed.

Lemma append_nil_r s : s ++ "" = s.
Proof. induction s; cbn; congruence. Qed.

Lemma rev_acc_app s acc : PyStr.rev_acc s acc = PyStr.rev_acc s "" ++ acc.
Proof.
  revert acc. induction s as [|c s IH]; intros acc; cbn; [reflexivity|].
  rewrite IH, (IH (String c "")). now rewrite append_assoc.
Qed.

Lemma append_assoc_cons a c b : (a ++ String c "") ++ b = a ++ String c b.
Proof. now rewrite append_assoc. Qed.

Section Greedy.
Variables (R : Type) (cls : ascii -> bool) (k : string -> string -> option R).

Lemma greedy_sound : forall s acc r,
    Re.greedy cls k acc s = Some r ->
    exists p s', s = p ++ s' /\ p <> "" /\ PyStr.forallb_str cls p = true
                 /\ k (PyStr.rev_acc acc "" ++ p) s' = Some r.
Proof.
  induction s as [|c s IH]; intros acc r; cbn; [discriminate|].
  destruct (cls c) eqn:Hc; [|discriminate].
  destruct (Re.greedy cls k (String c acc) s) as [r'|] eqn:E.
  - intros [= <-]. destruct (IH _ _ E) as (p & s' & -> & Hp & Hall & Hk).
    exists (String c p), s'. repeat split; [discriminate | cbn; now rewrite Hc |].
    cbn in Hk. rewrite rev_acc_app, append_assoc_cons in Hk. exact Hk.
  - intros Hk. exists (String c ""), s.
    repeat split; [discriminate | cbn; now rewrite Hc |].
    cbn in Hk. now rewrite rev_acc_app in Hk.
Qed.

Lemma greedy_complete : forall p s' acc,
    p <> "" -> PyStr.forallb_str cls p = true ->
    k (PyStr.rev_acc acc "" ++ p) s' <> None ->
    Re.greedy cls k acc (p ++ s') <> None.
Proof.
  induction p as [|c p IH]; intros s' acc Hp Hall Hk; [contradiction|].
  cbn in Hall. apply andb_prop in Hall as [Hc Hall].
  cbn. rewrite Hc.
  destruct p as [|c' p].
  - cbn. destruct (Re.greedy cls k (String c acc) s'); [discriminate|].
    cbn. now rewrite rev_acc_app.
  - assert (H : Re.greedy cls k (String c acc) (String c' p ++ s') <> None).
    { apply IH; [discriminate | exact Hall |].
      cbn [PyStr.rev_acc]. now rewrite rev_acc_app, append_assoc_cons. }
    destruct (Re.greedy cls k (String c acc) (String c' p ++ s')); [discriminate|].
    contradiction.
Qed.

End Greedy.

Lemma match_items_sound items : forall s groups,
    Re.match_items items s = Some groups -> matches items s groups.
Proof.
  induction items as [|[l|cls|cls] items IH]; intros s groups; cbn.
  - destruct (Re.at_end s) eqn:E; [|discriminate]. intros [= <-]. now constructor.
  - destruct (PyStr.strip_prefix l s) as [s'|] eqn:E; [|discriminate].
    apply strip_prefix_some in E. subst s. intros H. constructor. now apply IH.
  - intros H. apply greedy_sound in H as (p & s' & -> & Hp & Hall & Hk).
    constructor; auto.
  - intros H. apply greedy_sound in H as (p & s' & -> & Hp & Hall & Hk).
    cbn in Hk. destruct (Re.match_items items s') as [g|] eqn:E; [|discriminate].
    injection Hk as <-. constructor; auto.
Qed.

Lemma match_items_complete items s groups :
  matches items s groups -> Re.match_items items s <> None.
Proof.
  induction 1 as [s He|l rest s groups _ IH|cls rest p s groups Hp Hall _ IH
                  |cls rest p s groups Hp Hall _ IH]; cbn.
  - now rewrite He.
  - rewrite (proj2 (strip_prefix_some l (l ++ s) s) eq_refl). exact IH.
  - apply greedy_complete; auto.
  - apply greedy_complete; auto. cbn.
    destruct (Re.match_items rest s); [discriminate | contradiction].
Qed.


(* ===================================================================== *)
(** * The validator *)
(* ===================================================================== *)

Lemma number_prefixed_one_char c : number_prefixed (String c "") = false.
Proof.
  unfold number_prefixed.
  destruct (Re.search_anchored number_prefixed_pattern (String c "")) as [g|] eqn:E;
    [|reflexivity].
  exfalso. apply match_items_sound in E.
  inversion E as [| |cls rest p s groups Hp _ E' Hitems Hs|]; subst.
  inversion E' as [| |cls rest q t groups' Hq _ E'' Hitems' Ht|]; subst.
  destruct p as [|a p]; [contradiction|]. destruct q as [|b q]; [contradiction|].
  cbn in Hs. injection Hs as _ Hs. destruct p; discriminate.
Qed.

Lemma number_prefixed_longer c s :
  PyStr.is_digit c = true -> s <> "" -> PyStr.forallb_str PyStr.is_word s = true ->
  number_prefixed (String c s) = true.
Proof.
  intros Hc Hs Hw. unfold number_prefixed.
  destruct (Re.search_anchored number_prefixed_pattern (String c s)) eqn:E;
    [reflexivity|].
  exfalso. revert E. apply match_items_complete with (groups := []).
  change (String c s) with (String c "" ++ s).
  constructor; [discriminate | cbn; now rewrite Hc |].
  rewrite <- (append_nil_r s). constructor; [exact Hs | exact Hw | now constructor].
Qed.

(** C8 (the code departs from the claim). [^\d+\w+$] wants a digit and then
    at least one more character: a name of one character is never refused,
    so the request [a/1], whose name is a single digit, is accepted as a
    remote dependency with destination [a/1]. A digit followed by one or
    more word characters, digits included, is refused. *)
Theorem single_digit_name_is_accepted :
  (forall c, number_prefixed (String c "") = false)
  /\ validate_and_augment_dependency Scenario.env (Scenario.dep "a/1") "__main__"
       Scenario.empty_world
     = (Ok (false, {| dep_url := Some "a/1"; dep_revision := Some "main";
                      dep_overwrite := None; dep_mod_name := Some "a/1" |}),
        Scenario.empty_world)
  /\ (forall c s,
         PyStr.is_digit c = true -> s <> "" ->
         PyStr.forallb_str PyStr.is_word s = true ->
         number_prefixed (String c s) = true)
  /\ (exists msg,
         validate_and_augment_dependency Scenario.env (Scenario.dep "a/12") "__main__"
           Scenario.empty_world
         = (Raise (ValueError msg), Scenario.empty_world)).
Proof.
  split; [exact number_prefixed_one_char|]. split; [reflexivity|].
  split; [exact number_prefixed_longer|]. eexists. vm_compute. reflexivity.
Qed.

Lemma single_digit_name_is_accepted_witness :
  number_prefixed "1" = false /\ number_prefixed "12" = true
  /\ number_prefixed "1x" = true.
Proof.
  destruct single_digit_name_is_accepted as [Hone [_ [Hlong _]]].
  split; [apply Hone|]. split; apply Hlong; (reflexivity || discriminate).
Defined.

(* ===================================================================== *)
(** * Reading the manifest *)
(* ===================================================================== *)














(* ===================================================================== *)
(** * Strings *)
(* ===================================================================== *)

Lemma rev_cons c s : PyStr.rev (String c s) = PyStr.rev s ++ String c "".
Proof. unfold PyStr.rev. cbn. apply rev_acc_app. Qed.

Lemma rev_append a b : PyStr.rev (a ++ b) = PyStr.rev b ++ PyStr.rev a.
Proof.
  induction a as [|c a IH]; cbn [append].
  - now rewrite append_nil_r.
  - now rewrite !rev_cons, IH, append_assoc.
Qed.

Lemma rev_involutive s : PyStr.rev (PyStr.rev s) = s.
Proof.
  induction s as [|c s IH]; [reflexivity|].
  now rewrite rev_cons, rev_append, IH.
Qed.



Lemma count_char_app c a b : count_char c (a ++ b) = count_char c a + count_char c b.
Proof. induction a as [|x a IH]; cbn; [reflexivity|]. rewrite IH. lia. Qed.

Lemma count_char_none p c s :
  PyStr.forallb_str p s = true -> p c = false -> count_char c s = 0.
Proof.
  intros Hall Hc. induction s as [|a s IH]; [reflexivity|].
  cbn in *. apply andb_prop in Hall as [Ha Hs].
  destruct (Ascii.eqb_spec a c) as [->|_]; [congruence|]. now rewrite IH.
Qed.

(** A string splits in one way at a character that its first part lacks. *)
Lemma split_at_char c a b a' b' :
  a ++ String c b = a' ++ String c b' ->
  count_char c a = 0 -> count_char c a' = 0 ->
  a = a' /\ b = b'.
Proof.
  revert a'. induction a as [|x a IH]; intros [|y a'] H Ha Ha'; cbn in *.
  - now injection H.
  - injection H as <- _. rewrite Ascii.eqb_refl in Ha'. discriminate.
  - injection H as -> _. rewrite Ascii.eqb_refl in Ha. discriminate.
  - injection H as -> H.
    destruct (Ascii.eqb y c); [discriminate|].
    destruct (IH a' H Ha Ha') as [-> ->]. now split.
Qed.

Lemma append_inv_head a b b' : a ++ b = a ++ b' -> b = b'.
Proof. induction a as [|c a IH]; cbn; [auto|]. intros [= H]. auto. Qed.



Lemma last_char_cons_app a c b : last_char (a ++ String c b) = last_char (String c b).
Proof. apply last_char_app. discriminate. Qed.

(** ** Lines of a text *)




(* ===================================================================== *)
(** * The lines of a manifest are read as they were written *)
(* ===================================================================== *)

Lemma matches_group_inv cls rest s groups :
  matches (Re.Group cls :: rest) s groups ->
  exists p s' gs, s = p ++ s' /\ groups = p :: gs /\ p <> ""
                  /\ PyStr.forallb_str cls p = true /\ matches rest s' gs.
Proof. intros H. inversion H; subst. eauto 10. Qed.

Lemma matches_lit_inv l rest s groups :
  matches (Re.Lit l :: rest) s groups -> exists s', s = l ++ s' /\ matches rest s' groups.
Proof. intros H. inversion H; subst. eauto. Qed.

Lemma matches_end_inv s groups :
  matches [] s groups -> groups = [] /\ (s = "" \/ s = PyStr.nl).
Proof.
  intros H. inversion H as [s0 He| | |]; subst. split; [reflexivity|].
  destruct s as [|c [|c' s]]; cbn in He; [now left | | discriminate].
  right. unfold PyStr.is_newline, PyStr.code in He.
  apply Nat.eqb_eq in He. unfold PyStr.nl, PyStr.newline.
  now rewrite <- He, ascii_nat_embedding.
Qed.












Section ReadBack.
Variable env : Env.
Variables sync_root cache_root : string.




End ReadBack.
















(* ===================================================================== *)
(** * Synchronising what is in sync *)
(* ===================================================================== *)

Lemma add_events_nil w : add_events w [] = w.
Proof. destruct w. unfold add_events. cbn. now rewrite app_nil_r. Qed.























(* ===================================================================== *)
(** * The manifest as a container *)
(* ===================================================================== *)

Lemma find_app {A} (f : A -> bool) (a b : list A) :
  find f (a ++ b)%list = match find f a with Some x => Some x | None => find f b end.
Proof. induction a as [|x a IH]; cbn; [reflexivity|]. now destruct (f x). Qed.

Lemma get_set (d : Dict.t FlowModuleSpec) k v k' :
  Dict.get (Dict.set d k v) k' = if String.eqb k k' then Some v else Dict.get d k'.
Proof.
  destruct (String.eqb_spec k k') as [<-|Hne].
  - apply get_set_same.
  - apply get_set_other. congruence.
Qed.

Lemma get_fold_set id : forall mods (d : Dict.t FlowModuleSpec),
    Dict.get (fold_left (fun d m => Dict.set d (repo_id m) m) mods d) id
    = match find (fun m => String.eqb (repo_id m) id) (rev mods) with
      | Some m => Some m
      | None => Dict.get d id
      end.
Proof.
  induction mods as [|m mods IH]; intros d; cbn [fold_left rev]; [reflexivity|].
  rewrite IH, find_app. cbn [find].
  destruct (find _ (rev mods)); [reflexivity|].
  rewrite get_set. now destruct (String.eqb (repo_id m) id).
Qed.

(** X1. The constructor keeps, for each origin id, the last descriptor of
    the list it is given: looking an origin id up in the new manifest finds
    the last descriptor of the list with that origin id, and nothing when
    the list has none. *)
Theorem new_summary_last_wins (sync_root cache_root : string)
        (mods : list FlowModuleSpec) (id : string) :
  get_mod (new_summary sync_root cache_root mods) id
  = find (fun m => String.eqb (repo_id m) id) (rev mods).
Proof.
  unfold get_mod, new_summary. cbn [_mods]. rewrite get_fold_set.
  now destruct (find _ (rev mods)).
Qed.

(** X2. [add_mod] keeps the order of the manifest: the descriptor that
    replaces one with the same origin id takes its place in [get_mods], and
    a descriptor with a new origin id goes to the end. *)
Theorem add_mod_keeps_position (s : FlowModuleSpecSummary) (m : FlowModuleSpec) :
  match get_mod s (repo_id m) with
  | Some old =>
      exists before after,
        get_mods s = (before ++ old :: after)%list
        /\ get_mods (add_mod s m) = (before ++ m :: after)%list
  | None => get_mods (add_mod s m) = (get_mods s ++ [m])%list
  end.
Proof.
  destruct s as [sr cr d]. unfold get_mod, get_mods, add_mod, Dict.values.
  cbn [_mods]. induction d as [|[k v] d IH]; cbn [Dict.get Dict.set map]; [reflexivity|].
  destruct (String.eqb_spec k (repo_id m)) as [E|Hne].
  - exists [], (map snd d). split; reflexivity.
  - destruct (Dict.get d (repo_id m)) as [old|].
    + destruct IH as (before & after & H1 & H2).
      exists (v :: before), after. cbn [map snd app]. now rewrite H1, H2.
    + cbn [map snd app]. now rewrite IH.
Qed.

(* ===================================================================== *)
(** * Module ids *)
(* ===================================================================== *)

(** X3. A module id tells revisions of one origin id apart, and it tells
    origin ids apart as long as they hold no colon; with a colon in the
    origin id two different pairs can share their module id. *)
Theorem mod_id_identifies_revision :
  (forall repo rev rev', build_mod_id repo rev = build_mod_id repo rev' <-> rev = rev')
  /\ (forall repo rev repo' rev',
         count_char ":" repo = 0 -> count_char ":" repo' = 0 ->
         build_mod_id repo rev = build_mod_id repo' rev' ->
         repo = repo' /\ rev = rev')
  /\ build_mod_id "a:b" "c" = build_mod_id "a" "b:c".
Proof.
  split; [|split; [|reflexivity]].
  - intros repo rev rev'. unfold build_mod_id. split; [|now intros ->].
    intros H. apply append_inv_head in H. now apply (append_inv_head ":").
  - intros repo rev repo' rev' H0 H0' H. unfold build_mod_id in H.
    now apply (split_at_char ":"%char).
Qed.

Lemma mod_id_identifies_revision_witness :
  "acme/widgets" = "acme/widgets" /\ "main" = "main".
Proof.
  destruct mod_id_identifies_revision as [_ [H _]].
  apply (H "acme/widgets" "main" "acme/widgets" "main"); reflexivity.
Defined.

(* ===================================================================== *)
(** * Names of Python modules *)
(* ===================================================================== *)

Lemma at_end_cases s : Re.at_end s = true <-> s = "" \/ s = PyStr.nl.
Proof.
  split.
  - intros He. destruct s as [|c [|c' s]]; cbn in He; [now left | | discriminate].
    right. unfold PyStr.is_newline, PyStr.code in He. apply Nat.eqb_eq in He.
    unfold PyStr.nl, PyStr.newline. now rewrite <- He, ascii_nat_embedding.
  - intros [->| ->]; reflexivity.
Qed.

(** [cls*] takes a run of the class, possibly empty, and the rest of the
    pattern takes what follows. *)
Lemma star_some {R} cls (k : string -> option R) s :
  star cls k s <> None
  <-> exists p s', s = p ++ s' /\ PyStr.forallb_str cls p = true /\ k s' <> None.
Proof.
  unfold star. split.
  - destruct (Re.greedy cls (fun _ s' => k s') "" s) as [r|] eqn:E.
    + intros _. apply greedy_sound in E as (p & s' & -> & _ & Hall & Hk).
      exists p, s'. repeat split; [exact Hall | congruence].
    + intros Hk. exists "", s. repeat split. exact Hk.
  - intros (p & s' & -> & Hall & Hk). destruct p as [|c p]; cbn [append].
    + now destruct (Re.greedy cls (fun _ s' => k s') "" s').
    + pose proof (greedy_complete _ cls (fun _ s' => k s') (String c p) s' ""
                    ltac:(discriminate) Hall Hk) as Hg.
      cbn [append] in Hg. now destruct (Re.greedy cls (fun _ s'0 => k s'0) "" _).
Qed.

(** X4. [_is_valid_python_module_name] accepts the ASCII identifiers, and
    also an ASCII identifier followed by one newline, which [$] lets pass;
    it accepts nothing else. *)
Theorem module_name_is_identifier (name : string) :
  _is_valid_python_module_name name = true
  <-> identifier name = true
      \/ exists body, name = body ++ PyStr.nl /\ identifier body = true.
Proof.
  assert (Hk : forall s, (if Re.at_end s then Some tt else None) <> None
                         <-> s = "" \/ s = PyStr.nl).
  { intros s. rewrite <- at_end_cases. destruct (Re.at_end s); split; congruence. }
  destruct name as [|c rest]; cbn [_is_valid_python_module_name identifier].
  { split; [discriminate|]. intros [H|(body & H & Hb)]; [discriminate|].
    destruct body; discriminate. }
  pose proof (star_some is_name_char
                (fun s => if Re.at_end s then Some tt else None) rest) as Hstar.
  split.
  - intros H. apply andb_prop in H as [Hc H].
    assert (Hs : star is_name_char (fun s => if Re.at_end s then Some tt else None) rest
                 <> None) by (destruct (star _ _ rest); [discriminate | discriminate]).
    apply Hstar in Hs as (p & s' & -> & Hall & Hend). apply Hk in Hend as [->| ->].
    + left. now rewrite Hc, append_nil_r.
    + right. exists (String c p). split; [reflexivity|]. cbn. now rewrite Hc.
  - intros [H|(body & Hname & H)].
    + apply andb_prop in H as [Hc Hall]. rewrite Hc. cbn [andb].
      assert (Hs : star is_name_char (fun s => if Re.at_end s then Some tt else None) rest
                   <> None).
      { apply (proj2 Hstar). exists rest, "". rewrite append_nil_r.
        repeat split; [exact Hall|]. apply Hk. now left. }
      now destruct (star _ _ rest).
    + destruct body as [|b body]; [discriminate|]. cbn [append] in Hname.
      injection Hname as -> ->. cbn [identifier] in H.
      apply andb_prop in H as [Hc Hall]. rewrite Hc. cbn [andb].
      assert (Hs : star is_name_char (fun s => if Re.at_end s then Some tt else None)
                     (body ++ PyStr.nl) <> None).
      { apply (proj2 Hstar). exists body, PyStr.nl.
        repeat split; [exact Hall|]. apply Hk. now right. }
      now destruct (star _ _ (body ++ PyStr.nl)).
Qed.

(* ===================================================================== *)
(** * The module search path *)
(* ===================================================================== *)

Lemma existsb_eqb_in x l : existsb (String.eqb x) l = true <-> In x l.
Proof.
  rewrite existsb_exists. split.
  - intros (y & Hin & E). apply String.eqb_eq in E. now subst.
  - intros Hin. exists x. split; [exact Hin | apply String.eqb_refl].
Qed.

Lemma add_to_sys_path_in env path sys_path :
  In (PyPath.abspath (cwd env) path) (add_to_sys_path env path sys_path).
Proof.
  unfold add_to_sys_path.
  destruct (existsb _ sys_path) eqn:E; cbn [negb].
  - now apply existsb_eqb_in.
  - apply in_or_app. right. now left.
Qed.

Lemma add_to_sys_path_present env path sys_path :
  In (PyPath.abspath (cwd env) path) sys_path ->
  add_to_sys_path env path sys_path = sys_path.
Proof.
  intros Hin. unfold add_to_sys_path.
  now rewrite (proj2 (existsb_eqb_in _ _) Hin).
Qed.

Lemma add_to_sys_path_grows env path sys_path :
  exists tail, add_to_sys_path env path sys_path = (sys_path ++ tail)%list
               /\ (forall x, In x tail -> ~ In x sys_path) /\ NoDup tail.
Proof.
  unfold add_to_sys_path. destruct (existsb _ sys_path) eqn:E; cbn [negb].
  - exists []. rewrite app_nil_r. repeat split; [intros x [] | constructor].
  - eexists. split; [reflexivity|]. split.
    + intros x [<-|[]] Hin. apply existsb_eqb_in in Hin. congruence.
    + repeat constructor. intros [].
Qed.

(** X5. [add_to_sys_path] appends the absolute path when [sys.path] lacks
    it and does nothing otherwise: the entries that were there keep their
    places, the absolute path is an entry afterwards, no duplicate is
    created, and a second call changes nothing. So the two calls with which
    [_sync_dependencies] begins leave [sys.path] as it is from the second
    synchronisation on. *)
Theorem add_to_sys_path_is_idempotent (env : Env) (path : string)
        (sys_path : list string) :
  In (PyPath.abspath (cwd env) path) (add_to_sys_path env path sys_path)
  /\ (exists tail, add_to_sys_path env path sys_path = (sys_path ++ tail)%list)
  /\ (NoDup sys_path -> NoDup (add_to_sys_path env path sys_path))
  /\ add_to_sys_path env path (add_to_sys_path env path sys_path)
     = add_to_sys_path env path sys_path
  /\ sync_sys_path env path (sync_sys_path env path sys_path)
     = sync_sys_path env path sys_path.
Proof.
  split; [apply add_to_sys_path_in|]. split; [|split; [|split]].
  - destruct (add_to_sys_path_grows env path sys_path) as (tail & H & _). eauto.
  - intros Hnd. destruct (add_to_sys_path_grows env path sys_path) as (tail & -> & Hnew & Ht).
    apply NoDup_app; [exact Hnd | exact Ht |]. intros x Hx Hx'. now apply (Hnew x).
  - apply add_to_sys_path_present, add_to_sys_path_in.
  - unfold sync_sys_path.
    set (l1 := add_to_sys_path env path sys_path).
    set (sub := PyPath.join path DEFAULT_FLOW_MODULE_FOLDER).
    set (l2 := add_to_sys_path env sub l1).
    assert (H1 : In (PyPath.abspath (cwd env) path) l2).
    { destruct (add_to_sys_path_grows env sub l1) as (tail & H & _). subst l2.
      rewrite H. apply in_or_app. left. apply add_to_sys_path_in. }
    rewrite (add_to_sys_path_present env path l2 H1).
    apply add_to_sys_path_present, add_to_sys_path_in.
Qed.

Lemma add_to_sys_path_is_idempotent_witness :
  NoDup (add_to_sys_path Scenario.env "." ["/usr/lib/python3"; "/home/me"]).
Proof.
  destruct (add_to_sys_path_is_idempotent Scenario.env "."
              ["/usr/lib/python3"; "/home/me"]) as [_ [_ [H _]]].
  apply H. repeat constructor; cbn; intuition discriminate.
Defined.

(* ===================================================================== *)
(** * The requirements of a module *)
(* ===================================================================== *)

Lemma count_char_hd_split c s : count_char c (hd "" (PyStr.split_on c s)) = 0.
Proof.
  induction s as [|a s IH]; cbn [PyStr.split_on]; [reflexivity|].
  destruct (Ascii.eqb_spec a c) as [->|Hne]; [reflexivity|].
  destruct (PyStr.split_on c s) as [|w ws]; cbn [hd count_char] in *.
  - destruct (Ascii.eqb_spec a c); [contradiction | reflexivity].
  - destruct (Ascii.eqb_spec a c); [contradiction | exact IH].
Qed.

Lemma count_char_lstrip c s : count_char c (PyStr.lstrip s) <= count_char c s.
Proof.
  induction s as [|a s IH]; cbn [PyStr.lstrip]; [lia|].
  destruct (PyStr.is_space a); [|lia]. cbn [count_char]. lia.
Qed.

Lemma count_char_rev c s : count_char c (PyStr.rev s) = count_char c s.
Proof.
  induction s as [|a s IH]; [reflexivity|].
  rewrite rev_cons, count_char_app, IH. cbn [count_char]. lia.
Qed.

Lemma count_char_strip c s : count_char c (PyStr.strip s) <= count_char c s.
Proof.
  unfold PyStr.strip, PyStr.rstrip. rewrite count_char_rev.
  etransitivity; [apply count_char_lstrip|]. rewrite count_char_rev.
  apply count_char_lstrip.
Qed.

Lemma forallb_map_comp {A B} (f : B -> bool) (g : A -> B) l :
  forallb f (map g l) = forallb (fun x => f (g x)) l.
Proof. induction l as [|x l IH]; cbn; [reflexivity|]. now rewrite IH. Qed.

Section RequirementsFacts.
Variable requirement_satisfied : string -> result bool.

Lemma unsatisfied_loop_reported : forall requirements acc reqs,
    Forall (reported requirement_satisfied) acc ->
    unsatisfied_loop requirement_satisfied requirements acc = Ok reqs ->
    Forall (reported requirement_satisfied) reqs.
Proof.
  induction requirements as [|line rest IH]; intros acc reqs Hacc; cbn [unsatisfied_loop].
  - now intros [= <-].
  - set (req := PyStr.strip (hd "" (PyStr.split_on "#" line))).
    destruct (String.eqb_spec req "") as [E|Hne]; [now apply IH|].
    destruct (requirement_satisfied req) as [[|]|e] eqn:Hsat; cbn [negb];
      [now apply IH | | discriminate].
    apply IH. apply Forall_app. split; [exact Hacc|]. constructor; [|constructor].
    repeat split; [exact Hne | | exact Hsat].
    pose proof (count_char_strip "#" (hd "" (PyStr.split_on "#" line))) as Hle.
    rewrite count_char_hd_split in Hle. fold req in Hle. lia.
Qed.

Lemma unsatisfied_loop_blank : forall requirements acc,
    forallb (fun line => String.eqb (PyStr.strip (hd "" (PyStr.split_on "#" line))) "")
            requirements = true ->
    unsatisfied_loop requirement_satisfied requirements acc = Ok acc.
Proof.
  induction requirements as [|line rest IH]; intros acc; cbn [unsatisfied_loop forallb];
    [reflexivity|].
  intros H. apply andb_prop in H as [-> H]. now apply IH.
Qed.

End RequirementsFacts.

(** X6. [get_unsatisfied_pip_requirements] reports only requirements: each
    reported entry is not empty, holds no comment sign, and is one that
    [pkg_resources] found unsatisfied. A file of blank lines and comments
    has no unsatisfied requirement, and [pkg_resources] is not consulted for
    it: the result does not depend on it. *)
Theorem unsatisfied_requirements_are_requirements
        (requirement_satisfied : string -> result bool) (content : string) :
  (forall reqs,
      get_unsatisfied_pip_requirements requirement_satisfied content = Ok reqs ->
      Forall (reported requirement_satisfied) reqs)
  /\ (forallb no_requirement (PyStr.readlines content) = true ->
      get_unsatisfied_pip_requirements requirement_satisfied content = Ok []).
Proof.
  unfold get_unsatisfied_pip_requirements. split.
  - intros reqs. apply unsatisfied_loop_reported. constructor.
  - intros H. apply unsatisfied_loop_blank. now rewrite forallb_map_comp.
Qed.

Lemma unsatisfied_requirements_are_requirements_witness :
  Forall (reported (fun req => Ok (String.eqb req "numpy"))) ["torch>=2.0"]
  /\ get_unsatisfied_pip_requirements (fun _ => Raise (ValueError "unparsable"))
       ("# requirements" ++ PyStr.nl ++ PyStr.nl ++ "   # none yet" ++ PyStr.nl)
     = Ok [].
Proof.
  split.
  - apply (proj1 (unsatisfied_requirements_are_requirements
                    (fun req => Ok (String.eqb req "numpy"))
                    ("numpy  # arrays" ++ PyStr.nl ++ "torch>=2.0" ++ PyStr.nl))).
    reflexivity.
  - apply (proj2 (unsatisfied_requirements_are_requirements
                    (fun _ => Raise (ValueError "unparsable"))
                    ("# requirements" ++ PyStr.nl ++ PyStr.nl ++ "   # none yet"
                     ++ PyStr.nl))).
    reflexivity.
Defined.

(* ===================================================================== *)
(** * More on the modification detector *)
(* ===================================================================== *)

Lemma node_nested_ind (P : node -> Prop) :
  (forall content, P (File content)) -> P Special ->
  (forall entries, Forall (fun entry => P (snd entry)) entries -> P (Dir entries)) ->
  forall n, P n.
Proof.
  intros HF HS HD. fix IH 1. intros [content|entries|].
  - apply HF.
  - apply HD. revert entries. fix IHes 1. intros [|[name x] entries].
    + constructor.
    + constructor; [apply IH | apply IHes].
  - apply HS.
Qed.

(** One turn of the loop of [is_sync_dir_modified]. *)
Lemma is_sync_dir_modified_cons sync name entry entries :
  is_sync_dir_modified sync (Dir ((name, entry) :: entries))
  = if skipped name then is_sync_dir_modified sync (Dir entries)
    else match entry with
         | File _ =>
             match filecmp_cmp (Some entry) (child sync name) with
             | Ok same =>
                 if negb same then Ok true else is_sync_dir_modified sync (Dir entries)
             | Raise e => Raise e
             end
         | Dir _ =>
             match is_sync_dir_modified (child sync name) entry with
             | Ok dir_same =>
                 if negb dir_same then Ok true
                 else is_sync_dir_modified sync (Dir entries)
             | Raise e => Raise e
             end
         | Special => Raise (ValueError "it is not file or dir or valid symlink")
         end.
Proof. reflexivity. Qed.

(** X7. What the scan skips in the cache directory, a name that starts
    with a dot or [__pycache__], plays no part at any depth: the verdict,
    or the exception, is that for the cache tree without these entries. *)
Theorem skipped_entries_play_no_part (cache : node) :
  forall sync, is_sync_dir_modified sync cache = is_sync_dir_modified sync (prune cache).
Proof.
  induction cache as [content| |entries IH] using node_nested_ind; intros sync;
    [reflexivity | reflexivity |].
  induction IH as [|[name entry] entries Hentry _ IHentries]; [reflexivity|].
  change (prune (Dir ((name, entry) :: entries)))
    with (Dir (if skipped name then entries_of (prune (Dir entries))
               else (name, prune entry) :: entries_of (prune (Dir entries)))).
  change (prune (Dir entries)) with (Dir (entries_of (prune (Dir entries))))
    in IHentries.
  rewrite is_sync_dir_modified_cons.
  destruct (skipped name) eqn:Hskip; [exact IHentries|].
  rewrite is_sync_dir_modified_cons, Hskip, IHentries.
  cbn [snd] in Hentry.
  destruct entry as [content|sub|]; [reflexivity | | reflexivity].
  rewrite (Hentry (child sync name)). reflexivity.
Qed.






(* ===================================================================== *)
(** * More on the validator *)
(* ===================================================================== *)

Lemma append_inv_tail a b c : a ++ c = b ++ c -> a = b.
Proof.
  intros H. apply (f_equal PyStr.rev) in H. rewrite !rev_append in H.
  apply append_inv_head in H. apply (f_equal PyStr.rev) in H.
  now rewrite !rev_involutive in H.
Qed.

Lemma word_no_slash s : PyStr.forallb_str PyStr.is_word s = true -> count_char "/" s = 0.
Proof. intros H. now apply (count_char_none PyStr.is_word). Qed.

Lemma word_no_newline s :
  PyStr.forallb_str PyStr.is_word s = true -> count_char PyStr.newline s = 0.
Proof. intros H. now apply (count_char_none PyStr.is_word). Qed.

Lemma matches_url_pattern url groups :
  matches url_pattern url groups ->
  exists u r t, groups = [u; r] /\ word_name u /\ word_name r
                /\ (t = "" \/ t = PyStr.nl) /\ url = u ++ "/" ++ r ++ t.
Proof.
  unfold url_pattern. intros H.
  apply matches_group_inv in H as (u & s1 & gs1 & -> & -> & Hu & Hu' & H).
  apply matches_lit_inv in H as (s2 & -> & H).
  apply matches_group_inv in H as (r & t & gs2 & -> & -> & Hr & Hr' & H).
  apply matches_end_inv in H as [-> Ht].
  exists u, r, t. repeat split; auto.
Qed.

(** The groups of a repository id are its namespace and its name. *)
Lemma url_pattern_groups url u r :
  Re.search_anchored url_pattern url = Some [u; r]
  <-> word_name u /\ word_name r
      /\ (url = u ++ "/" ++ r \/ url = u ++ "/" ++ r ++ PyStr.nl).
Proof.
  unfold Re.search_anchored. split.
  - intros H. apply match_items_sound, matches_url_pattern in H
      as (u' & r' & t & [= <- <-] & Hu & Hr & Ht & ->).
    repeat split; try apply Hu; try apply Hr.
    destruct Ht as [->| ->]; [left; now rewrite append_nil_r | now right].
  - intros (Hu & Hr & Hurl).
    assert (Hm : exists t, (t = "" \/ t = PyStr.nl) /\ url = u ++ "/" ++ r ++ t
                           /\ matches url_pattern url [u; r]).
    { assert (Hshape : exists t, (t = "" \/ t = PyStr.nl) /\ url = u ++ "/" ++ r ++ t).
      { destruct Hurl as [->| ->]; [exists "" | exists PyStr.nl];
          (split; [auto|]); now rewrite ?append_nil_r. }
      destruct Hshape as (t & Ht & ->). exists t. repeat split; [exact Ht|].
      unfold url_pattern.
      apply matches_group; [apply Hu | apply Hu |]. apply (matches_lit "/").
      apply matches_group; [apply Hr | apply Hr |]. constructor.
      destruct Ht as [->| ->]; reflexivity. }
    destruct Hm as (t & Ht & -> & Hm).
    destruct (Re.match_items url_pattern (u ++ "/" ++ r ++ t)) as [groups|] eqn:E.
    2:{ now apply match_items_complete in Hm. }
    f_equal. apply match_items_sound, matches_url_pattern in E
      as (u' & r' & t' & -> & Hu' & Hr' & Ht' & E).
    change (u ++ "/" ++ r ++ t) with (u ++ String "/" (r ++ t)) in E.
    change (u' ++ "/" ++ r' ++ t') with (u' ++ String "/" (r' ++ t')) in E.
    apply split_at_char in E as [<- E];
      [| apply word_no_slash, Hu | apply word_no_slash, Hu'].
    assert (Hcount : count_char PyStr.newline t = count_char PyStr.newline t').
    { apply (f_equal (count_char PyStr.newline)) in E.
      rewrite !count_char_app, (word_no_newline r), (word_no_newline r') in E;
        [exact E | apply Hr' | apply Hr]. }
    assert (t = t') as <-.
    { destruct Ht as [->| ->], Ht' as [->| ->]; try reflexivity; discriminate. }
    apply append_inv_tail in E. now subst.
Qed.

Lemma search_nonword_none s :
  Re.search_nonword s = None <-> PyStr.forallb_str PyStr.is_word s = true.
Proof.
  induction s as [|c s IH]; cbn; [tauto|].
  destruct (PyStr.is_word c); cbn [andb]; [exact IH | split; discriminate].
Qed.

Lemma search_anchored_url_shape url groups :
  Re.search_anchored url_pattern url = Some groups -> exists u r, groups = [u; r].
Proof.
  intros H. apply match_items_sound, matches_url_pattern in H
    as (u & r & t & -> & _). eauto.
Qed.

(** X10. The validator takes a [url] for a repository id exactly when it
    is a namespace and a name, each a non-empty run of word characters,
    with one slash between them, and at most one newline after the name
    (which [$] lets pass); the namespace and the name it works with are
    these two. Any other [url] is refused with a [ValueError], and the
    world is left as it was. *)
Theorem url_is_namespace_and_name :
  (forall url u r,
      Re.search_anchored url_pattern url = Some [u; r]
      <-> word_name u /\ word_name r
          /\ (url = u ++ "/" ++ r \/ url = u ++ "/" ++ r ++ PyStr.nl))
  /\ (forall env dep caller w url,
         dep_url dep = Some url ->
         (forall u r, word_name u -> word_name r ->
                      url <> u ++ "/" ++ r /\ url <> u ++ "/" ++ r ++ PyStr.nl) ->
         validate_and_augment_dependency env dep caller w
         = (Raise (ValueError "dependency url must be in the format of `username/repo_name`(huggingface repo)"),
            w)).
Proof.
  split; [exact url_pattern_groups|].
  intros env dep caller w url Hurl Hshape. unfold validate_and_augment_dependency.
  rewrite Hurl.
  destruct (Re.search_anchored url_pattern url) as [groups|] eqn:E; [|reflexivity].
  exfalso. destruct (search_anchored_url_shape _ _ E) as (u & r & ->).
  apply url_pattern_groups in E as (Hu & Hr & Hcase).
  destruct (Hshape u r Hu Hr) as [H1 H2]. destruct Hcase; contradiction.
Qed.

Lemma url_is_namespace_and_name_witness :
  Re.search_anchored url_pattern "acme/widgets" = Some ["acme"; "widgets"]
  /\ validate_and_augment_dependency Scenario.env Scenario.bad_dep "__main__"
       Scenario.empty_world
     = (Raise Scenario.url_format_error, Scenario.empty_world).
Proof.
  split.
  - apply (proj1 url_is_namespace_and_name "acme/widgets" "acme" "widgets").
    repeat split; try discriminate. now left.
  - apply (proj2 url_is_namespace_and_name Scenario.env Scenario.bad_dep "__main__"
             Scenario.empty_world "not a repository id" eq_refl).
    intros u r _ _.
    split; intros H; apply (f_equal (count_char "/")) in H;
      change (count_char "/" "not a repository id") with 0 in H;
      rewrite count_char_app in H; cbn [append count_char] in H;
      rewrite Ascii.eqb_refl in H; lia.
Defined.

Lemma normpath_is_absolute path :
  PyStr.startswith path "/" = true -> PyStr.startswith (PyPath.normpath path) "/" = true.
Proof.
  intros H. unfold PyPath.normpath. rewrite H.
  destruct path as [|c path]; [discriminate|]. cbn [String.eqb].
  destruct (PyStr.startswith (String c path) "//" && _)%bool; reflexivity.
Qed.

Lemma abspath_is_absolute cwd path :
  PyStr.startswith cwd "/" = true ->
  PyStr.startswith (PyPath.abspath cwd path) "/" = true.
Proof.
  intros Hcwd. unfold PyPath.abspath.
  destruct (PyStr.startswith path "/") eqn:Hp; apply normpath_is_absolute; [exact Hp|].
  unfold PyPath.join. rewrite Hp.
  destruct cwd as [|c cwd]; [discriminate|].
  unfold PyStr.startswith in *. cbn [PyStr.strip_prefix append] in *.
  destruct (_ || _)%bool; cbn [append PyStr.strip_prefix];
    now destruct (Ascii.eqb "/" c).
Qed.

(** X11. A dependency that the validator accepts leaves it with every key
    that the loop of [_sync_dependencies] reads: the [url] and the
    [overwrite] flag as they were, the revision (the requested one, or
    [main]), and the destination name, which is the namespace and the name
    of the [url], the namespace prefixed with [user_] when it is
    number-prefixed. The dependency is local exactly when its revision
    exists as a path; then the revision is a directory, does not mention
    [flow_modules], and is replaced by its absolute path. Validation writes
    nothing and asks nothing; it logs one warning when it prefixes the
    namespace and nothing otherwise. *)
Theorem validated_dependency_is_complete
        (env : Env) (dep : Dependency) (caller : string) (w : World)
        (is_local : bool) (dep' : Dependency) (w' : World) :
  validate_and_augment_dependency env dep caller w = (Ok (is_local, dep'), w') ->
  exists url u r,
    dep_url dep = Some url
    /\ Re.search_anchored url_pattern url = Some [u; r]
    /\ dep' = {| dep_url := Some url;
                 dep_revision :=
                   Some (if is_local
                         then PyPath.abspath (cwd env) (requested_revision dep)
                         else requested_revision dep);
                 dep_overwrite := dep_overwrite dep;
                 dep_mod_name := Some (destination_name u r) |}
    /\ is_local = path_exists env (requested_revision dep)
    /\ (is_local = true ->
        path_isdir env (requested_revision dep) = true
        /\ PyStr.contains DEFAULT_FLOW_MODULE_FOLDER (requested_revision dep) = false
        /\ (PyStr.startswith (cwd env) "/" = true ->
            PyStr.startswith (PyPath.abspath (cwd env) (requested_revision dep)) "/"
            = true))
    /\ files w' = files w /\ dirs w' = dirs w /\ asked w' = asked w
    /\ exists evs,
        trace w' = (trace w ++ evs)%list /\ forallb is_warning evs = true
        /\ length evs = if number_prefixed u then 1 else 0.
Proof.
  unfold validate_and_augment_dependency. fold (requested_revision dep).
  destruct (dep_url dep) as [url|]; [|discriminate].
  destruct (Re.search_anchored url_pattern url) as [[|u [|r [|? ?]]]|] eqn:E;
    try discriminate.
  destruct (number_prefixed r); [discriminate|].
  intros H. exists url, u, r. split; [reflexivity|]. split; [exact E|].
  unfold destination_name.
  assert (Hstep : exists evs,
             forallb is_warning evs = true
             /\ length evs = (if number_prefixed u then 1 else 0)
             /\ files w' = files w /\ dirs w' = dirs w /\ asked w' = asked w
             /\ trace w' = (trace w ++ evs)%list
             /\ (if negb (path_exists env (requested_revision dep))
                 then Re.search_nonword (requested_revision dep) = None
                      /\ is_local = false
                 else path_isdir env (requested_revision dep) = true
                      /\ PyStr.contains DEFAULT_FLOW_MODULE_FOLDER (requested_revision dep)
                         = false
                      /\ is_local = true)
             /\ dep' = {| dep_url := Some url;
                          dep_revision :=
                            Some (if is_local
                                  then PyPath.abspath (cwd env) (requested_revision dep)
                                  else requested_revision dep);
                          dep_overwrite := dep_overwrite dep;
                          dep_mod_name :=
                            Some ((if number_prefixed u then "user_" ++ u else u)
                                  ++ "/" ++ r) |}).
  { unfold bind, emit, ret, raise in H.
    destruct (number_prefixed u); cbn [fst snd] in H;
      (destruct (negb (path_exists env (requested_revision dep)));
       [ destruct (Re.search_nonword (requested_revision dep)); [discriminate|]
       | destruct (negb (path_isdir env (requested_revision dep))) eqn:Hdir;
         [discriminate|];
         destruct (PyStr.contains DEFAULT_FLOW_MODULE_FOLDER (requested_revision dep));
         [discriminate|]; apply negb_false_iff in Hdir ]);
      injection H as <- <- <-; eexists; cbn [files dirs asked trace];
      repeat split; try reflexivity; try assumption;
      rewrite ?app_nil_r; reflexivity. }
  destruct Hstep as (evs & Hevs & Hlen & Hf & Hd & Ha & Ht & Hrev & Hdep).
  split; [exact Hdep|].
  destruct (path_exists env (requested_revision dep)); cbn [negb] in Hrev.
  - destruct Hrev as (Hdir & Hcont & ->). split; [reflexivity|].
    split; [intros _; repeat split; auto; apply abspath_is_absolute|].
    repeat split; auto. exists evs. auto.
  - destruct Hrev as (_ & ->). split; [reflexivity|]. split; [discriminate|].
    repeat split; auto. exists evs. auto.
Qed.

Lemma validated_dependency_is_complete_witness :
  exists url u r,
    dep_url (Scenario.dep_at "12ab/local" "/home/me/src/widgets") = Some url
    /\ Re.search_anchored url_pattern url = Some [u; r]
    /\ destination_name u r = "user_12ab/local".
Proof.
  destruct (validated_dependency_is_complete Scenario.env
              (Scenario.dep_at "12ab/local" "/home/me/src/widgets") "__main__"
              Scenario.empty_world true
              {| dep_url := Some "12ab/local";
                 dep_revision := Some "/home/me/src/widgets";
                 dep_overwrite := None;
                 dep_mod_name := Some "user_12ab/local" |}
              (add_events Scenario.empty_world
                 [LogWarn "[__main__] url's username `12ab` is prefixed with a number"])
              eq_refl)
    as (url & u & r & Hurl & Hmatch & Hdep & _).
  exists url, u, r. split; [exact Hurl|]. split; [exact Hmatch|].
  now injection Hdep.
Defined.

(** X12. For a repository id whose name is not number-prefixed and a
    revision that does not exist as a path, the validator accepts the
    revision exactly when it is made of word characters only (the empty
    revision included): then the dependency is remote and keeps its
    revision. A revision with any other character in it, such as the dot of
    [v1.0] or the slash of [feature/x], is refused with a [ValueError]. *)
Theorem remote_revision_is_a_word
        (env : Env) (dep : Dependency) (caller : string) (w : World)
        (url u r : string) :
  dep_url dep = Some url ->
  Re.search_anchored url_pattern url = Some [u; r] ->
  number_prefixed r = false ->
  path_exists env (requested_revision dep) = false ->
  if PyStr.forallb_str PyStr.is_word (requested_revision dep)
  then fst (validate_and_augment_dependency env dep caller w)
       = Ok (false, {| dep_url := Some url;
                       dep_revision := Some (requested_revision dep);
                       dep_overwrite := dep_overwrite dep;
                       dep_mod_name := Some (destination_name u r) |})
  else exists msg,
      fst (validate_and_augment_dependency env dep caller w) = Raise (ValueError msg).
Proof.
  intros Hurl Hmatch Hname Hpath. unfold validate_and_augment_dependency.
  fold (requested_revision dep). rewrite Hurl, Hmatch, Hname, Hpath. cbn [negb].
  unfold destination_name, bind, emit, ret, raise.
  destruct (PyStr.forallb_str PyStr.is_word (requested_revision dep)) eqn:Hword.
  - apply search_nonword_none in Hword. rewrite Hword.
    now destruct (number_prefixed u).
  - destruct (Re.search_nonword (requested_revision dep)) eqn:Hsearch.
    + destruct (number_prefixed u); eexists; reflexivity.
    + apply search_nonword_none in Hsearch. congruence.
Qed.

Lemma remote_revision_is_a_word_witness :
  (exists msg,
      fst (validate_and_augment_dependency Scenario.env
             (Scenario.dep_at "acme/widgets" "v1.0") "__main__" Scenario.empty_world)
      = Raise (ValueError msg))
  /\ fst (validate_and_augment_dependency Scenario.env
            (Scenario.dep_at "acme/widgets" "") "__main__" Scenario.empty_world)
     = Ok (false, {| dep_url := Some "acme/widgets"; dep_revision := Some "";
                     dep_overwrite := None; dep_mod_name := Some "acme/widgets" |}).
Proof.
  split.
  - apply (remote_revision_is_a_word Scenario.env (Scenario.dep_at "acme/widgets" "v1.0")
             "__main__" Scenario.empty_world "acme/widgets" "acme" "widgets");
      reflexivity.
  - apply (remote_revision_is_a_word Scenario.env (Scenario.dep_at "acme/widgets" "")
             "__main__" Scenario.empty_world "acme/widgets" "acme" "widgets");
      reflexivity.
Defined.

(* ===================================================================== *)
(** * Removing and linking *)
(* ===================================================================== *)

Lemma bind_inv {A B} (m : M A) (f : A -> M B) w b w' :
  bind m f w = (Ok b, w') -> exists a w1, m w = (Ok a, w1) /\ f a w1 = (Ok b, w').
Proof.
  unfold bind. destruct (m w) as [[a|e] w1]; [|discriminate]. eauto.
Qed.

Lemma get_remove_same {V} (d : Dict.t V) k : Dict.get (Store.remove d k) k = None.
Proof.
  induction d as [|[k' v] d IH]; cbn; [reflexivity|].
  destruct (String.eqb_spec k' k) as [->|Hne]; [exact IH|].
  cbn. destruct (String.eqb_spec k' k); [contradiction | exact IH].
Qed.

Lemma get_remove_other {V} (d : Dict.t V) k p :
  p <> k -> Dict.get (Store.remove d k) p = Dict.get d p.
Proof.
  intros Hne. induction d as [|[k' v] d IH]; cbn; [reflexivity|].
  destruct (String.eqb_spec k' k) as [->|Hk].
  - destruct (String.eqb_spec k p); [congruence | exact IH].
  - cbn. destruct (String.eqb_spec k' p); [reflexivity | exact IH].
Qed.

(** X13. [remove_dir_or_link] succeeds exactly where
    [is_local_sync_dir_valid] holds, which is how the fetchers guard it.
    Then nothing stands at the path any more; a link was removed as a link,
    and what it pointed to stands as it was; anything else was removed as a
    tree. Elsewhere it raises a [ValueError] and changes nothing. *)
Theorem removal_succeeds_where_valid (path : string) (w : World) :
  exists valid,
    is_local_sync_dir_valid path w = (Ok valid, w)
    /\ if valid
       then exists w' removal,
           remove_dir_or_link path w = (Ok tt, w')
           /\ Dict.get (dirs w') path = None
           /\ trace w' = (trace w ++ [removal])%list
           /\ match Dict.get (dirs w) path with
              | Some (Link target) =>
                  removal = RemoveLink path
                  /\ (target <> path ->
                      Dict.get (dirs w') target = Dict.get (dirs w) target)
              | _ => removal = RemoveTree path
              end
       else exists msg, remove_dir_or_link path w = (Raise (ValueError msg), w).
Proof.
  unfold is_local_sync_dir_valid, remove_dir_or_link, bind, os_path_isdir,
    os_path_islink, ret, emit, del_dir, raise.
  eexists. split; [reflexivity|]. cbn [fst snd].
  destruct (Dict.get (dirs w) path) as [[n|target]|] eqn:Hget.
  - rewrite orb_false_r.
    destruct (match resolve w path with Some (Dir _) => true | _ => false end).
    + do 2 eexists. split; [reflexivity|]. cbn [dirs trace].
      repeat split. apply get_remove_same.
    + eexists. reflexivity.
  - rewrite orb_true_r. do 2 eexists. split; [reflexivity|]. cbn [dirs trace].
    repeat split; [apply get_remove_same | intros Hne; now apply get_remove_other].
  - rewrite orb_false_r.
    destruct (match resolve w path with Some (Dir _) => true | _ => false end).
    + do 2 eexists. split; [reflexivity|]. cbn [dirs trace].
      repeat split. apply get_remove_same.
    + eexists. reflexivity.
Qed.

Lemma within_self destination p : within destination p = false -> p <> destination.
Proof.
  unfold within. intros H ->. now rewrite String.eqb_refl in H.
Qed.

Lemma only_destination_refl destination P w : only_destination destination P w w.
Proof. split; [auto | apply only_events_refl]. Qed.

Lemma only_destination_trans destination P a b c :
  only_destination destination P a b -> only_destination destination P b c ->
  only_destination destination P a c.
Proof.
  intros (D1 & E1) (D2 & E2). split.
  - intros p entry H1 H2 H. apply D2; auto.
  - eapply only_events_trans; eauto.
Qed.

Lemma only_destination_emit destination P e :
  P e = true -> stable (only_destination destination P) (emit e).
Proof. intros He w. split; [auto|]. exists [e]. cbn. now rewrite He. Qed.

Lemma only_destination_set_dir destination P p d :
  p = destination \/ p = PyPath.dirname destination ->
  stable (only_destination destination P) (set_dir p d).
Proof.
  intros Hp w. split.
  - intros q entry H1 H2 H. cbn. rewrite get_set_other; [exact H|].
    apply within_self in H1. destruct Hp; congruence.
  - exists []. cbn. now rewrite app_nil_r.
Qed.

Lemma only_destination_del_dir destination P :
  stable (only_destination destination P) (del_dir destination).
Proof.
  intros w. split.
  - intros q entry H1 H2 H. cbn. rewrite get_remove_other; [exact H|].
    now apply within_self.
  - exists []. cbn. now rewrite app_nil_r.
Qed.

Lemma only_destination_fetch_local env repo file_path sync_dir :
  stable (only_destination (PyPath.abspath (cwd env) sync_dir)
            (links file_path (PyPath.abspath (cwd env) sync_dir)))
         (fetch_local env repo file_path sync_dir).
Proof.
  set (destination := PyPath.abspath (cwd env) sync_dir).
  unfold fetch_local, is_local_sync_dir_valid, remove_dir_or_link, os_makedirs,
    os_symlink, os_path_isdir, os_path_islink, os_path_exists.
  fold destination.
  repeat first
    [ apply only_destination_del_dir
    | apply only_destination_set_dir; (now left) || (now right)
    | apply only_destination_emit; cbn [links]; now rewrite ?String.eqb_refl
    | stable_step (only_destination_refl destination (links file_path destination))
                  (only_destination_trans destination (links file_path destination)) ].
Qed.

Lemma fetch_local_ensures env repo file_path sync_dir :
  ensures (fun m w' =>
             m = {| repo_id := repo; revision := file_path;
                    commit_hash := NO_COMMIT_HASH; cache_dir := file_path;
                    sync_dir := PyPath.abspath (cwd env) sync_dir |}
             /\ Dict.get (dirs w') (PyPath.abspath (cwd env) sync_dir)
                = Some (Link file_path))
          (fetch_local env repo file_path sync_dir).
Proof.
  intros w m w' H. unfold fetch_local in H.
  apply bind_inv in H as (valid & w1 & _ & H).
  apply bind_inv in H as (u1 & w2 & _ & H).
  apply bind_inv in H as (u2 & w3 & _ & H).
  apply bind_inv in H as (u3 & w4 & Hlink & H).
  injection H as <- <-. split; [reflexivity|].
  unfold os_symlink in Hlink. apply bind_inv in Hlink as (there & w5 & _ & Hlink).
  destruct there; [discriminate|].
  apply bind_inv in Hlink as (u4 & w6 & _ & Hlink).
  injection Hlink as _ <-. cbn [dirs]. apply get_set_same.
Qed.

(** X14. [fetch_local] works on the destination only, whatever the
    outcome: it removes nothing but what stood at the destination, links
    nothing but the destination, and writes no file; a directory or a link
    that stood outside the destination (its parent aside) stands there as
    it was, the local directory it links to among them. When it succeeds,
    the destination is a link to the local directory, whatever directory or
    link stood there before, and the descriptor has the local path as
    revision and as cache location and the sentinel as commit hash. *)
Theorem fetch_local_links_the_destination
        (env : Env) (repo file_path sync_dir : string) (w : World) :
  let destination := PyPath.abspath (cwd env) sync_dir in
  let run := fetch_local env repo file_path sync_dir w in
  only_destination destination (links file_path destination) w (snd run)
  /\ forall m,
      fst run = Ok m ->
      m = {| repo_id := repo; revision := file_path; commit_hash := NO_COMMIT_HASH;
             cache_dir := file_path; sync_dir := destination |}
      /\ Dict.get (dirs (snd run)) destination = Some (Link file_path).
Proof.
  cbv zeta. split; [apply only_destination_fetch_local|].
  intros m Hm.
  destruct (fetch_local env repo file_path sync_dir w) as [r w'] eqn:Hrun.
  cbn [fst snd] in *. subst r. exact (fetch_local_ensures _ _ _ _ _ _ _ Hrun).
Qed.

Lemma fetch_local_links_the_destination_witness :
  Dict.get
    (dirs (snd (fetch_local Scenario.env "acme/local" "/home/me/src/widgets"
                  "/home/me/flow_modules/acme/local" Scenario.local_world)))
    "/home/me/flow_modules/acme/local"
  = Some (Link "/home/me/src/widgets").
Proof.
  apply (proj2 (fetch_local_links_the_destination Scenario.env "acme/local"
                  "/home/me/src/widgets" "/home/me/flow_modules/acme/local"
                  Scenario.local_world) Scenario.local_widgets).
  reflexivity.
Defined.

Lemma events_emit P e : P e = true -> stable (only_events P) (emit e).
Proof. intros He w. exists [e]. cbn. now rewrite He. Qed.

Lemma events_set_dir P p d : stable (only_events P) (set_dir p d).
Proof. intro w. exists []. cbn. now rewrite app_nil_r. Qed.

Lemma events_del_dir P p : stable (only_events P) (del_dir p).
Proof. intro w. exists []. cbn. now rewrite app_nil_r. Qed.

Lemma events_yes_no P env q :
  (forall question answer, P (AskUser question answer) = true) ->
  stable (only_events P) (yes_no env q).
Proof. intros HP w. eexists [_]. cbn. now rewrite HP. Qed.

(** X15. [sync_local_dep] works offline, whatever the outcome: it logs,
    asks, removes what stood at the destination and links it; it never asks
    the hub for a commit hash or a snapshot, never scans a cache directory,
    never writes a file and never runs [pip]. *)
Theorem sync_local_dep_works_offline
        (env : Env) (previous : option FlowModuleSpec)
        (repo mod_name rev caller sync_root : string) (overwrite : bool) (w : World) :
  only_events is_local_event w
    (snd (sync_local_dep env previous repo mod_name rev caller sync_root overwrite w)).
Proof.
  revert w.
  change (stable (only_events is_local_event)
            (sync_local_dep env previous repo mod_name rev caller sync_root overwrite)).
  unfold sync_local_dep, fetch_local, is_local_sync_dir_valid, remove_dir_or_link,
    os_makedirs, os_symlink, os_path_isdir, os_path_islink, os_path_exists, assert_eq.
  repeat first
    [ apply events_set_dir | apply events_del_dir
    | apply events_yes_no; reflexivity
    | apply events_emit; reflexivity
    | stable_step (only_events_refl is_local_event)
                  (@only_events_trans is_local_event) ].
Qed.

(* ===================================================================== *)
(** * Fetching from the hub *)
(* ===================================================================== *)

Lemma rsplit_rev_app a b :
  count_char "/" a = 0 ->
  PyPath.rsplit_rev (a ++ String "/" b) = (a, String "/" b).
Proof.
  induction a as [|x a IH]; cbn [append PyPath.rsplit_rev count_char]; [reflexivity|].
  unfold PyPath.sep. destruct (Ascii.eqb x "/"); [discriminate|].
  intros H. now rewrite (IH H).
Qed.

(** The last component of a path is its base name. *)
Lemma basename_last parent name :
  count_char "/" name = 0 -> PyPath.basename (parent ++ "/" ++ name) = name.
Proof.
  intros H. unfold PyPath.basename, PyPath.rsplit_sep.
  rewrite rev_append, (rev_append "/" name), append_assoc.
  change (PyStr.rev "/" ++ PyStr.rev parent) with (String "/" (PyStr.rev parent)).
  rewrite rsplit_rev_app by (now rewrite count_char_rev).
  cbn [snd]. apply rev_involutive.
Qed.

Lemma snapshot_download_inv env repo cache_root rev local_dir w path w' :
  snapshot_download env repo cache_root rev local_dir w = (Ok path, w') ->
  exists cache_mod_dir content,
    hub_snapshot env repo rev cache_root = Ok (cache_mod_dir, content)
    /\ path = match local_dir with Some dir => dir | None => cache_mod_dir end
    /\ dirs w' = Dict.set (dirs w) path (Tree content).
Proof.
  unfold snapshot_download. intros H.
  apply bind_inv in H as (u & w1 & Hemit & H). injection Hemit as _ <-.
  apply bind_inv in H as ([cache_mod_dir content] & w2 & Hhub & H).
  unfold lift in Hhub. injection Hhub as Hhub <-.
  exists cache_mod_dir, content. split; [exact Hhub|].
  destruct local_dir as [dir|]; apply bind_inv in H as (u2 & w3 & Hset & H);
    injection H as <- <-; injection Hset as _ <-; split; reflexivity.
Qed.

Lemma create_init_py_dirs base_dir w :
  exists w', create_init_py base_dir w = (Ok tt, w') /\ dirs w' = dirs w.
Proof.
  unfold create_init_py, bind, os_path_exists.
  destruct (resolve w _); cbn [negb]; eexists; split; reflexivity.
Qed.

Lemma fetch_remote_ensures env repo rev sync_dir cache_root :
  ensures (fun m w' =>
             exists cache_mod_dir content,
               hub_snapshot env repo rev cache_root = Ok (cache_mod_dir, content)
               /\ m = {| repo_id := repo; revision := rev;
                         commit_hash := PyPath.basename cache_mod_dir;
                         cache_dir := cache_mod_dir;
                         sync_dir := PyPath.abspath (cwd env) sync_dir |}
               /\ Dict.get (dirs w') cache_mod_dir = Some (Tree content)
               /\ Dict.get (dirs w') (PyPath.abspath (cwd env) sync_dir)
                  = Some (Tree content))
          (fetch_remote env repo rev sync_dir cache_root).
Proof.
  intros w m w' H. unfold fetch_remote in H.
  apply bind_inv in H as (valid & w1 & _ & H).
  apply bind_inv in H as (u1 & w2 & _ & H).
  apply bind_inv in H as (u2 & w3 & _ & H).
  apply bind_inv in H as (u3 & w4 & _ & H).
  apply bind_inv in H as (cache_mod_dir & w5 & Hcache & H).
  apply bind_inv in H as (local_dir & w6 & Hsync & H).
  injection H as <- <-.
  apply snapshot_download_inv in Hcache as (p & content & Hhub & -> & Hd5).
  apply snapshot_download_inv in Hsync as (p' & content' & Hhub' & -> & Hd6).
  rewrite Hhub in Hhub'. injection Hhub' as <- <-.
  exists p, content. split; [exact Hhub|]. split; [reflexivity|].
  rewrite Hd6, Hd5.
  split; [|apply get_set_same].
  destruct (String.eqb_spec p (PyPath.abspath (cwd env) sync_dir)) as [->|Hne].
  - apply get_set_same.
  - rewrite get_set_other by exact Hne. apply get_set_same.
Qed.

(** X16. What a successful [fetch_remote] returns and leaves: the
    descriptor has the requested origin id and revision, the snapshot
    directory that the hub returned as cache location, the absolute
    destination as sync location, and the base name of the snapshot
    directory as commit hash, which is the last component of that path; the
    cache location and the sync location both hold the snapshot. *)
Theorem fetch_remote_describes_the_snapshot
        (env : Env) (repo rev target cache_root : string)
        (w : World) (m : FlowModuleSpec) (w' : World) :
  fetch_remote env repo rev target cache_root w = (Ok m, w') ->
  exists cache_mod_dir content,
    hub_snapshot env repo rev cache_root = Ok (cache_mod_dir, content)
    /\ m = {| repo_id := repo; revision := rev;
              commit_hash := extract_commit_hash_from_cache_mod_dir cache_mod_dir;
              cache_dir := cache_mod_dir;
              sync_dir := PyPath.abspath (cwd env) target |}
    /\ Dict.get (dirs w') (cache_dir m) = Some (Tree content)
    /\ Dict.get (dirs w') (sync_dir m) = Some (Tree content)
    /\ forall parent hash,
        cache_mod_dir = parent ++ "/" ++ hash -> count_char "/" hash = 0 ->
        commit_hash m = hash.
Proof.
  intros H. apply fetch_remote_ensures in H
    as (cache_mod_dir & content & Hhub & -> & Hcache & Hsync).
  exists cache_mod_dir, content. cbn [cache_dir sync_dir commit_hash].
  repeat split; auto.
  intros parent hash -> Hhash. now apply basename_last.
Qed.

Lemma fetch_remote_describes_the_snapshot_witness :
  exists cache_mod_dir content,
    hub_snapshot Scenario.env "acme/widgets" "main" Scenario.cache_root
    = Ok (cache_mod_dir, content)
    /\ commit_hash Scenario.widgets
       = extract_commit_hash_from_cache_mod_dir cache_mod_dir.
Proof.
  destruct (fetch_remote_describes_the_snapshot Scenario.env "acme/widgets" "main"
              "/home/me/flow_modules/acme/widgets" Scenario.cache_root
              Scenario.empty_world Scenario.widgets
              (snd (fetch_remote Scenario.env "acme/widgets" "main"
                      "/home/me/flow_modules/acme/widgets" Scenario.cache_root
                      Scenario.empty_world)) eq_refl)
    as (cache_mod_dir & content & Hhub & Hm & _).
  exists cache_mod_dir, content. split; [exact Hhub|]. now rewrite Hm.
Defined.

Lemma lookup_entry_nodup name x : forall entries,
    NoDup (map fst entries) -> In (name, x) entries ->
    lookup_entry name entries = Some x.
Proof.
  induction entries as [|[n y] entries IH]; cbn [map fst]; intros Hnd Hin; [destruct Hin|].
  inversion Hnd as [|? ? Hn Hrest]; subst. cbn [lookup_entry].
  destruct Hin as [[= -> ->]|Hin].
  - now rewrite String.eqb_refl.
  - destruct (String.eqb_spec n name) as [->|_]; [|now apply IH].
    exfalso. apply Hn. change name with (fst (name, x)). now apply in_map.
Qed.

(** A working copy that is the flat snapshot itself is not modified. *)
Lemma flat_snapshot_is_unmodified entries :
  NoDup (map fst entries) ->
  Forall (fun entry => skipped (fst entry) = false -> exists c, snd entry = File c)
         entries ->
  is_sync_dir_modified (Some (Dir entries)) (Dir entries) = Ok false.
Proof.
  intros Hnd Hflat.
  assert (Hin : forall entry, In entry entries ->
                              skipped (fst entry) = false ->
                              exists c, snd entry = File c
                                        /\ child (Some (Dir entries)) (fst entry)
                                           = Some (File c)).
  { intros [name x] Hentry Hskip.
    destruct (proj1 (Forall_forall _ _) Hflat _ Hentry Hskip) as [c Hc].
    cbn [fst snd] in *. subst x. exists c. split; [reflexivity|].
    cbn [child]. now apply lookup_entry_nodup. }
  rewrite is_sync_dir_modified_flat.
  - f_equal. apply not_true_is_false. intros H. apply existsb_exists in H
      as (entry & Hentry & Hdiff).
    unfold differs in Hdiff. apply andb_prop in Hdiff as [Hskip Hdiff].
    apply negb_true_iff in Hskip.
    destruct (Hin entry Hentry Hskip) as (c & Hc & Hchild).
    rewrite Hc, Hchild, String.eqb_refl in Hdiff. discriminate.
  - apply Forall_forall. intros entry Hentry Hskip.
    destruct (Hin entry Hentry Hskip) as (c & Hc & Hchild).
    split; [eauto | now rewrite Hchild].
Qed.

(** X17. Right after a successful [fetch_remote] of a snapshot without
    visible subdirectories, the scan of the new working copy against the
    new cache location answers "not modified". *)
Theorem fresh_fetch_is_unmodified
        (env : Env) (repo rev target cache_root : string)
        (w : World) (m : FlowModuleSpec) (w' : World)
        (cache_mod_dir : string) (entries : list (string * node)) :
  fetch_remote env repo rev target cache_root w = (Ok m, w') ->
  hub_snapshot env repo rev cache_root = Ok (cache_mod_dir, Dir entries) ->
  NoDup (map fst entries) ->
  Forall (fun entry => skipped (fst entry) = false -> exists c, snd entry = File c)
         entries ->
  is_sync_dir_modified_at (sync_dir m) (cache_dir m) w'
  = (Ok false, add_events w' [ScanDir (cache_dir m)]).
Proof.
  intros H Hhub Hnd Hflat. apply fetch_remote_ensures in H
    as (p & content & Hhub' & -> & Hcache & Hsync).
  rewrite Hhub in Hhub'. injection Hhub' as <- <-.
  cbn [cache_dir sync_dir]. rewrite is_sync_dir_modified_at_run.
  unfold resolve. rewrite Hcache, Hsync. f_equal.
  now apply flat_snapshot_is_unmodified.
Qed.

Lemma fresh_fetch_is_unmodified_witness :
  fst (is_sync_dir_modified_at (sync_dir Scenario.widgets) (cache_dir Scenario.widgets)
         (snd (fetch_remote Scenario.env "acme/widgets" "main"
                 "/home/me/flow_modules/acme/widgets" Scenario.cache_root
                 Scenario.empty_world)))
  = Ok false.
Proof.
  assert (Hnd : NoDup (map fst [("pip_requirements.txt", File "");
                                ("flow.py", File "x = 1")])).
  { cbn [map fst]. repeat constructor; cbn; intuition discriminate. }
  assert (Hflat : Forall (fun entry : string * node =>
                            skipped (fst entry) = false -> exists c, snd entry = File c)
                         [("pip_requirements.txt", File ""); ("flow.py", File "x = 1")]).
  { repeat constructor; intros _; eexists; reflexivity. }
  now rewrite (fresh_fetch_is_unmodified Scenario.env "acme/widgets" "main"
                 "/home/me/flow_modules/acme/widgets" Scenario.cache_root
                 Scenario.empty_world Scenario.widgets
                 (snd (fetch_remote Scenario.env "acme/widgets" "main"
                         "/home/me/flow_modules/acme/widgets" Scenario.cache_root
                         Scenario.empty_world))
                 (cache_dir Scenario.widgets)
                 [("pip_requirements.txt", File ""); ("flow.py", File "x = 1")]
                 eq_refl eq_refl Hnd Hflat).
Defined.

Lemma snapshot_download_fails env repo cache_root rev local_dir w e :
  hub_snapshot env repo rev cache_root = Raise e ->
  snapshot_download env repo cache_root rev local_dir w
  = (Raise e, add_events w [HubSnapshotDownload repo rev cache_root local_dir]).
Proof.
  intros H. unfold snapshot_download.
  rewrite (@bind_ok _ _ _ _ _ _ _ (emit_run _ w)).
  apply bind_raise. unfold lift. now rewrite H.
Qed.

(** X18. [fetch_remote] removes the working copy before it downloads: when
    a directory stands at the destination, its parent is a directory, and
    the hub fails to deliver the snapshot, the call fails with the
    exception of the hub and the directory that stood at the destination is
    gone. *)
Theorem failed_download_loses_the_working_copy
        (env : Env) (repo rev target cache_root : string) (w : World)
        (e : exn) (old parent : list (string * node)) :
  let destination := PyPath.abspath (cwd env) target in
  let run := fetch_remote env repo rev target cache_root w in
  Dict.get (dirs w) destination = Some (Tree (Dir old)) ->
  Dict.get (dirs w) (PyPath.dirname destination) = Some (Tree (Dir parent)) ->
  PyPath.dirname destination <> destination ->
  hub_snapshot env repo rev cache_root = Raise e ->
  fst run = Raise e
  /\ Dict.get (dirs (snd run)) destination = None
  /\ existsb is_fetch (skipn (length (trace w)) (trace (snd run))) = true.
Proof.
  intros destination run Hdest Hparent Hne Hhub. subst run. unfold fetch_remote.
  fold destination.
  assert (Hvalid : is_local_sync_dir_valid destination w = (Ok true, w)).
  { unfold is_local_sync_dir_valid, bind, os_path_isdir, os_path_islink, ret, resolve.
    now rewrite Hdest. }
  rewrite (@bind_ok _ _ _ _ _ _ _ Hvalid).
  set (w1 := {| files := files w; dirs := Store.remove (dirs w) destination;
                asked := asked w;
                trace := (trace w ++ [RemoveTree destination])%list |}).
  assert (Hremove : remove_dir_or_link destination w = (Ok tt, w1)).
  { unfold remove_dir_or_link, bind, os_path_isdir, os_path_islink, resolve, emit,
      del_dir. cbv beta. cbn [fst snd]. now rewrite !Hdest. }
  rewrite (@bind_ok _ _ _ _ _ _ _ Hremove).
  assert (Hmk : os_makedirs (PyPath.dirname destination) w1 = (Ok tt, w1)).
  { unfold os_makedirs, bind, os_path_exists, os_path_isdir, resolve, ret.
    subst w1. cbv beta. cbn [dirs fst snd].
    rewrite !get_remove_other by exact Hne. rewrite !Hparent.
    cbn [negb]. cbv beta. cbn [dirs fst snd].
    rewrite !get_remove_other by exact Hne. now rewrite !Hparent. }
  rewrite (@bind_ok _ _ _ _ _ _ _ Hmk).
  destruct (create_init_py_dirs (PyPath.dirname destination) w1) as (w2 & Hinit & Hd2).
  rewrite (@bind_ok _ _ _ _ _ _ _ Hinit).
  assert (Ht2 : exists evs, trace w2 = (trace w1 ++ evs)%list).
  { pose proof (grows_emit (LogInfo "") w2) as _.
    assert (Hg : stable (only_events any_event)
                   (create_init_py (PyPath.dirname destination))).
    { unfold create_init_py, os_path_exists. grows_tac. }
    specialize (Hg w1). rewrite Hinit in Hg. destruct Hg as (evs & Hevs & _). eauto. }
  destruct Ht2 as (evs & Ht2).
  rewrite (@bind_raise _ _ _ _ _ _ _
             (snapshot_download_fails env repo cache_root rev None w2 e Hhub)).
  cbn [fst snd]. split; [reflexivity|]. split.
  - cbn [dirs add_events]. rewrite Hd2. subst w1. cbn [dirs]. apply get_remove_same.
  - cbn [trace add_events]. rewrite Ht2. subst w1. cbn [trace]. rewrite <- !app_assoc.
    rewrite skipn_app, skipn_all, Nat.sub_diag. cbn [skipn app].
    cbn [existsb is_fetch orb]. rewrite existsb_app. cbn. apply orb_true_r.
Qed.

Lemma failed_download_loses_the_working_copy_witness :
  let run :=
    fetch_remote Outage.env "acme/widgets" "main" "/home/me/flow_modules/acme/widgets"
      Scenario.cache_root Scenario.synced_world in
  fst run = Raise (HubError "connection refused")
  /\ Dict.get (dirs (snd run)) "/home/me/flow_modules/acme/widgets" = None
  /\ existsb is_fetch (skipn (length (trace Scenario.synced_world)) (trace (snd run)))
     = true.
Proof.
  apply (failed_download_loses_the_working_copy Outage.env "acme/widgets" "main"
           "/home/me/flow_modules/acme/widgets" Scenario.cache_root
           Scenario.synced_world (HubError "connection refused")
           [("pip_requirements.txt", File ""); ("flow.py", File "x = 1")] []).
  - reflexivity.
  - reflexivity.
  - vm_compute. discriminate.
  - reflexivity.
Defined.

(* ===================================================================== *)
(** * The confirmation *)
(* ===================================================================== *)

Lemma yes_no_run env question w :
  yes_no env question w
  = (Ok (yes_no_question env (asked w)),
     after_question w [] question (yes_no_question env (asked w))).
Proof. reflexivity. Qed.

Lemma after_question_add_events w evs question answer :
  after_question (add_events w evs) [] question answer
  = after_question w evs question answer.
Proof.
  unfold after_question, add_events. cbn [files dirs asked trace app].
  now rewrite <- app_assoc.
Qed.

(** X19. With a previous descriptor at the derived sync location, and the
    overwrite flag set or a module id that differs from the recorded one,
    the user decides. [sync_remote_dep], once the lookup at the hub and the
    scan have returned, asks one question: on "no" it returns the previous
    descriptor and has changed no file and no directory; on "yes" it is
    [fetch_remote] to the recorded sync location. [sync_local_dep], for a
    revision that is a directory, asks one question at once: on "no" it
    returns the previous descriptor, on "yes" it is [fetch_local]. *)
Theorem confirmation_decides_the_overwrite
        (env : Env) (previous : FlowModuleSpec)
        (repo mod_name rev caller sync_root cache_root : string)
        (overwrite : bool) (w : World) :
  let answer := yes_no_question env (asked w) in
  derived_sync_dir env sync_root mod_name = sync_dir previous ->
  overwrite = true \/ mod_id previous <> build_mod_id repo rev ->
  (forall sha cache verdict,
      hub_repo_sha env repo rev = Ok sha ->
      resolve w (cache_dir previous) = Some cache ->
      is_sync_dir_modified (resolve w (sync_dir previous)) cache = Ok verdict ->
      exists question,
        let asked_world :=
          after_question w [HubRepoInfo repo rev; ScanDir (cache_dir previous)]
            question answer in
        sync_remote_dep env (Some previous) repo mod_name rev caller sync_root
          cache_root overwrite w
        = if answer
          then fetch_remote env repo rev (sync_dir previous) cache_root asked_world
          else (Ok previous, asked_world))
  /\ (path_isdir env rev = true ->
      exists question,
        let asked_world := after_question w [] question answer in
        sync_local_dep env (Some previous) repo mod_name rev caller sync_root
          overwrite w
        = if answer
          then fetch_local env repo rev (sync_dir previous) asked_world
          else (Ok previous, asked_world)).
Proof.
  intros answer Hsd Hwhy. unfold derived_sync_dir in Hsd.
  assert (Hid : overwrite = false ->
                negb (String.eqb (mod_id previous) (build_mod_id repo rev)) = true).
  { intros ->. destruct Hwhy as [?|Hne]; [discriminate|].
    apply negb_true_iff. now apply String.eqb_neq. }
  split.
  - intros sha cache verdict Hsha Hcache Hscan.
    unfold sync_remote_dep. rewrite Hsd.
    rewrite (@bind_ok _ _ _ _ _ _ _ (assert_eq_same _ w)).
    pose proof (retrive_commit_hash_from_remote_run env repo rev w) as Hlook.
    rewrite Hsha in Hlook. rewrite (@bind_ok _ _ _ _ _ _ _ Hlook).
    pose proof (is_sync_dir_modified_at_run (sync_dir previous) (cache_dir previous)
                  (add_events w [HubRepoInfo repo rev])) as Hs.
    rewrite !resolve_add_events, Hcache, Hscan, add_events_app in Hs.
    rewrite (@bind_ok _ _ _ _ _ _ _ Hs). cbn [app].
    destruct overwrite.
    + eexists. rewrite (@bind_ok _ _ _ _ _ _ _ (yes_no_run _ _ _)).
      rewrite after_question_add_events. cbn [asked add_events]. fold answer.
      destruct answer; reflexivity.
    + rewrite (Hid eq_refl).
      eexists. rewrite (@bind_ok _ _ _ _ _ _ _ (yes_no_run _ _ _)).
      rewrite after_question_add_events. cbn [asked add_events]. fold answer.
      destruct answer; reflexivity.
  - intros Hdir. unfold sync_local_dep. rewrite Hdir, Hsd. cbn [negb].
    rewrite (@bind_ok _ _ _ _ _ _ _ (assert_eq_same _ w)).
    destruct overwrite.
    + eexists. rewrite (@bind_ok _ _ _ _ _ _ _ (yes_no_run _ _ _)). fold answer.
      destruct answer; reflexivity.
    + rewrite (Hid eq_refl).
      eexists. rewrite (@bind_ok _ _ _ _ _ _ _ (yes_no_run _ _ _)). fold answer.
      destruct answer; reflexivity.
Qed.

Lemma confirmation_decides_the_overwrite_witness :
  exists question,
    sync_remote_dep Cautious.env (Some Scenario.widgets) "acme/widgets" "acme/widgets"
      "main" "__main__" Scenario.sync_root Scenario.cache_root true Scenario.clean_world
    = (Ok Scenario.widgets,
       after_question Scenario.clean_world
         [HubRepoInfo "acme/widgets" "main"; ScanDir (cache_dir Scenario.widgets)]
         question false).
Proof.
  destruct (confirmation_decides_the_overwrite Cautious.env Scenario.widgets
              "acme/widgets" "acme/widgets" "main" "__main__" Scenario.sync_root
              Scenario.cache_root true Scenario.clean_world eq_refl
              (or_introl eq_refl)) as [Hremote _].
  apply (Hremote "abc123" Scenario.snapshot_tree false); reflexivity.
Defined.

(* ===================================================================== *)
(** * What a synchronisation records *)
(* ===================================================================== *)

Lemma validate_and_augment_dependency_keys env dep caller w is_local dep' w' :
  validate_and_augment_dependency env dep caller w = (Ok (is_local, dep'), w') ->
  exists url rev name,
    dep_url dep = Some url /\ dep_url dep' = Some url
    /\ dep_revision dep' = Some rev /\ dep_mod_name dep' = Some name.
Proof.
  unfold validate_and_augment_dependency.
  destruct (dep_url dep) as [url|]; [|discriminate].
  destruct (Re.search_anchored url_pattern url) as [[|u [|r [|? ?]]]|];
    try discriminate.
  destruct (number_prefixed r); [discriminate|].
  unfold bind, emit, ret, raise.
  destruct (number_prefixed u); cbn [fst snd];
    (destruct (negb (path_exists env _));
     [ destruct (Re.search_nonword _); [discriminate|]
     | destruct (negb (path_isdir env _)); [discriminate|];
       destruct (PyStr.contains _ _); [discriminate|] ]);
    intros [= <- <- <-]; repeat eexists.
Qed.

Lemma ensures_returns {A} (Q : A -> Prop) (m : M A) :
  ensures (fun a _ => Q a) m -> returns Q m.
Proof. intros H w a w' Hrun. exact (H w a w' Hrun). Qed.

Lemma returns_weaken {A} (P Q : A -> Prop) (m : M A) :
  (forall a, P a -> Q a) -> returns P m -> returns Q m.
Proof. intros HPQ H w a w' Hrun. apply HPQ. exact (H w a w' Hrun). Qed.

Lemma fetch_remote_repo env repo rev target cache_root :
  returns (fun m => repo_id m = repo) (fetch_remote env repo rev target cache_root).
Proof.
  intros w m w' H. apply fetch_remote_ensures in H as (p & c & _ & -> & _). reflexivity.
Qed.

Lemma fetch_local_repo env repo file_path target :
  returns (fun m => repo_id m = repo) (fetch_local env repo file_path target).
Proof.
  intros w m w' H. apply fetch_local_ensures in H as [-> _]. reflexivity.
Qed.

Ltac returns_tac :=
  repeat first
    [ apply returns_raise
    | apply returns_ret; (now left) || (now right)
    | apply returns_bind; intro
    | match goal with
      | |- returns _ (if ?b then _ else _) => destruct b
      end ].

(** The descriptor that the reconciliation of a dependency returns is the
    previous one or one for the requested origin id. *)
Lemma sync_remote_dep_repo env previous repo mod_name rev caller sync_root cache_root
      overwrite :
  returns (fun m => repo_id m = repo \/ previous = Some m)
          (sync_remote_dep env previous repo mod_name rev caller sync_root cache_root
             overwrite).
Proof.
  assert (Hfetch : forall target,
             returns (fun m => repo_id m = repo \/ previous = Some m)
                     (fetch_remote env repo rev target cache_root)).
  { intros target. eapply returns_weaken; [|apply fetch_remote_repo]. now left. }
  unfold sync_remote_dep. destruct previous as [previous|].
  - repeat first [ apply Hfetch | progress returns_tac ].
  - repeat first [ apply Hfetch | progress returns_tac ].
Qed.

Lemma sync_local_dep_repo env previous repo mod_name rev caller sync_root overwrite :
  returns (fun m => repo_id m = repo \/ previous = Some m)
          (sync_local_dep env previous repo mod_name rev caller sync_root overwrite).
Proof.
  assert (Hfetch : forall target,
             returns (fun m => repo_id m = repo \/ previous = Some m)
                     (fetch_local env repo rev target)).
  { intros target. eapply returns_weaken; [|apply fetch_local_repo]. now left. }
  unfold sync_local_dep. destruct (negb (path_isdir env rev)); [apply returns_raise|].
  destruct previous as [previous|].
  - repeat first [ apply Hfetch | progress returns_tac ].
  - repeat first [ apply Hfetch | progress returns_tac ].
Qed.

(** One turn of the loop records a descriptor under the [url] of the
    dependency. *)
Lemma sync_dependency_records env all_overwrite sync_root cache_root caller s dep w s' w' :
  keyed (_mods s) ->
  sync_dependency env all_overwrite sync_root cache_root caller s dep w = (Ok s', w') ->
  exists url m, dep_url dep = Some url /\ repo_id m = url /\ s' = add_mod s m.
Proof.
  intros Hk H. unfold sync_dependency in H.
  apply bind_inv in H as ([is_local dep'] & w1 & Hval & H).
  apply validate_and_augment_dependency_keys in Hval
    as (url & rev & name & Hurl & Hurl' & Hrev & Hname).
  rewrite Hurl', Hrev, Hname in H.
  apply bind_inv in H as (m & w2 & Hsync & H).
  apply bind_inv in H as (u & w3 & _ & H). injection H as <- _.
  exists url, m. split; [exact Hurl|]. split; [|reflexivity].
  assert (Hm : repo_id m = url \/ get_mod s url = Some m).
  { destruct is_local.
    - exact (sync_local_dep_repo _ _ _ _ _ _ _ _ _ _ _ Hsync).
    - exact (sync_remote_dep_repo _ _ _ _ _ _ _ _ _ _ _ _ Hsync). }
  destruct Hm as [Hm|Hm]; [exact Hm|]. now apply (keyed_get (_mods s)).
Qed.

Lemma get_mod_add_mod s m id :
  get_mod (add_mod s m) id = if String.eqb (repo_id m) id then Some m else get_mod s id.
Proof. unfold get_mod, add_mod. cbn [_mods]. apply get_set. Qed.

(** What a successful run of the loop records. *)
Lemma sync_loop_records
        (env : Env) (all_overwrite : bool) (sync_root cache_root caller : string)
        (deps : list Dependency) :
  forall (s : FlowModuleSpecSummary) (w : World) (s' : FlowModuleSpecSummary) (w' : World),
    keyed (_mods s) ->
    sync_loop env all_overwrite sync_root cache_root caller deps s w = (Ok s', w') ->
    (forall dep, In dep deps ->
                 exists url m, dep_url dep = Some url
                               /\ get_mod s' url = Some m /\ repo_id m = url)
    /\ (forall id, get_mod s id <> None -> get_mod s' id <> None)
    /\ (forall id, (forall dep, In dep deps -> dep_url dep <> Some id) ->
                   get_mod s' id = get_mod s id).
Proof.
  induction deps as [|dep deps IH]; intros s w s' w' Hk H; cbn [sync_loop] in H.
  - injection H as <- _. repeat split; [intros dep [] | auto].
  - apply bind_inv in H as (s1 & w1 & Hdep & Hloop).
    destruct (sync_dependency_records _ _ _ _ _ _ _ _ _ _ Hk Hdep)
      as (url & m & Hurl & Hm & ->).
    assert (Hk1 : keyed (_mods (add_mod s m))) by (cbn; now apply keyed_set).
    destruct (IH _ _ _ _ Hk1 Hloop) as (Hreq & Hkeep & Hother).
    split; [|split].
    + intros d [<-|Hin]; [|now apply Hreq].
      assert (Hrec : get_mod s' url <> None).
      { apply Hkeep. rewrite get_mod_add_mod, Hm, String.eqb_refl. discriminate. }
      destruct (get_mod s' url) as [m'|] eqn:Hget; [|contradiction].
      exists url, m'. split; [exact Hurl|]. split; [exact Hget|].
      apply (keyed_get (_mods s')); [|exact Hget].
      exact (sync_loop_keyed env all_overwrite sync_root cache_root caller deps
               (add_mod s m) Hk1 w1 s' w' Hloop).
    + intros id Hid. apply Hkeep. rewrite get_mod_add_mod.
      now destruct (String.eqb (repo_id m) id).
    + intros id Hid. rewrite Hother by (intros d Hd; apply Hid; now right).
      rewrite get_mod_add_mod, Hm.
      destruct (String.eqb_spec url id) as [->|_]; [|reflexivity].
      exfalso. apply (Hid dep); [now left | exact Hurl].
Qed.


(** X20. A run of the loop of [_sync_dependencies] that succeeds, started
    on a manifest with one descriptor per origin id, changes the manifest
    only at the [url]s of its dependencies: afterwards each of them has a
    descriptor, filed under its own origin id; a module that was recorded
    is still recorded; and the descriptor of an origin id that no
    dependency names is the one that was there. *)
Theorem sync_records_the_requested_modules
        (env : Env) (all_overwrite : bool) (sync_root cache_root caller : string)
        (deps : list Dependency) :
  forall (s : FlowModuleSpecSummary) (w : World) (s' : FlowModuleSpecSummary) (w' : World),
    keyed (_mods s) ->
    sync_loop env all_overwrite sync_root cache_root caller deps s w = (Ok s', w') ->
    (forall dep, In dep deps ->
                 exists url m, dep_url dep = Some url
                               /\ get_mod s' url = Some m /\ repo_id m = url)
    /\ (forall id, get_mod s id <> None -> get_mod s' id <> None)
    /\ (forall id, (forall dep, In dep deps -> dep_url dep <> Some id) ->
                   get_mod s' id = get_mod s id).
Proof.
  intros s w s' w' Hk Hloop.
  destruct (sync_loop_records env all_overwrite sync_root cache_root caller deps
              s w s' w' Hk Hloop) as (Hreq & Hkeep & Hother).
  split; [exact Hreq|]. split; [exact Hkeep | exact Hother].
Qed.

Lemma sync_records_the_requested_modules_witness :
  exists url m,
    dep_url (Scenario.dep "acme/widgets") = Some url
    /\ get_mod (new_summary Scenario.sync_root Scenario.cache_root [Scenario.widgets]) url
       = Some m
    /\ repo_id m = url.
Proof.
  apply (proj1 (sync_records_the_requested_modules Scenario.env false
                  Scenario.sync_root Scenario.cache_root "__main__"
                  [Scenario.dep "acme/widgets"]
                  (new_summary Scenario.sync_root Scenario.cache_root [])
                  Scenario.opened_world
                  (new_summary Scenario.sync_root Scenario.cache_root [Scenario.widgets])
                  Scenario.half_synced_world keyed_nil eq_refl)).
  now left.
Defined.

Lemma open_manifest_keyed env base cache_root caller :
  returns (fun opened => keyed (_mods (snd opened)))
          (open_manifest env base cache_root caller).
Proof.
  unfold open_manifest. do 6 (apply returns_bind; intro).
  apply returns_bind_run. intros loaded w w1 Hload. unfold lift in Hload.
  injection Hload as Hload _.
  destruct loaded as [s0|]; [|apply returns_raise].
  apply returns_ret. cbn [snd]. now apply (from_flow_mod_file_keyed env a4).
Qed.

Lemma get_mod_in_get_mods s id m : get_mod s id = Some m -> In m (get_mods s).
Proof.
  unfold get_mod, get_mods, Dict.values. destruct s as [sr cr d]. cbn [_mods].
  induction d as [|[k v] d IH]; cbn [Dict.get map snd]; [discriminate|].
  destruct (String.eqb k id).
  - intros [= ->]. now left.
  - intros H. right. now apply IH.
Qed.

(** X21. A call of [sync_dependencies] that succeeds returns the sync
    locations of the manifest that [_sync_dependencies] returned, one for
    each module recorded in it; each requested dependency has a descriptor
    in that manifest, filed under its [url], and the sync location of that
    descriptor is in the list. *)
Theorem successful_sync_returns_every_destination
        (env : Env) (caller : string) (deps : list Dependency) (all_overwrite : bool)
        (default_cache_path : string) (w : World) (dirs' : list string) (w' : World) :
  sync_dependencies env caller deps all_overwrite default_cache_path w = (Ok dirs', w') ->
  exists s,
    _sync_dependencies env deps all_overwrite "." default_cache_path caller w
    = (Ok s, w')
    /\ dirs' = map sync_dir (get_mods s)
    /\ forall dep, In dep deps ->
                   exists url m, dep_url dep = Some url /\ get_mod s url = Some m
                                 /\ repo_id m = url /\ In (sync_dir m) dirs'.
Proof.
  intros H. unfold sync_dependencies in H.
  apply bind_inv in H as (s & w1 & Hrun & H). injection H as <- <-.
  exists s. split; [exact Hrun|]. split; [reflexivity|].
  rewrite _sync_dependencies_split in Hrun.
  apply bind_inv in Hrun as ([path s0] & w2 & Hopen & Hrun).
  pose proof (open_manifest_keyed _ _ _ _ _ _ _ Hopen) as Hk0. cbn [snd] in Hk0.
  unfold sync_and_write in Hrun.
  apply bind_inv in Hrun as (s1 & w3 & Hloop & Hrun).
  apply bind_inv in Hrun as (u1 & w4 & _ & Hrun).
  apply bind_inv in Hrun as (u2 & w5 & _ & Hrun). injection Hrun as <- _.
  intros dep Hin.
  destruct (proj1 (sync_loop_records _ _ _ _ _ _ _ _ _ _ Hk0 Hloop)
              dep Hin) as (url & m & Hurl & Hget & Hm).
  exists url, m. repeat split; auto.
  apply in_map. now apply (get_mod_in_get_mods _ url).
Qed.

Lemma successful_sync_returns_every_destination_witness :
  exists s,
    _sync_dependencies Scenario.env [Scenario.dep "acme/widgets"] false "."
      Scenario.cache_root "__main__" Scenario.empty_world
    = (Ok s, Scenario.synced_world)
    /\ [sync_dir Scenario.widgets] = map sync_dir (get_mods s).
Proof.
  assert (Hcall : sync_dependencies Scenario.env "__main__" [Scenario.dep "acme/widgets"]
                    false Scenario.cache_root Scenario.empty_world
                  = (Ok [sync_dir Scenario.widgets], Scenario.synced_world))
    by (vm_compute; reflexivity).
  destruct (successful_sync_returns_every_destination Scenario.env "__main__"
              [Scenario.dep "acme/widgets"] false Scenario.cache_root
              Scenario.empty_world [sync_dir Scenario.widgets] Scenario.synced_world
              Hcall) as (s & Hrun & Hdirs & _).
  exists s. split; [exact Hrun | exact Hdirs].
Defined.

(* ===================================================================== *)
(** * The files of the destination root *)
(* ===================================================================== *)








Lemma os_path_exists_run path w :
  os_path_exists path w
  = (Ok (match resolve w path with Some _ => true | None => false end), w).
Proof. reflexivity. Qed.

Lemma os_path_isdir_run path w :
  os_path_isdir path w
  = (Ok (match resolve w path with Some (Dir _) => true | _ => false end), w).
Proof. reflexivity. Qed.


Lemma empty_manifest_text sync_root cache_root :
  empty_manifest sync_root cache_root
  = REVISION_FILE_HEADER ++ PyStr.nl
    ++ PyStr.join_with PyStr.nl
         ["sync_root: " ++ sync_root; "cache_root: " ++ cache_root]
    ++ PyStr.nl.
Proof.
  unfold empty_manifest.
  change (PyStr.join_with PyStr.nl
            [REVISION_FILE_HEADER; "sync_root: " ++ sync_root;
             "cache_root: " ++ cache_root])
    with (REVISION_FILE_HEADER ++ PyStr.nl
          ++ PyStr.join_with PyStr.nl
               ["sync_root: " ++ sync_root; "cache_root: " ++ cache_root]).
  now rewrite !append_assoc.
Qed.





(* ===================================================================== *)
(** * Before the loop *)
(* ===================================================================== *)

(** X24. A manifest file that cannot be read stops the synchronisation
    before any dependency is looked at: with the sync root in place,
    [_sync_dependencies] fails with the exception of [from_flow_mod_file],
    whatever the dependencies are, and all it has done is log that it
    started. The manifest file is neither repaired nor overwritten. *)
Theorem unreadable_manifest_stops_the_sync
        (env : Env) (deps : list Dependency) (all_overwrite : bool)
        (base cache_root caller : string) (w : World)
        (text : string) (entries : list (string * node)) (e : exn) :
  resolve w (sync_root_of env base) = Some (Dir entries) ->
  Dict.get (dirs w) (manifest_path env base) = None ->
  Dict.get (files w) (manifest_path env base) = Some text ->
  from_flow_mod_file env (Some text) = Raise e ->
  exists started,
    _sync_dependencies env deps all_overwrite base cache_root caller w
    = (Raise e, add_events w [LogInfo started]).
Proof.
  intros Hroot Hnodir Hfile Hparse. eexists.
  rewrite _sync_dependencies_split. apply bind_raise. unfold open_manifest.
  rewrite (@bind_ok _ _ _ _ _ _ _ (emit_run _ w)).
  set (w1 := add_events w _).
  rewrite (@bind_ok _ _ _ _ _ _ _ (os_path_exists_run _ w1)).
  rewrite (@bind_ok _ _ _ _ _ _ _ (os_path_isdir_run _ w1)).
  unfold w1 at 1 2. rewrite !resolve_add_events, Hroot. cbn [negb]. rewrite ret_bind.
  assert (Hcreate : create_empty_flow_mod_file (sync_root_of env base) cache_root w1
                    = (Ok (manifest_path env base), w1)).
  { unfold create_empty_flow_mod_file. fold (manifest_path env base).
    rewrite (@bind_ok _ _ _ _ _ _ _ (os_path_exists_run _ w1)).
    unfold resolve. subst w1. cbn [dirs files add_events].
    now rewrite Hnodir, Hfile. }
  rewrite (@bind_ok _ _ _ _ _ _ _ Hcreate).
  assert (Hread : read_file (manifest_path env base) w1 = (Ok (Some text), w1)).
  { unfold read_file. subst w1. cbn [files add_events]. now rewrite Hfile. }
  rewrite (@bind_ok _ _ _ _ _ _ _ Hread).
  apply bind_raise. unfold lift. now rewrite Hparse.
Qed.

Lemma unreadable_manifest_stops_the_sync_witness :
  exists started e,
    _sync_dependencies Scenario.env [Scenario.dep "acme/widgets"] false "."
      Scenario.cache_root "__main__"
      {| files := [("/home/me/flow_modules/flow.mod", Scenario.manifest_without_cache_root)];
         dirs := [("/home/me/flow_modules", Tree (Dir []))];
         asked := 0; trace := [] |}
    = (Raise e,
       {| files := [("/home/me/flow_modules/flow.mod",
                     Scenario.manifest_without_cache_root)];
          dirs := [("/home/me/flow_modules", Tree (Dir []))];
          asked := 0; trace := [LogInfo started] |}).
Proof.
  destruct (unreadable_manifest_stops_the_sync Scenario.env
              [Scenario.dep "acme/widgets"] false "." Scenario.cache_root "__main__"
              {| files := [("/home/me/flow_modules/flow.mod",
                            Scenario.manifest_without_cache_root)];
                 dirs := [("/home/me/flow_modules", Tree (Dir []))];
                 asked := 0; trace := [] |}
              Scenario.manifest_without_cache_root []
              (ValueError "the second line must be `cache_root: xxxx`")
              eq_refl eq_refl eq_refl eq_refl) as [started H].
  exists started, (ValueError "the second line must be `cache_root: xxxx`"). exact H.
Defined.

(** X25. When something that is not a directory stands at the sync root,
    [_sync_dependencies] fails with a [ValueError] before it creates or
    reads anything: all it has done is log that it started. *)
Theorem sync_root_must_be_a_directory
        (env : Env) (deps : list Dependency) (all_overwrite : bool)
        (base cache_root caller : string) (w : World) (n : node) :
  resolve w (sync_root_of env base) = Some n ->
  (forall entries, n <> Dir entries) ->
  exists started msg,
    _sync_dependencies env deps all_overwrite base cache_root caller w
    = (Raise (ValueError msg), add_events w [LogInfo started]).
Proof.
  intros Hroot Hnodir. do 2 eexists.
  rewrite _sync_dependencies_split. apply bind_raise. unfold open_manifest.
  rewrite (@bind_ok _ _ _ _ _ _ _ (emit_run _ w)).
  set (w1 := add_events w _).
  rewrite (@bind_ok _ _ _ _ _ _ _ (os_path_exists_run _ w1)).
  rewrite (@bind_ok _ _ _ _ _ _ _ (os_path_isdir_run _ w1)).
  unfold w1 at 1 2. rewrite !resolve_add_events, Hroot. cbn [negb].
  destruct n as [content|entries|]; [| now contradiction (Hnodir entries) |];
    cbn [negb]; apply bind_raise; reflexivity.
Qed.

Lemma sync_root_must_be_a_directory_witness :
  exists started msg,
    _sync_dependencies Scenario.env [Scenario.dep "acme/widgets"] false "."
      Scenario.cache_root "__main__"
      {| files := [("/home/me/flow_modules", "not a directory")]; dirs := [];
         asked := 0; trace := [] |}
    = (Raise (ValueError msg),
       {| files := [("/home/me/flow_modules", "not a directory")]; dirs := [];
          asked := 0; trace := [LogInfo started] |}).
Proof.
  apply (sync_root_must_be_a_directory Scenario.env [Scenario.dep "acme/widgets"]
           false "." Scenario.cache_root "__main__"
           {| files := [("/home/me/flow_modules", "not a directory")]; dirs := [];
              asked := 0; trace := [] |}
           (File "not a directory") eq_refl).
  discriminate.
Defined.

(* ===================================================================== *)
(** * Installing requirements *)
(* ===================================================================== *)

(** X26. Without a [pip_requirements.txt] in the sync location,
    [install_requirements] raises a [ValueError] and does nothing. With one
    whose requirements are all satisfied it does nothing and asks nothing.
    With unsatisfied requirements it asks the user once, and runs [pip] on
    the file exactly when the answer is yes. When the unsatisfied
    requirements are those of [get_unsatisfied_pip_requirements], a file of
    blank lines and comments is one for which it does nothing. *)
Theorem requirements_are_installed_on_consent
        (env : Env) (m : FlowModuleSpec) (w : World) :
  let run := install_requirements env m w in
  let requirements_file := PyPath.join (sync_dir m) "pip_requirements.txt" in
  let answer := yes_no_question env (asked w) in
  (child (resolve w (sync_dir m)) "pip_requirements.txt" = None ->
   exists msg, run = (Raise (ValueError msg), w))
  /\ (forall content,
         child (resolve w (sync_dir m)) "pip_requirements.txt" = Some (File content) ->
         (unsatisfied_requirements env content = Ok [] -> run = (Ok tt, w))
         /\ (forall req reqs,
                unsatisfied_requirements env content = Ok (req :: reqs) ->
                exists question,
                  run = (Ok tt,
                         add_events (after_question w [] question answer)
                           (if answer then [PipInstall requirements_file] else [])))
         /\ (forall requirement_satisfied,
                (forall text, unsatisfied_requirements env text
                              = get_unsatisfied_pip_requirements requirement_satisfied text) ->
                forallb no_requirement (PyStr.readlines content) = true ->
                run = (Ok tt, w))).
Proof.
  intros run requirements_file answer.
  assert (Hnone : forall content,
             child (resolve w (sync_dir m)) "pip_requirements.txt" = Some (File content) ->
             unsatisfied_requirements env content = Ok [] -> run = (Ok tt, w)).
  { intros content Hfile Hun. subst run. unfold install_requirements.
    rewrite Hfile. unfold bind, lift. now rewrite Hun. }
  split.
  - intros Hfile. subst run. unfold install_requirements. rewrite Hfile. eauto.
  - intros content Hfile. split; [now apply Hnone|]. split.
    + intros req reqs Hun. subst run. unfold install_requirements.
      rewrite Hfile. unfold bind at 1. unfold lift. rewrite Hun.
      unfold display_and_confirm_requirements.
      eexists. rewrite (@bind_ok _ _ _ _ _ _ _ (yes_no_run _ _ _)). fold answer.
      destruct answer; [reflexivity|]. now rewrite add_events_nil.
    + intros sat Hsat Hblank. apply (Hnone content Hfile). rewrite Hsat.
      unfold get_unsatisfied_pip_requirements. apply unsatisfied_loop_blank.
      now rewrite forallb_map_comp.
Qed.

Lemma requirements_are_installed_on_consent_witness :
  exists question,
    install_requirements Needy.env Scenario.widgets Scenario.synced_world
    = (Ok tt,
       add_events (after_question Scenario.synced_world [] question true)
         [PipInstall "/home/me/flow_modules/acme/widgets/pip_requirements.txt"]).
Proof.
  destruct (requirements_are_installed_on_consent Needy.env Scenario.widgets
              Scenario.synced_world) as [_ H].
  destruct (H "" eq_refl) as [_ [Hask _]].
  exact (Hask "torch>=2.0" [] eq_refl).
Defined.

(* ===================================================================== *)
(** * When the scan fails *)
(* ===================================================================== *)

(** X27. With a previous descriptor at the derived sync location, a scan
    that fails is the failure of [sync_remote_dep], whatever the overwrite
    flag, the requested revision and the commit hash at the hub are, also
    when nothing would have been fetched: a cache directory that is gone
    makes the call fail with [FileNotFoundError], and an exception of
    [is_sync_dir_modified], such as the one for a file that the working
    copy lacks, is the exception of the call. Nothing was asked, removed or
    fetched. *)
Theorem scan_failure_fails_the_sync
        (env : Env) (previous : FlowModuleSpec)
        (repo mod_name rev caller sync_root cache_root : string)
        (overwrite : bool) (w : World) (sha : string) :
  let run :=
    sync_remote_dep env (Some previous) repo mod_name rev caller sync_root
      cache_root overwrite w in
  let scanned := add_events w [HubRepoInfo repo rev; ScanDir (cache_dir previous)] in
  derived_sync_dir env sync_root mod_name = sync_dir previous ->
  hub_repo_sha env repo rev = Ok sha ->
  (resolve w (cache_dir previous) = None ->
   run = (Raise (OSError "FileNotFoundError"), scanned))
  /\ (forall cache e,
         resolve w (cache_dir previous) = Some cache ->
         is_sync_dir_modified (resolve w (sync_dir previous)) cache = Raise e ->
         run = (Raise e, scanned)).
Proof.
  intros run scanned Hsd Hsha. unfold derived_sync_dir in Hsd.
  pose proof (retrive_commit_hash_from_remote_run env repo rev w) as Hlook.
  rewrite Hsha in Hlook.
  pose proof (is_sync_dir_modified_at_run (sync_dir previous) (cache_dir previous)
                (add_events w [HubRepoInfo repo rev])) as Hs.
  rewrite !resolve_add_events, add_events_app in Hs. cbn [app] in Hs. fold scanned in Hs.
  split.
  - intros Hcache. rewrite Hcache in Hs. subst run. unfold sync_remote_dep.
    rewrite Hsd, (@bind_ok _ _ _ _ _ _ _ (assert_eq_same _ w)).
    rewrite (@bind_ok _ _ _ _ _ _ _ Hlook). now apply bind_raise.
  - intros cache e Hcache Hscan. rewrite Hcache, Hscan in Hs. subst run.
    unfold sync_remote_dep.
    rewrite Hsd, (@bind_ok _ _ _ _ _ _ _ (assert_eq_same _ w)).
    rewrite (@bind_ok _ _ _ _ _ _ _ Hlook). now apply bind_raise.
Qed.

Lemma scan_failure_fails_the_sync_witness :
  sync_remote_dep Scenario.env (Some Scenario.widgets) "acme/widgets" "acme/widgets"
    "main" "__main__" Scenario.sync_root Scenario.cache_root false pruned_world
  = (Raise (OSError "FileNotFoundError"),
     add_events pruned_world
       [HubRepoInfo "acme/widgets" "main"; ScanDir (cache_dir Scenario.widgets)]).
Proof.
  apply (proj2 (scan_failure_fails_the_sync Scenario.env Scenario.widgets
                  "acme/widgets" "acme/widgets" "main" "__main__" Scenario.sync_root
                  Scenario.cache_root false pruned_world "abc123" eq_refl eq_refl)
           Scenario.snapshot_tree (OSError "FileNotFoundError")).
  - reflexivity.
  - reflexivity.
Defined.

(* ===================================================================== *)
(** * The first synchronisation *)
(* ===================================================================== *)




